(** * Smart Task Manager: the Task record, the TaskManager and its
    priority-biased topological ordering

    A shallow embedding of [src/smart_task_manager.py] (classes [Task] and
    [TaskManager]) together with the properties of the scheduler that the
    specification states.

    Conventions of the embedding.
    - A [datetime] is a naive timestamp, counted in microseconds; the
      [days] attribute of a [timedelta] is the floor of the difference
      divided by the length of a day, which is what [Z.div] computes.
    - [datetime.now()] is passed to every operation as the argument [now].
    - [urgency] is an [int], so the priority score is an integer.
    - [TaskManager.tasks] is a Python [dict]: a list of key/value pairs in
      insertion order, with the dictionary's assignment and deletion.
    - The local dictionaries [task_dict] and [in_degree] of the ordering
      routine are finite maps ([gmap]).
    - The [heapq] priority queue is a list of tuples kept in increasing
      order: [heappop] returns its least tuple. *)

From stdpp Require Import gmap strings list sorting.
From Stdlib Require Import ZArith Lia Ascii DecimalString DecimalZ.

Local Open Scope Z_scope.

(** ** Task *)

Abbreviation datetime := Z (only parsing).

Definition day_us : Z := 86400000000.

(** [(a - b).days] *)
Definition timedelta_days (a b : datetime) : Z := (a - b) `div` day_us.

Record Task := mkTask {
  task_id : Z;
  title : string;
  description : string;
  deadline : option datetime;
  urgency : Z;
  dependencies : list Z;
  completed : bool;
  created_at : datetime;
  priority_score : Z
}.

#[global] Instance Task_eq_dec : EqDecision Task.
Proof. solve_decision. Defined.

Definition set_priority_score (s : Z) (t : Task) : Task :=
  mkTask (task_id t) (title t) (description t) (deadline t) (urgency t)
         (dependencies t) (completed t) (created_at t) s.

(** [Task.__init__]: [dependencies or []], not completed, created now,
    score [0.0]. *)
Definition Task_init (now : datetime) (id : Z) (ttl descr : string)
    (dl : option datetime) (urg : Z) (deps : option (list Z)) : Task :=
  mkTask id ttl descr dl urg (default [] deps) false now 0.

Module Score.

Definition base_score (t : Task) : Z := urgency t * 10.

(** The [if]/[elif] chain on [days_until_deadline]. *)
Definition deadline_score (now : datetime) (t : Task) : Z :=
  match deadline t with
  | Some dl =>
      let days_until_deadline := timedelta_days dl now in
      if days_until_deadline <? 0 then 200
      else if days_until_deadline =? 0 then 100
      else if days_until_deadline <=? 3 then 80 - days_until_deadline * 20
      else if days_until_deadline <=? 7 then 40 - days_until_deadline * 5
      else Z.max 0 (20 - days_until_deadline)
  | None => 0
  end.

Definition age_score (now : datetime) (t : Task) : Z :=
  let age_days := timedelta_days now (created_at t) in
  Z.min 20 (age_days * 2).

Definition score (now : datetime) (t : Task) : Z :=
  base_score t + deadline_score now t + age_score now t.

End Score.

(** [Task.calculate_priority_score]: the task with its score cache
    written, and the value returned. *)
Definition calculate_priority_score (now : datetime) (t : Task) : Task * Z :=
  (set_priority_score (Score.score now t) t, Score.score now t).

Definition rescore (now : datetime) (t : Task) : Task :=
  fst (calculate_priority_score now t).

(** The formula of the specification, written from its text: the cases of
    the deadline term are guarded by the stated ranges of [days]. *)
Module SpecFormula.

Inductive deadline_term_is (days : Z) : Z -> Prop :=
  | term_overdue : days < 0 -> deadline_term_is days 200
  | term_today : days = 0 -> deadline_term_is days 100
  | term_three : 1 <= days <= 3 -> deadline_term_is days (80 - 20 * days)
  | term_week : 4 <= days <= 7 -> deadline_term_is days (40 - 5 * days)
  | term_later : days > 7 -> deadline_term_is days (Z.max 0 (20 - days)).

Definition deadline_term_ok (now : datetime) (t : Task) (term : Z) : Prop :=
  match deadline t with
  | Some dl => deadline_term_is ((dl - now) `div` day_us) term
  | None => term = 0
  end.

Definition age_term (now : datetime) (t : Task) : Z :=
  Z.min 20 (2 * ((now - created_at t) `div` day_us)).

End SpecFormula.

(** ** Python containers *)

(** A [dict] with integer keys, as the list of its items in insertion
    order. Assigning to a key that is present replaces the value in place;
    a new key goes to the end. *)
Section dict.
Context {V : Type}.

Definition dict_contains (k : Z) (d : list (Z * V)) : bool :=
  bool_decide (k ∈ d.*1).

Fixpoint dict_get (k : Z) (d : list (Z * V)) : option V :=
  match d with
  | [] => None
  | (k', v) :: d' => if decide (k = k') then Some v else dict_get k d'
  end.

Fixpoint dict_set (k : Z) (v : V) (d : list (Z * V)) : list (Z * V) :=
  match d with
  | [] => [(k, v)]
  | (k', v') :: d' =>
      if decide (k = k') then (k, v) :: d' else (k', v') :: dict_set k v d'
  end.

Fixpoint dict_del (k : Z) (d : list (Z * V)) : list (Z * V) :=
  match d with
  | [] => []
  | (k', v') :: d' =>
      if decide (k = k') then d' else (k', v') :: dict_del k d'
  end.

Definition dict_values (d : list (Z * V)) : list V := d.*2.
End dict.

(** [list.remove(x)]: drops the first occurrence of [x]. *)
Fixpoint list_remove_first (x : Z) (l : list Z) : list Z :=
  match l with
  | [] => []
  | y :: l' => if decide (x = y) then l' else y :: list_remove_first x l'
  end.

(** [list.sort(key=...)]: a stable sort, ascending in the key. Insertion
    from the right puts an element in front of the first element whose key
    is not smaller, so equal keys keep their order. *)
Section sort_key.
Context {A : Type} (key : A → Z).

Fixpoint insert_by_key (x : A) (l : list A) : list A :=
  match l with
  | [] => [x]
  | y :: l' =>
      if key x <=? key y then x :: y :: l' else y :: insert_by_key x l'
  end.

Definition sort_by_key (l : list A) : list A := foldr insert_by_key [] l.
End sort_key.

(** ** The priority queue of [heapq] *)

Module Heap.

(** The tuples [(-priority_score, task_id, task)]. *)
Definition entry : Type := Z * Z * Task.

Definition entry_task (e : entry) : Task := e.2.

(** Tuple comparison is lexicographic. The third component is compared
    only between tuples that agree on the first two; the queue never holds
    two tuples with one id ([inv_nodup] of [queue_inv] below), so the
    comparison stops at the id. *)
Definition entry_ltb (e1 e2 : entry) : bool :=
  (e1.1.1 <? e2.1.1) || ((e1.1.1 =? e2.1.1) && (e1.1.2 <? e2.1.2)).

Definition entry_lt (e1 e2 : entry) : Prop :=
  e1.1.1 < e2.1.1 ∨ (e1.1.1 = e2.1.1 ∧ e1.1.2 < e2.1.2).

Fixpoint heappush (e : entry) (h : list entry) : list entry :=
  match h with
  | [] => [e]
  | x :: h' => if entry_ltb e x then e :: x :: h' else x :: heappush e h'
  end.

Definition heappop (h : list entry) : option (entry * list entry) :=
  match h with
  | [] => None
  | e :: h' => Some (e, h')
  end.

Definition tasks_of (h : list entry) : list Task := entry_task <$> h.

End Heap.

(** ** TaskManager *)

Record TaskManager := mkTaskManager {
  tasks : list (Z * Task);
  next_id : Z
}.

(** [TaskManager.__init__] (the attribute [priority_queue] is never read
    or written afterwards and is left out). *)
Definition TaskManager_init : TaskManager := mkTaskManager [] 1.

Definition _update_priorities (now : datetime) (st : TaskManager)
    : TaskManager :=
  mkTaskManager (prod_map id (rescore now) <$> tasks st) (next_id st).

Definition add_task (now : datetime) (ttl descr : string)
    (dl : option datetime) (urg : Z) (deps : option (list Z))
    (st : TaskManager) : TaskManager * Z :=
  let task := Task_init now (next_id st) ttl descr dl urg deps in
  let st1 :=
    mkTaskManager (dict_set (next_id st) task (tasks st)) (next_id st + 1) in
  (_update_priorities now st1, task_id task).

(** The assignments of [edit_task], each guarded by [is not None]. *)
Definition apply_edit (ttl descr : option string) (dl : option datetime)
    (urg : option Z) (deps : option (list Z)) (t : Task) : Task :=
  mkTask (task_id t)
         (match ttl with Some x => x | None => title t end)
         (match descr with Some x => x | None => description t end)
         (match dl with Some x => Some x | None => deadline t end)
         (match urg with Some x => x | None => urgency t end)
         (match deps with Some x => x | None => dependencies t end)
         (completed t) (created_at t) (priority_score t).

Definition edit_task (now : datetime) (tid : Z) (ttl descr : option string)
    (dl : option datetime) (urg : option Z) (deps : option (list Z))
    (st : TaskManager) : TaskManager * bool :=
  match dict_get tid (tasks st) with
  | None => (st, false)
  | Some task =>
      let task' := apply_edit ttl descr dl urg deps task in
      (_update_priorities now
         (mkTaskManager (dict_set tid task' (tasks st)) (next_id st)), true)
  end.

Definition strip_dependency (tid : Z) (t : Task) : Task :=
  if bool_decide (tid ∈ dependencies t) then
    mkTask (task_id t) (title t) (description t) (deadline t) (urgency t)
           (list_remove_first tid (dependencies t))
           (completed t) (created_at t) (priority_score t)
  else t.

Definition delete_task (now : datetime) (tid : Z) (st : TaskManager)
    : TaskManager * bool :=
  if dict_contains tid (tasks st) then
    let stripped := prod_map id (strip_dependency tid) <$> tasks st in
    (_update_priorities now
       (mkTaskManager (dict_del tid stripped) (next_id st)), true)
  else (st, false).

Definition set_completed (t : Task) : Task :=
  mkTask (task_id t) (title t) (description t) (deadline t) (urgency t)
         (dependencies t) true (created_at t) (priority_score t).

Definition complete_task (now : datetime) (tid : Z) (st : TaskManager)
    : TaskManager * bool :=
  match dict_get tid (tasks st) with
  | None => (st, false)
  | Some task =>
      (_update_priorities now
         (mkTaskManager (dict_set tid (set_completed task) (tasks st))
                        (next_id st)), true)
  end.

(** ** The ordering routine *)

Module Topo.

Import Heap.

Definition entry_of (t : Task) : entry := (- priority_score t, task_id t, t).

(** [{t.task_id: t for t in tasks}]: a later task replaces an earlier one
    of the same id. *)
Definition task_dict (tasks : list Task) : gmap Z Task :=
  foldl (λ m t, <[task_id t := t]> m) ∅ tasks.

(** [{t.task_id: 0 for t in tasks}] *)
Definition in_degree_init (tasks : list Task) : gmap Z Z :=
  foldl (λ m t, <[task_id t := 0]> m) ∅ tasks.

(** The two nested tests on [dep_id]. *)
Definition counts (td : gmap Z Task) (in_degree : gmap Z Z) (dep_id : Z)
    : bool :=
  bool_decide (is_Some (in_degree !! dep_id)) &&
  match td !! dep_id with
  | Some d => negb (completed d)
  | None => false
  end.

(** [in_degree[k] += 1] and [in_degree[k] -= 1] read and rewrite the entry
    of a key; every key used is the id of a task of [tasks], which
    [in_degree_init] has entered ([in_degree_keys] below). *)
Definition incr (k : Z) (m : gmap Z Z) : gmap Z Z := <[k := m !!! k + 1]> m.
Definition decr (k : Z) (m : gmap Z Z) : gmap Z Z := <[k := m !!! k - 1]> m.

(** The inner loop over [task.dependencies]. *)
Definition count_task (td : gmap Z Task) (in_degree : gmap Z Z) (task : Task)
    : gmap Z Z :=
  foldl (λ m dep_id, if counts td m dep_id then incr (task_id task) m else m)
        in_degree (dependencies task).

(** "Calculate in-degrees". *)
Definition calc_in_degree (tasks : list Task) : gmap Z Z :=
  foldl (count_task (task_dict tasks)) (in_degree_init tasks) tasks.

(** The first pushes: every task whose in-degree is zero. *)
Definition initial_available (in_degree : gmap Z Z) (tasks : list Task)
    : list entry :=
  foldl (λ h t, if in_degree !!! task_id t =? 0
                then heappush (entry_of t) h else h) [] tasks.

Record loop_state := mkLoop {
  in_degree : gmap Z Z;
  available_tasks : list entry;
  sorted_tasks : list Task
}.

(** One pass of "Update in-degrees for dependent tasks" for one
    [other_task]. *)
Definition relax_one (tid : Z) (s : gmap Z Z * list entry) (other : Task)
    : gmap Z Z * list entry :=
  if bool_decide (tid ∈ dependencies other) && negb (completed other) then
    let m := decr (task_id other) s.1 in
    if m !!! task_id other =? 0
    then (m, heappush (entry_of other) s.2)
    else (m, s.2)
  else s.

Definition relax (tasks : list Task) (tid : Z) (s : gmap Z Z * list entry)
    : gmap Z Z * list entry :=
  foldl (relax_one tid) s tasks.

(** One iteration of the [while] loop; [None] when the queue is empty. *)
Definition step (tasks : list Task) (s : loop_state) : option loop_state :=
  match heappop (available_tasks s) with
  | None => None
  | Some ((_, tid, task), rest) =>
      let r := relax tasks tid (in_degree s, rest) in
      Some (mkLoop r.1 r.2 (sorted_tasks s ++ [task]))
  end.

(** The [while] loop, cut after [fuel] iterations: [None] says that the
    queue is still not empty then. *)
Fixpoint loop (fuel : nat) (tasks : list Task) (s : loop_state)
    : option (list Task) :=
  match step tasks s with
  | None => Some (sorted_tasks s)
  | Some s' =>
      match fuel with
      | O => None
      | S fuel' => loop fuel' tasks s'
      end
  end.

Definition initial_state (tasks : list Task) : loop_state :=
  let in_degree := calc_in_degree tasks in
  mkLoop in_degree (initial_available in_degree tasks) [].

(** "Add any remaining tasks (in case of cycles)". [Task] defines no
    [__eq__], so [t not in sorted_tasks] compares objects; the working set
    holds one object per id. *)
Definition remaining_tasks (tasks sorted : list Task) : list Task :=
  sort_by_key (λ x, - priority_score x) (filter (λ t, t ∉ sorted) tasks).

(** The sequence built by the [while] loop alone. *)
Definition main_loop (tasks : list Task) : option (list Task) :=
  loop (length tasks) tasks (initial_state tasks).

Definition _topological_sort_with_priority (tasks : list Task)
    : option (list Task) :=
  sorted ← main_loop tasks;
  Some (sorted ++ remaining_tasks tasks sorted).

End Topo.

(** The working set of [get_sorted_tasks], with the scores just computed. *)
Definition working_set (now : datetime) (include_completed : bool)
    (st : TaskManager) : list Task :=
  let tasks := dict_values (tasks st) in
  let tasks :=
    if include_completed then tasks
    else filter (λ t, completed t = false) tasks in
  rescore now <$> tasks.

(** [get_sorted_tasks] writes the score of every task of the working set
    (the tasks are the objects the collection holds) and returns the
    ordered list. *)
Definition get_sorted_tasks (now : datetime) (include_completed : bool)
    (st : TaskManager) : TaskManager * option (list Task) :=
  let st' :=
    mkTaskManager
      (prod_map id (λ t, if include_completed || negb (completed t)
                          then rescore now t else t) <$> tasks st)
      (next_id st) in
  (st', Topo._topological_sort_with_priority
          (working_set now include_completed st)).

(** [ordered(include_completed)] of the specification: the list
    returned. *)
Definition ordered (now : datetime) (include_completed : bool)
    (st : TaskManager) : option (list Task) :=
  snd (get_sorted_tasks now include_completed st).

(** ** Persistence *)

(** The values of the [json] module. An object is the list of its items;
    [json.load] gives every key once. *)
#[warnings="-register-all"]
Inductive json :=
  | JNull
  | JBool (b : bool)
  | JNum (z : Z)
  | JStr (s : string)
  | JList (l : list json)
  | JObj (items : list (string * json)).

(** What [Task.from_dict] and [load_from_json] can raise. A field that is
    present with a JSON type other than the one of the [Task] attribute
    lies outside the typed record and is reported as [IllTyped] where it is
    read. *)
Inductive load_error :=
  | KeyError (k : string)
  | ValueError
  | IllTyped (k : string).

Inductive result (A : Type) :=
  | Ok (a : A)
  | Raise (e : load_error).
Arguments Ok {A} a.
Arguments Raise {A} e.

Definition bind_result {A B} (r : result A) (f : A → result B) : result B :=
  match r with
  | Ok a => f a
  | Raise e => Raise e
  end.

Notation "x ←! r ; k" := (bind_result r (λ x, k))
  (at level 20, r at level 100, k at level 200, right associativity).

(** [data[k]] and [data.get(k)] *)
Fixpoint obj_get (k : string) (items : list (string * json)) : option json :=
  match items with
  | [] => None
  | (k', v) :: items' => if String.eqb k k' then Some v else obj_get k items'
  end.

(** Truth value of a JSON value, as [if data.get('deadline')] tests it. *)
Definition truthy (j : json) : bool :=
  match j with
  | JNull => false
  | JBool b => b
  | JNum z => negb (z =? 0)
  | JStr s => negb (bool_decide (s = ""%string))
  | JList l => match l with [] => false | _ => true end
  | JObj l => match l with [] => false | _ => true end
  end.

Definition as_int (k : string) (j : json) : result Z :=
  match j with JNum z => Ok z | _ => Raise (IllTyped k) end.
Definition as_str (k : string) (j : json) : result string :=
  match j with JStr s => Ok s | _ => Raise (IllTyped k) end.
Definition as_bool (k : string) (j : json) : result bool :=
  match j with JBool b => Ok b | _ => Raise (IllTyped k) end.

Fixpoint as_ints (k : string) (l : list json) : result (list Z) :=
  match l with
  | [] => Ok []
  | j :: l' => z ←! as_int k j; zs ←! as_ints k l'; Ok (z :: zs)
  end.

Definition as_int_list (k : string) (j : json) : result (list Z) :=
  match j with JList l => as_ints k l | _ => Raise (IllTyped k) end.

Section persistence.
(** [datetime.isoformat] and [datetime.fromisoformat] of the Python
    library. *)
Variable isoformat : datetime → string.
Variable fromisoformat : string → option datetime.

Definition parse_time (k : string) (j : json) : result datetime :=
  match j with
  | JStr s =>
      match fromisoformat s with
      | Some d => Ok d
      | None => Raise ValueError
      end
  | _ => Raise (IllTyped k)
  end.

Definition to_dict (t : Task) : json :=
  JObj [ ("task_id", JNum (task_id t));
         ("title", JStr (title t));
         ("description", JStr (description t));
         ("deadline", match deadline t with
                      | Some d => JStr (isoformat d)
                      | None => JNull
                      end);
         ("urgency", JNum (urgency t));
         ("dependencies", JList (JNum <$> dependencies t));
         ("completed", JBool (completed t));
         ("created_at", JStr (isoformat (created_at t)));
         ("priority_score", JNum (priority_score t)) ]%string.

Definition required (k : string) (data : list (string * json))
    : result json :=
  match obj_get k data with
  | Some j => Ok j
  | None => Raise (KeyError k)
  end.

(** [Task.from_dict]; [now] is the clock read for a record without
    [created_at]. *)
Definition from_dict (now : datetime) (record : json) : result Task :=
  match record with
  | JObj data =>
      id ←! (j ←! required "task_id" data; as_int "task_id" j);
      ttl ←! (j ←! required "title" data; as_str "title" j);
      descr ←! as_str "description"
                 (default (JStr "") (obj_get "description" data));
      dl ←! match obj_get "deadline" data with
            | Some j =>
                if truthy j then d ←! parse_time "deadline" j; Ok (Some d)
                else Ok None
            | None => Ok None
            end;
      urg ←! as_int "urgency" (default (JNum 5) (obj_get "urgency" data));
      deps ←! as_int_list "dependencies"
                (default (JList []) (obj_get "dependencies" data));
      let task := Task_init now id ttl descr dl urg (Some deps) in
      done ←! as_bool "completed"
                (default (JBool false) (obj_get "completed" data));
      created ←! parse_time "created_at"
                   (default (JStr (isoformat now))
                            (obj_get "created_at" data));
      sc ←! as_int "priority_score"
              (default (JNum 0) (obj_get "priority_score" data));
      Ok (mkTask (task_id task) (title task) (description task)
                 (deadline task) (urgency task) (dependencies task)
                 done created sc)
  | _ => Raise (IllTyped "task")
  end%string.

(** The document [save_to_json] writes. *)
Definition save_to_json (st : TaskManager) : json :=
  JObj [ ("tasks", JList (to_dict <$> dict_values (tasks st)));
         ("next_id", JNum (next_id st)) ]%string.

(** The [for] loop of [load_from_json]: the records are entered one by
    one into [self.tasks]; a record that raises ends the loop with the
    dictionary as it is at that point. *)
Fixpoint load_records (now : datetime) (records : list json)
    (acc : list (Z * Task)) : list (Z * Task) * option load_error :=
  match records with
  | [] => (acc, None)
  | r :: records' =>
      match from_dict now r with
      | Ok task => load_records now records' (dict_set (task_id task) task acc)
      | Raise e => (acc, Some e)
      end
  end.

(** What the [for] statement iterates over. *)
Definition iter_tasks (j : json) : result (list json) :=
  match j with
  | JList l => Ok l
  | JStr s => if bool_decide (s = ""%string) then Ok [] else Ok [JStr s]
  | JObj l => Ok ((λ kv, JStr kv.1) <$> l)
  | _ => Raise (IllTyped "tasks")
  end.

(** [load_from_json]. The argument is what [open] and [json.load]
    deliver: [None] when one of them raises. Every exception is caught
    and turned into [False]; the state is the one the assignments made
    before the exception have left. *)
Definition load_from_json (now : datetime) (file : option json)
    (st : TaskManager) : TaskManager * bool :=
  match file with
  | None => (st, false)
  | Some data =>
      let st1 := mkTaskManager [] (next_id st) in
      match data with
      | JObj items =>
          match iter_tasks (default (JList []) (obj_get "tasks" items)) with
          | Raise _ => (st1, false)
          | Ok records =>
              match load_records now records [] with
              | (loaded, Some _) =>
                  (mkTaskManager loaded (next_id st), false)
              | (loaded, None) =>
                  match as_int "next_id"
                          (default (JNum 1) (obj_get "next_id" items)) with
                  | Ok n =>
                      (_update_priorities now (mkTaskManager loaded n), true)
                  | Raise _ => (mkTaskManager loaded (next_id st), false)
                  end
              end
          end
      | _ => (st1, false)
      end
  end%string.
End persistence.

(** A rendering of timestamps that reads back what it writes, used to run
    the persistence functions on examples: the count of microseconds in
    decimal after the letter T. *)
Module DecimalClock.

Definition isoformat (d : datetime) : string :=
  String "T"%char (DecimalString.NilEmpty.string_of_int (Z.to_int d)).

Definition fromisoformat (s : string) : option datetime :=
  match s with
  | String c s' =>
      if Ascii.eqb c "T"%char then
        match DecimalString.NilEmpty.int_of_string s' with
        | Some i => Some (Z.of_int i)
        | None => None
        end
      else None
  | EmptyString => None
  end.

End DecimalClock.

(** ** Vocabulary of the statements *)

(** [x] occurs in [l] strictly before an occurrence of [y]. *)
Definition before {A : Type} (x y : A) (l : list A) : Prop :=
  ∃ l1 l2 l3, l = l1 ++ x :: l2 ++ y :: l3.

(** The collection is a dictionary (every key once) and every task is
    stored under its own id, as [add_task] and [load_from_json] enter
    them. *)
Definition well_keyed (st : TaskManager) : Prop :=
  NoDup (tasks st).*1 ∧ Forall (λ kv, kv.1 = task_id kv.2) (tasks st).

(** [d] is the id of a task of [ts] that is not completed: a dependency
    entry [d] is a blocking in-edge. *)
Definition blocking_in (ts : list Task) (d : Z) : Prop :=
  Exists (λ x, task_id x = d ∧ completed x = false) ts.

#[global] Instance blocking_in_dec ts d : Decision (blocking_in ts d).
Proof. unfold blocking_in. apply _. Defined.

(** The blocking entries of the dependency list of [t], with repetitions. *)
Definition blocking_deps (ts : list Task) (t : Task) : list Z :=
  filter (blocking_in ts) (dependencies t).

(** [t] names no completed task of [ts] among its dependencies. *)
Definition no_completed_dep (ts : list Task) (t : Task) : Prop :=
  ∀ c, c ∈ ts → completed c = true → task_id c ∉ dependencies t.

(** [d] is emitted by the [while] loop, not in the batch after it. *)
Definition emitted_by_loop (ts : list Task) (d : Task) : Prop :=
  ∃ main, Topo.main_loop ts = Some main ∧ d ∈ main.

(** No dependency cycle can be reached from [d]: the blocking dependencies
    of [d] are distinct entries, [d] names no completed task, and the same
    holds, in turn, of every task [d] is blocked by. *)
Inductive resolvable (ts : list Task) : Task → Prop :=
  | resolvable_intro (d : Task) :
      d ∈ ts → completed d = false →
      NoDup (blocking_deps ts d) → no_completed_dep ts d →
      (∀ x, x ∈ ts → completed x = false →
            task_id x ∈ dependencies d → resolvable ts x) →
      resolvable ts d.

(** [x] names [y] as a dependency, both in [ts]; [cycle_back ts d t]: from
    [d] the dependencies lead to [t]. *)
Definition depends_on (ts : list Task) (x y : Task) : Prop :=
  x ∈ ts ∧ y ∈ ts ∧ task_id y ∈ dependencies x.

Definition cycle_back (ts : list Task) (d t : Task) : Prop :=
  tc (depends_on ts) d t.

(** [t] is ready when the loop starts: its in-degree is zero and its
    tuple is on the queue. *)
Definition initially_ready (ts : list Task) (t : Task) : Prop :=
  Topo.in_degree (Topo.initial_state ts) !!! task_id t = 0 ∧
  Topo.entry_of t ∈ Topo.available_tasks (Topo.initial_state ts).

(** The order of two tuples of the queue, on their tasks: higher score
    first, lower id first among equal scores. *)
Definition outranks (a b : Task) : Prop :=
  priority_score b < priority_score a ∨
  (priority_score a = priority_score b ∧ task_id a < task_id b).

(** ** Invariants of the [while] loop *)

Module LoopInv.

Import Heap Topo.

(** The keys of [in_degree] are the ids of the tasks. *)
Definition keys_ok (ts : list Task) (m : gmap Z Z) : Prop :=
  ∀ k, is_Some (m !! k) ↔ k ∈ task_id <$> ts.

Definition entry_le (e1 e2 : entry) : Prop :=
  e1.1.1 < e2.1.1 ∨ (e1.1.1 = e2.1.1 ∧ e1.1.2 ≤ e2.1.2).

(** The tasks already emitted that [t] names as dependencies. *)
Definition popped_deps (t : Task) (sorted : list Task) : list Task :=
  filter (λ p, task_id p ∈ dependencies t) sorted.

(** What holds of the queue [h] and the map [m] all along, [out] being the
    tasks emitted so far. *)
Record queue_inv (ts : list Task) (m : gmap Z Z) (h : list entry)
    (out : list Task) : Prop := mkQueueInv {
  inv_nodup : NoDup (task_id <$> (tasks_of h ++ out));
  inv_ready : ∀ t, t ∈ tasks_of h ++ out → t ∈ ts ∧ m !!! task_id t ≤ 0;
  inv_entries : Forall (λ e, e = entry_of (entry_task e)) h;
  inv_sorted : StronglySorted entry_le h;
  inv_pushed : ∀ t, t ∈ ts → m !!! task_id t ≤ 0 → t ∈ tasks_of h ++ out
}.

Record loop_inv (ts : list Task) (s : loop_state) : Prop := mkLoopInv {
  inv_queue :
    queue_inv ts (in_degree s) (available_tasks s) (sorted_tasks s);
  inv_count : ∀ t, t ∈ ts →
    in_degree s !!! task_id t =
      Z.of_nat (length (blocking_deps ts t)) -
      (if completed t then 0
       else Z.of_nat (length (popped_deps t (sorted_tasks s))));
  inv_order : ∀ t x pre post,
    sorted_tasks s = pre ++ t :: post → no_completed_dep ts t →
    x ∈ ts → completed x = false → task_id x ∈ dependencies t → x ∈ pre
}.

(** [n] iterations of the loop. *)
Fixpoint run (n : nat) (ts : list Task) (s : loop_state)
    : option loop_state :=
  match n with
  | O => Some s
  | S n' => s' ← step ts s; run n' ts s'
  end.

End LoopInv.

(** The ids of the collection increase along its insertion order. *)
Definition ids_ascending (st : TaskManager) : Prop :=
  StronglySorted Z.lt (tasks st).*1.

(** What holds of a collection that [add_task], [edit_task],
    [delete_task] and [complete_task] have built from the empty one: it is
    well keyed, its ids ascend, and [next_id] is above all of them. *)
Definition built_by_add (st : TaskManager) : Prop :=
  well_keyed st ∧ ids_ascending st ∧
  Forall (λ k, k < next_id st) (tasks st).*1.

(** ** Concrete collections used in the examples *)

Module Examples.

(** Two tasks entered through [add_task]; the second names the first twice
    in its dependencies. *)
Definition twice_dependent : TaskManager :=
  (add_task 0 "report" "" None 5 (Some [1; 1])
     (add_task 0 "draft" "" None 5 None TaskManager_init).1).1.

(** Tasks A (urgency 5) and B (urgency 9), entered at [now0] and [now1],
    without deadlines or dependencies. *)
Definition two_independent (now0 now1 : datetime) : TaskManager :=
  (add_task now1 "B" "" None 9 None
     (add_task now0 "A" "" None 5 None TaskManager_init).1).1.

(** The same two tasks, each naming the other as a dependency. *)
Definition two_cyclic (now0 now1 : datetime) : TaskManager :=
  (add_task now1 "B" "" None 9 (Some [1])
     (add_task now0 "A" "" None 5 (Some [2]) TaskManager_init).1).1.

(** Tasks 1 and 2 depend on each other; task 3 depends on task 1, and
    task 4, the most urgent, on task 3. *)
Definition behind_cycle : TaskManager :=
  (add_task 0 "fourth" "" None 9 (Some [3])
     (add_task 0 "third" "" None 5 (Some [1])
        (add_task 0 "second" "" None 5 (Some [1])
           (add_task 0 "first" "" None 5 (Some [2])
              TaskManager_init).1).1).1).1.

(** A file that lists task 2 before task 1, of equal urgency and each
    depending on the other, and the collection loaded from it. *)
Definition file_descending : json :=
  JObj [ ("tasks",
          JList [ JObj [("task_id", JNum 2); ("title", JStr "second");
                        ("dependencies", JList [JNum 1])];
                  JObj [("task_id", JNum 1); ("title", JStr "first");
                        ("dependencies", JList [JNum 2])] ]);
         ("next_id", JNum 3) ]%string.

Definition loaded_descending : TaskManager :=
  (load_from_json DecimalClock.isoformat DecimalClock.fromisoformat 0
     (Some file_descending) TaskManager_init).1.

(** Task 1 is completed; task 3 depends on it and on task 2, which is
    not. *)
Definition completed_dependency : TaskManager :=
  (complete_task 0 1
     (add_task 0 "third" "" None 10 (Some [1; 2])
        (add_task 0 "second" "" None 1 None
           (add_task 0 "first" "" None 10 None TaskManager_init).1).1).1).1.

(** Task 1, and the more urgent task 2 that depends on it. *)
Definition chain : TaskManager :=
  (add_task 0 "second" "" None 9 (Some [1])
     (add_task 0 "first" "" None 5 None TaskManager_init).1).1.

(** Task C, whose only dependency is an id that no task has. *)
Definition dangling : TaskManager :=
  (add_task 0 "C" "" None 5 (Some [999]) TaskManager_init).1.

(** One task due in two days, entered at time 0. *)
Definition due_in_two_days : TaskManager :=
  (add_task 0 "draft" "" (Some (2 * day_us)) 5 None TaskManager_init).1.

(** One stored task, and a file whose second record has no title. *)
Definition one_task : TaskManager :=
  (add_task 0 "draft" "" None 5 None TaskManager_init).1.

Definition file_missing_title : json :=
  JObj [ ("tasks",
          JList [ JObj [("task_id", JNum 7); ("title", JStr "kept")];
                  JObj [("task_id", JNum 8)] ]);
         ("next_id", JNum 9) ]%string.

End Examples.

(** ** Queries and the task list of the window *)

(** A calendar date: the timestamps are counted from a midnight, so
    [datetime.date()] is the number of whole days. *)
Definition date_of (d : datetime) : Z := d `div` day_us.

(** The conditions of the three list comprehensions. *)
Definition is_overdue (now : datetime) (t : Task) : bool :=
  match deadline t with
  | Some dl => bool_decide (dl < now)
  | None => false
  end && negb (completed t).

Definition is_due_today (now : datetime) (t : Task) : bool :=
  match deadline t with
  | Some dl => bool_decide (date_of dl = date_of now)
  | None => false
  end && negb (completed t).

Definition is_high_priority (t : Task) : bool :=
  bool_decide (8 ≤ urgency t) && negb (completed t).

Definition get_overdue_tasks (now : datetime) (st : TaskManager)
    : list Task :=
  filter (λ t, is_overdue now t) (dict_values (tasks st)).

Definition get_tasks_due_today (now : datetime) (st : TaskManager)
    : list Task :=
  filter (λ t, is_due_today now t) (dict_values (tasks st)).

Definition get_high_priority_tasks (st : TaskManager) : list Task :=
  filter (λ t, is_high_priority t) (dict_values (tasks st)).

(** The four numbers [update_statistics] puts in the status line. *)
Record statistics := mkStatistics {
  total_tasks : nat;
  completed_tasks : nat;
  overdue_tasks : nat;
  high_priority : nat
}.

Definition update_statistics (now : datetime) (st : TaskManager)
    : statistics :=
  mkStatistics
    (length (filter (λ t, completed t = false) (dict_values (tasks st))))
    (length (filter (λ t, completed t = true) (dict_values (tasks st))))
    (length (get_overdue_tasks now st))
    (length (get_high_priority_tasks st)).

(** The colour tags of [refresh_task_list]. *)
Inductive row_tag_name := tag_overdue | tag_due_soon | tag_high_urgency.

(** The [if]/[elif] chain that tags a row; a completed task gets no tag. *)
Definition row_tag (now : datetime) (t : Task) : option row_tag_name :=
  if completed t then None
  else if match deadline t with
          | Some dl => bool_decide (dl < now)
          | None => false
          end then Some tag_overdue
  else if match deadline t with
          | Some dl => timedelta_days dl now <=? 1
          | None => false
          end then Some tag_due_soon
  else if 8 <=? urgency t then Some tag_high_urgency
  else None.

(** ** The input form *)

Section form.
  (** Library functions the form relies on: [str.strip], [str.split(',')],
      [int] ([None] when it raises [ValueError]) and
      [datetime.strptime] with a format ([None] likewise). *)
Variable py_strip : string → string.
Variable py_split_comma : string → list string.
Variable py_int : string → option Z.
Variable strptime : string → string → option datetime.

(** [int(x.strip())] for every piece in turn: the first failure raises. *)
Fixpoint parse_ints (pieces : list string) : option (list Z) :=
  match pieces with
  | [] => Some []
  | x :: pieces' =>
      match py_int (py_strip x) with
      | Some z =>
          match parse_ints pieces' with
          | Some zs => Some (z :: zs)
          | None => None
          end
      | None => None
      end
  end.

(** [parse_dependencies]: [None] stands for the [ValueError] raised. *)
Definition parse_dependencies (deps_str : string) (st : TaskManager)
    : option (list Z) :=
  if bool_decide (py_strip deps_str = ""%string) then Some []
  else
    match parse_ints (filter (λ x, py_strip x ≠ ""%string)
                        (py_split_comma deps_str)) with
    | Some deps => Some (filter (λ dep, dict_contains dep (tasks st)) deps)
    | None => None
    end.

Definition deadline_formats : list string :=
  ["%Y-%m-%d %H:%M"; "%Y-%m-%d"; "%m/%d/%Y %H:%M"; "%m/%d/%Y"]%string.

(** The [for] loop over the formats: the first one that parses. *)
Fixpoint first_format (s : string) (formats : list string)
    : option datetime :=
  match formats with
  | [] => None
  | fmt :: formats' =>
      match strptime s fmt with
      | Some d => Some d
      | None => first_format s formats'
      end
  end.

(** [parse_deadline]: [None] stands for the [ValueError] raised. *)
Definition parse_deadline (deadline_str : string)
    : option (option datetime) :=
  if bool_decide (py_strip deadline_str = ""%string) then Some None
  else
    match first_format (py_strip deadline_str) deadline_formats with
    | Some d => Some (Some d)
    | None => None
    end.

(** [SmartTaskManagerGUI.add_task] on the texts of the five input
    fields: the new collection and the id of the task added, or the
    collection as it was and [None] when an error box is shown. *)
Definition form_add_task (now : datetime)
    (title_entry description_text urgency_var deadline_entry
     dependencies_entry : string) (st : TaskManager)
    : TaskManager * option Z :=
  let ttl := py_strip title_entry in
  if bool_decide (ttl = ""%string) then (st, None)
  else
    let descr := py_strip description_text in
    match py_int urgency_var with
    | None => (st, None)
    | Some urg =>
        let deadline_str := py_strip deadline_entry in
        match (if bool_decide (deadline_str = ""%string) then Some None
               else parse_deadline deadline_str) with
        | None => (st, None)
        | Some dl =>
            match parse_dependencies dependencies_entry st with
            | None => (st, None)
            | Some deps =>
                let r := add_task now ttl descr dl urg (Some deps) st in
                (r.1, Some r.2)
            end
        end
    end.
End form.

(** ** Further vocabulary *)


(** Every dependency entry is smaller than the id of the task that
    names it. *)
Definition deps_below (st : TaskManager) : Prop :=
  Forall (λ kv, Forall (λ d, d < task_id kv.2) (dependencies kv.2))
         (tasks st).

(** No dependency list names an id twice. *)
Definition deps_distinct (st : TaskManager) : Prop :=
  Forall (λ kv, NoDup (dependencies kv.2)) (tasks st).

(** Two tasks that differ at most in the cached score. *)
Definition same_but_score (t t' : Task) : Prop :=
  t' = set_priority_score (priority_score t') t.

(** Two collections with the same keys in the same order, whose tasks
    differ at most in the cached score. *)
Definition differ_in_cache_only (st st' : TaskManager) : Prop :=
  Forall2 (λ a b, a.1 = b.1 ∧ same_but_score a.2 b.2) (tasks st) (tasks st').

(** A concrete reading of the string functions of the form, for the
    examples: blanks are spaces, integers are decimal. *)
Module Text.

Fixpoint lstrip (s : string) : string :=
  match s with
  | String c s' => if Ascii.eqb c " "%char then lstrip s' else s
  | EmptyString => EmptyString
  end.

Fixpoint rstrip (s : string) : string :=
  match s with
  | String c s' =>
      match rstrip s' with
      | EmptyString =>
          if Ascii.eqb c " "%char then EmptyString else String c EmptyString
      | r => String c r
      end
  | EmptyString => EmptyString
  end.

Definition strip (s : string) : string := lstrip (rstrip s).

Fixpoint split_comma (s : string) : list string :=
  match s with
  | String c s' =>
      if Ascii.eqb c ","%char then EmptyString :: split_comma s'
      else match split_comma s' with
           | piece :: pieces => String c piece :: pieces
           | [] => [String c EmptyString]
           end
  | EmptyString => [EmptyString]
  end.

Definition int (s : string) : option Z :=
  match DecimalString.NilZero.int_of_string s with
  | Some i => Some (Z.of_int i)
  | None => None
  end.

(** Timestamps are read in the rendering of [DecimalClock], whatever the
    format asked for. *)
Definition strptime (s fmt : string) : option datetime :=
  DecimalClock.fromisoformat s.

End Text.

Module Samples.

(** A file whose [next_id] is not above the ids it lists, and the
    collection loaded from it. *)
Definition file_stale_next_id : json :=
  JObj [ ("tasks",
          JList [ JObj [("task_id", JNum 1); ("title", JStr "first")];
                  JObj [("task_id", JNum 2); ("title", JStr "second")] ]);
         ("next_id", JNum 2) ]%string.

Definition loaded_stale : TaskManager :=
  (load_from_json DecimalClock.isoformat DecimalClock.fromisoformat 0
     (Some file_stale_next_id) TaskManager_init).1.

(** Task 1, completed, and task 2 that depends on it. *)
Definition done_first : TaskManager :=
  (complete_task 0 1
     (add_task 0 "second" "" None 5 (Some [1])
        (add_task 0 "first" "" None 5 None TaskManager_init).1).1).1.

(** Task 1, overdue at time [day_us]; task 2, urgent, without deadline. *)
Definition late_and_urgent : TaskManager :=
  (add_task 0 "urgent" "" None 9 None
     (add_task 0 "late" "" (Some 5) 3 None TaskManager_init).1).1.

End Samples.

(** * Properties *)

(** ** The priority score *)

Lemma deadline_score_spec (now : datetime) (t : Task) :
  SpecFormula.deadline_term_ok now t (Score.deadline_score now t).
Proof.
  unfold SpecFormula.deadline_term_ok, Score.deadline_score, timedelta_days.
  destruct (deadline t) as [dl|]; [|reflexivity].
  set (days := (dl - now) `div` day_us). cbv zeta.
  destruct (Z.ltb_spec days 0); [by constructor|].
  destruct (Z.eqb_spec days 0); [by constructor|].
  destruct (Z.leb_spec days 3).
  { replace (80 - days * 20) with (80 - 20 * days) by lia.
    apply SpecFormula.term_three. lia. }
  destruct (Z.leb_spec days 7).
  { replace (40 - days * 5) with (40 - 5 * days) by lia.
    apply SpecFormula.term_week. lia. }
  apply SpecFormula.term_later. lia.
Qed.

Lemma deadline_term_functional (days a b : Z) :
  SpecFormula.deadline_term_is days a →
  SpecFormula.deadline_term_is days b → a = b.
Proof. intros Ha Hb. destruct Ha, Hb; lia. Qed.

(** C5. For every task and every time [now], [calculate_priority_score]
    returns [urgency * 10 + deadline_term + age_term] and writes that value
    into [priority_score] (leaving the other attributes alone), where the
    deadline term is the one the case table of the specification gives for
    [days = floor ((deadline - now) / day)] (0 without a deadline; the
    table determines one value for every [days]) and the age term is
    [min 20 (2 * floor ((now - created_at) / day))]. *)
Theorem calculate_priority_score_formula (now : datetime) (t : Task) :
  ∃ deadline_term,
    SpecFormula.deadline_term_ok now t deadline_term ∧
    (∀ term', SpecFormula.deadline_term_ok now t term' →
              term' = deadline_term) ∧
    (calculate_priority_score now t).2 =
      urgency t * 10 + deadline_term + SpecFormula.age_term now t ∧
    priority_score (calculate_priority_score now t).1 =
      (calculate_priority_score now t).2 ∧
    (calculate_priority_score now t).1 =
      set_priority_score (calculate_priority_score now t).2 t.
Proof.
  exists (Score.deadline_score now t).
  split; [apply deadline_score_spec|]. split.
  - intros term' H. pose proof (deadline_score_spec now t) as H0.
    unfold SpecFormula.deadline_term_ok in *.
    destruct (deadline t); [eapply deadline_term_functional; eauto|congruence].
  - simpl. repeat split.
    unfold Score.score, Score.base_score, Score.age_score, SpecFormula.age_term,
      timedelta_days.
    f_equal. f_equal. lia.
Qed.

(** ** Dictionaries *)

Section dict_facts.
Context {V : Type}.
Implicit Types (d : list (Z * V)) (k : Z).

Lemma dict_get_fmap (f : V → V) k d :
  dict_get k (prod_map id f <$> d) = f <$> dict_get k d.
Proof.
  induction d as [|[k' v] d IH]; [done|]. simpl.
  destruct (decide (k = k')); [done|apply IH].
Qed.

Lemma dict_get_set k k' v d :
  dict_get k (dict_set k' v d) =
    if decide (k = k') then Some v else dict_get k d.
Proof.
  induction d as [|[k0 v0] d IH]; simpl.
  - by destruct (decide (k = k')).
  - destruct (decide (k' = k0)) as [->|]; simpl.
    + destruct (decide (k = k0)); done.
    + destruct (decide (k = k0)) as [->|]; [|apply IH].
      destruct (decide (k0 = k')); congruence.
Qed.

Lemma dict_contains_get k d :
  dict_contains k d = true ↔ is_Some (dict_get k d).
Proof.
  unfold dict_contains. rewrite bool_decide_eq_true.
  induction d as [|[k' v] d IH]; simpl.
  - rewrite elem_of_nil. split; [done|]. by intros [? ?].
  - rewrite elem_of_cons. destruct (decide (k = k')) as [->|Hne].
    + split; [by eauto|by left].
    + rewrite <- IH. split; [by intros [?|?]|by right].
Qed.

Lemma dict_get_del_ne k k' d :
  k ≠ k' → dict_get k (dict_del k' d) = dict_get k d.
Proof.
  intros Hne. induction d as [|[k0 v0] d IH]; [done|]. simpl.
  destruct (decide (k' = k0)) as [->|]; simpl.
  - by destruct (decide (k = k0)).
  - destruct (decide (k = k0)); [done|apply IH].
Qed.

Lemma dict_get_elem_of k v d : dict_get k d = Some v → (k, v) ∈ d.
Proof.
  induction d as [|[k0 v0] d IH]; [done|]. simpl.
  destruct (decide (k = k0)) as [->|].
  - intros [= ->]. left.
  - intros H. right. by apply IH.
Qed.
End dict_facts.

(** ** The collection stays a dictionary keyed by id *)

Lemma sublist_Forall {A : Type} (P : A → Prop) (l1 l2 : list A) :
  l1 `sublist_of` l2 → Forall P l2 → Forall P l1.
Proof.
  intros Hsub Hall. rewrite Forall_forall in Hall. apply Forall_forall.
  intros x Hx. apply Hall. by eapply elem_of_sublist.
Qed.


Lemma dict_set_keys {V : Type} (k : Z) (v : V) (d : list (Z * V)) :
  (dict_set k v d).*1 = if decide (k ∈ d.*1) then d.*1 else d.*1 ++ [k].
Proof.
  induction d as [|[k' v'] d IH]; [done|]. cbn [dict_set].
  destruct (decide (k = k')) as [->|Hne].
  - rewrite decide_True; [done|]. left.
  - rewrite !fmap_cons, IH. cbn [fst].
    destruct (decide (k ∈ d.*1)) as [Hin|Hout].
    + rewrite decide_True; [done|]. by right.
    + rewrite decide_False; [done|]. by intros [?|?]%elem_of_cons.
Qed.

Lemma dict_set_Forall {V : Type} (P : Z * V → Prop) (k : Z) (v : V)
    (d : list (Z * V)) :
  P (k, v) → Forall P d → Forall P (dict_set k v d).
Proof.
  intros Hkv. induction 1 as [|[k' v'] d Hx Hd IH]; cbn [dict_set].
  - by repeat constructor.
  - destruct (decide (k = k')); by constructor.
Qed.

Lemma dict_del_sublist {V : Type} (k : Z) (d : list (Z * V)) :
  dict_del k d `sublist_of` d.
Proof.
  induction d as [|[k' v'] d IH]; [done|]. cbn [dict_del].
  destruct (decide (k = k')); [by apply sublist_cons|by apply sublist_skip].
Qed.

Lemma dict_get_key_id (d : list (Z * Task)) (k : Z) (t : Task) :
  Forall (λ kv, kv.1 = task_id kv.2) d → dict_get k d = Some t →
  task_id t = k ∧ k ∈ d.*1.
Proof.
  intros Hk Hget. apply dict_get_elem_of in Hget.
  rewrite Forall_forall in Hk. specialize (Hk _ Hget). simpl in Hk.
  split; [done|]. by apply (list_elem_of_fmap_2 fst _ (k, t)).
Qed.

Lemma keys_fmap_values (f : Task → Task) (d : list (Z * Task)) :
  (prod_map id f <$> d).*1 = d.*1.
Proof.
  rewrite <- list_fmap_compose. by apply list_fmap_ext.
Qed.

Lemma keyed_fmap_values (f : Task → Task) (d : list (Z * Task)) :
  (∀ t, task_id (f t) = task_id t) →
  Forall (λ kv, kv.1 = task_id kv.2) d →
  Forall (λ kv, kv.1 = task_id kv.2) (prod_map id f <$> d).
Proof.
  intros Hf Hd. apply Forall_fmap. eapply Forall_impl; [exact Hd|].
  intros [k t] Hkt. simpl in *. by rewrite Hf.
Qed.

Lemma built_by_add_fmap_values (f : Task → Task) (d : list (Z * Task))
    (n : Z) :
  (∀ t, task_id (f t) = task_id t) →
  built_by_add (mkTaskManager d n) →
  built_by_add (mkTaskManager (prod_map id f <$> d) n).
Proof.
  intros Hf ([Hnd Hk] & Hasc & Hlt).
  unfold built_by_add, well_keyed, ids_ascending in *. cbn [tasks next_id] in *.
  rewrite keys_fmap_values. split; [|done].
  split; [done|]. by apply keyed_fmap_values.
Qed.


Lemma built_by_add_init : built_by_add TaskManager_init.
Proof. repeat split; constructor. Qed.

Lemma built_by_add_update (now : datetime) (st : TaskManager) :
  built_by_add st → built_by_add (_update_priorities now st).
Proof. destruct st. by apply built_by_add_fmap_values. Qed.

Lemma built_by_add_add_task (now : datetime) (ttl descr : string)
    (dl : option datetime) (urg : Z) (deps : option (list Z))
    (st : TaskManager) :
  built_by_add st → built_by_add (add_task now ttl descr dl urg deps st).1.
Proof.
  intros ([Hnd Hk] & Hasc & Hlt). unfold add_task. cbn [fst].
  apply built_by_add_update.
  unfold built_by_add, well_keyed, ids_ascending in *. cbn [tasks next_id].
  assert (next_id st ∉ (tasks st).*1) as Hfresh.
  { intros Hin. rewrite Forall_forall in Hlt. specialize (Hlt _ Hin). lia. }
  rewrite dict_set_keys, decide_False by done.
  split; [split|split].
  - apply NoDup_app. split; [done|]. split; [|apply NoDup_singleton].
    intros k Hin ->%list_elem_of_singleton. done.
  - by apply dict_set_Forall.
  - apply StronglySorted_app_2; [|done|by repeat constructor].
    intros k1 k2 Hk1 ->%list_elem_of_singleton.
    rewrite Forall_forall in Hlt. by apply Hlt.
  - apply Forall_app. split; [|by repeat constructor; lia].
    eapply Forall_impl; [exact Hlt|]. simpl. intros; lia.
Qed.




Lemma dict_set_NoDup {V : Type} (k : Z) (v : V) (d : list (Z * V)) :
  NoDup d.*1 → NoDup (dict_set k v d).*1.
Proof.
  intros Hnd. rewrite dict_set_keys. destruct (decide (k ∈ d.*1)); [done|].
  apply NoDup_app. split; [done|]. split; [|apply NoDup_singleton].
  by intros k' Hin ->%list_elem_of_singleton.
Qed.

Lemma well_keyed_set (d : list (Z * Task)) (n n' : Z) (t : Task) :
  well_keyed (mkTaskManager d n) →
  well_keyed (mkTaskManager (dict_set (task_id t) t d) n').
Proof.
  intros [Hnd Hk]. split; cbn [tasks] in *.
  - by apply dict_set_NoDup.
  - by apply dict_set_Forall.
Qed.

Lemma well_keyed_fmap_values (f : Task → Task) (d : list (Z * Task))
    (n n' : Z) :
  (∀ t, task_id (f t) = task_id t) →
  well_keyed (mkTaskManager d n) →
  well_keyed (mkTaskManager (prod_map id f <$> d) n').
Proof.
  intros Hf [Hnd Hk]. split; cbn [tasks] in *.
  - by rewrite keys_fmap_values.
  - by apply keyed_fmap_values.
Qed.

Lemma well_keyed_update (now : datetime) (st : TaskManager) :
  well_keyed st → well_keyed (_update_priorities now st).
Proof.
  destruct st as [d n]. by apply (well_keyed_fmap_values (rescore now) d n n).
Qed.

Lemma well_keyed_add_task (now : datetime) (ttl descr : string)
    (dl : option datetime) (urg : Z) (deps : option (list Z))
    (st : TaskManager) :
  well_keyed st → well_keyed (add_task now ttl descr dl urg deps st).1.
Proof.
  intros Hst. unfold add_task. cbn [fst]. apply well_keyed_update.
  destruct st as [d n].
  apply (well_keyed_set d n (n + 1) (Task_init now n ttl descr dl urg deps)).
  done.
Qed.

Lemma well_keyed_edit_task (now : datetime) (tid : Z)
    (ttl descr : option string) (dl : option datetime) (urg : option Z)
    (deps : option (list Z)) (st : TaskManager) :
  well_keyed st → well_keyed (edit_task now tid ttl descr dl urg deps st).1.
Proof.
  intros Hst. unfold edit_task.
  destruct (dict_get tid (tasks st)) as [task|] eqn:Hget; [|done].
  cbn [fst]. apply well_keyed_update.
  destruct (dict_get_key_id _ _ _ (proj2 Hst) Hget) as [<- _].
  destruct st as [d n].
  by apply (well_keyed_set d n n (apply_edit ttl descr dl urg deps task)).
Qed.

Lemma well_keyed_complete_task (now : datetime) (tid : Z)
    (st : TaskManager) :
  well_keyed st → well_keyed (complete_task now tid st).1.
Proof.
  intros Hst. unfold complete_task.
  destruct (dict_get tid (tasks st)) as [task|] eqn:Hget; [|done].
  cbn [fst]. apply well_keyed_update.
  destruct (dict_get_key_id _ _ _ (proj2 Hst) Hget) as [<- _].
  destruct st as [d n]. by apply (well_keyed_set d n n (set_completed task)).
Qed.

Lemma well_keyed_delete_task (now : datetime) (tid : Z) (st : TaskManager) :
  well_keyed st → well_keyed (delete_task now tid st).1.
Proof.
  intros Hst. unfold delete_task.
  destruct (dict_contains tid (tasks st)); [|done].
  cbn [fst]. apply well_keyed_update.
  assert (well_keyed (mkTaskManager
            (prod_map id (strip_dependency tid) <$> tasks st) (next_id st)))
    as [Hnd Hk].
  { destruct st as [d n]. cbn [tasks next_id].
    apply (well_keyed_fmap_values (strip_dependency tid) d n n); [|done].
    intros t. unfold strip_dependency. by case_bool_decide. }
  cbn [tasks] in *.
  pose proof (dict_del_sublist tid
                (prod_map id (strip_dependency tid) <$> tasks st)) as Hsub.
  split; cbn [tasks].
  - eapply sublist_NoDup; [exact Hnd|]. by apply fmap_sublist.
  - by eapply sublist_Forall.
Qed.

Lemma well_keyed_get_sorted_tasks (now : datetime) (include_completed : bool)
    (st : TaskManager) :
  well_keyed st → well_keyed (get_sorted_tasks now include_completed st).1.
Proof.
  intros Hst. unfold get_sorted_tasks. cbn [fst]. destruct st as [d n].
  cbn [tasks next_id].
  apply (well_keyed_fmap_values
           (λ t, if include_completed || negb (completed t)
                 then rescore now t else t) d n n); [|done].
  intros t. by destruct (include_completed || negb (completed t)).
Qed.

Lemma load_records_well_keyed
    (isoformat : datetime → string) (fromisoformat : string → option datetime)
    (now : datetime) (records : list json) (acc : list (Z * Task)) (n : Z) :
  well_keyed (mkTaskManager acc n) →
  well_keyed
    (mkTaskManager (load_records isoformat fromisoformat now records acc).1 n).
Proof.
  revert acc. induction records as [|r records IH]; intros acc Hacc; [done|].
  cbn [load_records]. destruct (from_dict _ _ _ r) as [task|e]; [|done].
  apply IH. by apply (well_keyed_set acc n n task).
Qed.

(** Whatever the file, and whether the load succeeds or not, the collection
    is a dictionary keyed by id afterwards. *)
Lemma well_keyed_load_from_json
    (isoformat : datetime → string) (fromisoformat : string → option datetime)
    (now : datetime) (file : option json) (st : TaskManager) :
  well_keyed st →
  well_keyed (load_from_json isoformat fromisoformat now file st).1.
Proof.
  intros Hst. unfold load_from_json.
  assert (well_keyed (mkTaskManager [] (next_id st))) as Hnil
    by (split; constructor).
  destruct file as [data|]; [|done].
  destruct data as [| | | | |items]; try done.
  destruct (iter_tasks _) as [records|]; [|done].
  pose proof (load_records_well_keyed isoformat fromisoformat now records []
                (next_id st) Hnil) as Hrec.
  destruct (load_records _ _ _ _ _) as [loaded [e|]]; [done|].
  destruct (as_int _ _) as [n|]; [|done].
  cbn [fst]. apply well_keyed_update. by destruct Hrec.
Qed.

(** ** Editing *)

(** C10. [edit_task] treats [None] as "argument omitted" for each optional
    parameter. For every collection and every task [t] stored under a key
    [k], after any call of [edit_task] the key still holds a task [t'] with
    the same id, completion flag and creation time; a deadline that was set
    is still set, whatever the arguments; a task other than the edited one
    keeps its five editable attributes; the edited one takes exactly the
    arguments that are not [None] and keeps the rest (titles, descriptions
    and urgencies are never [None]: the attribute types exclude it). The
    only other change is the score cache, recomputed when the call
    succeeds; a call that returns [False] changes nothing. *)
Theorem edit_task_none_is_omitted (now : datetime) (tid : Z)
    (ttl descr : option string) (dl : option datetime) (urg : option Z)
    (deps : option (list Z)) (st : TaskManager) (k : Z) (t : Task) :
  dict_get k (tasks st) = Some t →
  let r := edit_task now tid ttl descr dl urg deps st in
  ∃ t', dict_get k (tasks r.1) = Some t' ∧
    (is_Some (deadline t) → is_Some (deadline t')) ∧
    task_id t' = task_id t ∧ completed t' = completed t ∧
    created_at t' = created_at t ∧
    (k ≠ tid →
       title t' = title t ∧ description t' = description t ∧
       deadline t' = deadline t ∧ urgency t' = urgency t ∧
       dependencies t' = dependencies t) ∧
    (k = tid →
       r.2 = true ∧
       title t' = default (title t) ttl ∧
       description t' = default (description t) descr ∧
       deadline t' = match dl with Some x => Some x | None => deadline t end ∧
       urgency t' = default (urgency t) urg ∧
       dependencies t' = default (dependencies t) deps) ∧
    (r.2 = true → priority_score t' = Score.score now t') ∧
    (r.2 = false → r.1 = st).
Proof.
  intros Hk r. subst r. unfold edit_task.
  destruct (dict_get tid (tasks st)) as [task|] eqn:Htid; simpl.
  - rewrite dict_get_fmap, dict_get_set.
    destruct (decide (k = tid)) as [->|Hne]; simpl.
    + assert (task = t) as -> by congruence.
      eexists. split; [reflexivity|].
      split; [by destruct dl; simpl; eauto|].
      do 4 (split; [done|]).
      split; [by destruct ttl, descr, dl, urg, deps|done].
    + rewrite Hk. simpl. eexists. split; [reflexivity|].
      repeat split; done.
  - exists t. split; [done|]. do 5 (split; [done|]).
    split; [intros ->; congruence|done].
Qed.

(** The theorem at a task with a deadline, edited with every argument
    omitted. *)
Lemma edit_task_none_is_omitted_witness :
  dict_get 1 (tasks (add_task 0 "draft" "" (Some 5) 5 None
                       TaskManager_init).1)
    = Some (mkTask 1 "draft" "" (Some 5) 5 [] false 0 150) ∧
  ∃ t', dict_get 1
          (tasks (edit_task 9 1 None None None None None
                    (add_task 0 "draft" "" (Some 5) 5 None
                       TaskManager_init).1).1) = Some t' ∧
        deadline t' = Some 5.
Proof.
  assert (dict_get 1 (tasks (add_task 0 "draft" "" (Some 5) 5 None
                               TaskManager_init).1)
            = Some (mkTask 1 "draft" "" (Some 5) 5 [] false 0 150)) as H
    by (vm_compute; reflexivity).
  split; [exact H|].
  destruct (edit_task_none_is_omitted 9 1 None None None None None _ _ _ H)
    as (t' & Hget & _ & _ & _ & _ & _ & Hed & _).
  exists t'. split; [exact Hget|].
  destruct (Hed eq_refl) as (_ & _ & _ & Hdl & _). exact Hdl.
Defined.

(** ** Deleting *)

Lemma list_remove_first_NoDup (x : Z) (l : list Z) :
  NoDup l → x ∉ list_remove_first x l.
Proof.
  induction 1 as [|y l Hy Hl IH]; simpl; [apply not_elem_of_nil|].
  destruct (decide (x = y)) as [->|Hne]; [done|].
  rewrite elem_of_cons. intros [?|?]; done.
Qed.

Lemma list_remove_first_other (x y : Z) (l : list Z) :
  x ≠ y → (y ∈ list_remove_first x l ↔ y ∈ l).
Proof.
  intros Hne. induction l as [|z l IH]; simpl; [done|].
  destruct (decide (x = z)) as [->|].
  - rewrite elem_of_cons. split; [by right|by intros [?|?]].
  - rewrite !elem_of_cons, IH. done.
Qed.


(** A stored id: [True], and a remaining task whose dependency list named
    the id at most once does not name it any more. *)
Lemma delete_task_strips_single (now : datetime) (tid : Z) (st : TaskManager)
    (k : Z) (t : Task) :
  is_Some (dict_get tid (tasks st)) → k ≠ tid →
  dict_get k (tasks st) = Some t → NoDup (dependencies t) →
  (delete_task now tid st).2 = true ∧
  ∃ t', dict_get k (tasks (delete_task now tid st).1) = Some t' ∧
        (tid ∉ dependencies t') ∧
        (∀ d, d ≠ tid → d ∈ dependencies t' ↔ d ∈ dependencies t).
Proof.
  intros Htid Hne Hk Hnd. unfold delete_task.
  apply dict_contains_get in Htid. rewrite Htid. simpl. split; [done|].
  rewrite dict_get_fmap, dict_get_del_ne, dict_get_fmap, Hk by done. simpl.
  eexists. split; [reflexivity|]. unfold strip_dependency.
  case_bool_decide as Hin; simpl.
  - split; [by apply list_remove_first_NoDup|].
    intros d Hd. by apply list_remove_first_other.
  - done.
Qed.

(** C7 (the code departs from it). [twice_dependent] holds task 1 and
    task 2, whose dependencies are [1; 1]. [delete_task 1] returns [True]
    and removes task 1, but [list.remove] takes out one occurrence only:
    task 2 still lists id 1 afterwards. *)
Theorem delete_task_keeps_duplicate_dependency :
  dependencies <$> dict_get 2 (tasks Examples.twice_dependent)
    = Some [1; 1] ∧
  (delete_task 0 1 Examples.twice_dependent).2 = true ∧
  dict_get 1 (tasks (delete_task 0 1 Examples.twice_dependent).1) = None ∧
  dependencies <$>
    dict_get 2 (tasks (delete_task 0 1 Examples.twice_dependent).1)
    = Some [1].
Proof. repeat split. Qed.

(** ** Saving and loading *)

Lemma DecimalClock_reads_back (d : datetime) :
  DecimalClock.fromisoformat (DecimalClock.isoformat d) = Some d.
Proof.
  unfold DecimalClock.fromisoformat, DecimalClock.isoformat.
  rewrite Ascii.eqb_refl, DecimalString.NilEmpty.isi.
  by rewrite DecimalZ.of_to.
Qed.

Lemma DecimalClock_nonempty (d : datetime) :
  DecimalClock.isoformat d ≠ ""%string.
Proof. done. Qed.

Lemma dict_set_fresh {V : Type} (k : Z) (v : V) (d : list (Z * V)) :
  k ∉ d.*1 → dict_set k v d = d ++ [(k, v)].
Proof.
  induction d as [|[k' v'] d IH]; simpl; [done|].
  rewrite not_elem_of_cons. intros [Hne Hd].
  destruct (decide (k = k')); [done|]. by rewrite IH.
Qed.

Lemma dict_rebuild (d acc : list (Z * Task)) :
  NoDup (acc ++ d).*1 → Forall (λ kv, kv.1 = task_id kv.2) d →
  foldl (λ a t, dict_set (task_id t) t a) acc d.*2 = acc ++ d.
Proof.
  revert acc. induction d as [|[k t] d IH]; intros acc Hnd Hk; simpl.
  - by rewrite app_nil_r.
  - apply Forall_cons in Hk as [Hkt Hk]. simpl in Hkt. subst k.
    rewrite dict_set_fresh.
    + rewrite IH; [by rewrite <- app_assoc| |done].
      by rewrite <- app_assoc.
    + rewrite fmap_app in Hnd. apply NoDup_app in Hnd as (_ & Hd & _).
      intros Hin. apply (Hd _ Hin). simpl. left.
Qed.

Section persistence_facts.
Variable isoformat : datetime → string.
Variable fromisoformat : string → option datetime.
Hypothesis reads_back : ∀ d, fromisoformat (isoformat d) = Some d.
Hypothesis nonempty : ∀ d, isoformat d ≠ ""%string.

Lemma as_ints_JNum (k : string) (l : list Z) : as_ints k (JNum <$> l) = Ok l.
Proof.
  induction l as [|z l IH]; [done|].
  rewrite fmap_cons. cbn [as_ints as_int bind_result]. by rewrite IH.
Qed.

Lemma from_dict_to_dict (now : datetime) (t : Task) :
  from_dict isoformat fromisoformat now (to_dict isoformat t) = Ok t.
Proof.
  destruct t as [id ttl descr dl urg deps done created sc].
  unfold from_dict, to_dict, required, Task_init. cbn.
  rewrite as_ints_JNum, reads_back. cbn.
  destruct dl as [d|]; cbn; [|done].
  rewrite reads_back. rewrite bool_decide_eq_false_2 by apply nonempty.
  done.
Qed.

Lemma load_records_to_dict (now : datetime) (ts : list Task)
    (acc : list (Z * Task)) :
  load_records isoformat fromisoformat now (to_dict isoformat <$> ts) acc =
    (foldl (λ a t, dict_set (task_id t) t a) acc ts, None).
Proof.
  revert acc. induction ts as [|t ts IH]; intros acc; [done|].
  rewrite fmap_cons. cbn [load_records foldl].
  rewrite from_dict_to_dict. apply IH.
Qed.

Lemma load_save (now : datetime) (st st0 : TaskManager) :
  well_keyed st →
  load_from_json isoformat fromisoformat now
    (Some (save_to_json isoformat st)) st0 = (_update_priorities now st, true).
Proof.
  intros [Hnd Hk]. unfold load_from_json, save_to_json. cbn.
  unfold dict_values. rewrite load_records_to_dict.
  rewrite (dict_rebuild (tasks st) []) by done. simpl.
  by destruct st.
Qed.
End persistence_facts.

(** C8 (as amended). For every well-keyed collection [S], loading what
    [save_to_json] wrote succeeds and gives back the tasks of [S] under the
    same keys and in the same order, each with the id, title, description,
    deadline, urgency, dependencies, completion flag and creation time it
    had, and [next_id] as it was saved; the score is not read back from
    the file but recomputed for the time of the load, so the collection is
    [S] itself exactly when the cached scores of [S] are the scores at that
    time. *)
Theorem load_save_round_trip
    (isoformat : datetime → string) (fromisoformat : string → option datetime)
    (now : datetime) (st st0 : TaskManager) :
  (∀ d, fromisoformat (isoformat d) = Some d) →
  (∀ d, isoformat d ≠ ""%string) →
  well_keyed st →
  ∃ st', load_from_json isoformat fromisoformat now
           (Some (save_to_json isoformat st)) st0 = (st', true) ∧
    next_id st' = next_id st ∧
    tasks st' =
      prod_map id (λ t, set_priority_score (Score.score now t) t)
        <$> tasks st ∧
    (st' = st ↔
     Forall (λ kv, priority_score kv.2 = Score.score now kv.2) (tasks st)).
Proof.
  intros Hrb Hne Hwf. exists (_update_priorities now st).
  split; [by apply load_save|]. split; [done|]. split; [done|].
  destruct st as [d n]. unfold _update_priorities. simpl. split.
  - intros [= Hd]. clear Hwf. induction d as [|[k t] d IH]; [done|].
    rewrite fmap_cons in Hd. injection Hd as Ht Hd.
    constructor; [|by apply IH].
    simpl. rewrite <- Ht at 1. done.
  - intros Hall. f_equal. clear Hwf. induction Hall as [|[k t] d Ht _ IH];
      [done|].
    rewrite fmap_cons, IH. do 2 f_equal. destruct t; simpl in *.
    unfold rescore, set_priority_score; simpl. by rewrite <- Ht.
Qed.

Lemma well_keyed_due_in_two_days : well_keyed Examples.due_in_two_days.
Proof.
  split; vm_compute.
  - apply NoDup_singleton.
  - by repeat constructor.
Qed.

(** The theorem at [due_in_two_days], read back three days later with the
    decimal clock. *)
Lemma load_save_round_trip_witness :
  ∃ st', load_from_json DecimalClock.isoformat DecimalClock.fromisoformat
           (3 * day_us)
           (Some (save_to_json DecimalClock.isoformat
                    Examples.due_in_two_days)) TaskManager_init
         = (st', true) ∧ next_id st' = 2.
Proof.
  destruct (load_save_round_trip DecimalClock.isoformat
              DecimalClock.fromisoformat (3 * day_us)
              Examples.due_in_two_days TaskManager_init
              DecimalClock_reads_back DecimalClock_nonempty
              well_keyed_due_in_two_days) as (st' & Hload & Hnext & _).
  exists st'. split; [exact Hload|exact Hnext].
Defined.

(** C8 (as stated) fails on the score: [due_in_two_days] was scored 90 at
    time 0 (urgency 5, two days to the deadline); read back three days
    later the task is overdue and is scored 256. *)
Lemma load_save_changes_score :
  priority_score <$> dict_get 1 (tasks Examples.due_in_two_days) = Some 90 ∧
  priority_score <$>
    dict_get 1
      (tasks (load_from_json DecimalClock.isoformat
                DecimalClock.fromisoformat (3 * day_us)
                (Some (save_to_json DecimalClock.isoformat
                         Examples.due_in_two_days)) TaskManager_init).1)
    = Some 256 ∧
  (load_from_json DecimalClock.isoformat DecimalClock.fromisoformat
     (3 * day_us)
     (Some (save_to_json DecimalClock.isoformat Examples.due_in_two_days))
     TaskManager_init).1 ≠ Examples.due_in_two_days.
Proof.
  split; [by vm_compute|]. split; [by vm_compute|].
  intros H. apply (f_equal (λ st, priority_score <$> dict_get 1 (tasks st)))
    in H.
  vm_compute in H. discriminate H.
Qed.

(** A file that cannot be opened or parsed: [False], and nothing
    changes. *)
Lemma load_from_json_unreadable
    (isoformat : datetime → string) (fromisoformat : string → option datetime)
    (now : datetime) (st : TaskManager) :
  load_from_json isoformat fromisoformat now None st = (st, false).
Proof. done. Qed.

(** C9 (the code departs from it). [one_task] holds task 1. Loading
    [file_missing_title], whose second record raises [KeyError], returns
    [False]; by then [self.tasks] has been emptied and the first record
    entered, so the collection holds task 7 instead of task 1, with the old
    [next_id]. *)
Theorem load_from_json_partial_on_failure :
  (tasks Examples.one_task).*1 = [1] ∧
  from_dict DecimalClock.isoformat DecimalClock.fromisoformat 0
    (JObj [("task_id", JNum 8)]%string) = Raise (KeyError "title") ∧
  (load_from_json DecimalClock.isoformat DecimalClock.fromisoformat 0
     (Some Examples.file_missing_title) Examples.one_task).2 = false ∧
  (tasks (load_from_json DecimalClock.isoformat DecimalClock.fromisoformat 0
            (Some Examples.file_missing_title) Examples.one_task).1).*1
    = [7] ∧
  next_id (load_from_json DecimalClock.isoformat DecimalClock.fromisoformat 0
             (Some Examples.file_missing_title) Examples.one_task).1
    = next_id Examples.one_task.
Proof. repeat split; by vm_compute. Qed.

(** ** The ordering routine: in-degrees *)

Lemma heappush_perm (e : Heap.entry) (h : list Heap.entry) :
  Heap.heappush e h ≡ₚ e :: h.
Proof.
  induction h as [|x h IH]; simpl; [done|].
  destruct (Heap.entry_ltb e x); [done|].
  rewrite IH. apply Permutation_swap.
Qed.

Lemma tasks_of_heappush (e : Heap.entry) (h : list Heap.entry) :
  Heap.tasks_of (Heap.heappush e h) ≡ₚ Heap.entry_task e :: Heap.tasks_of h.
Proof. unfold Heap.tasks_of. by rewrite heappush_perm. Qed.

Section in_degree_facts.
Import Heap Topo LoopInv.
Variable ts : list Task.
Hypothesis ids_NoDup : NoDup (task_id <$> ts).

Lemma task_id_inj (x y : Task) :
  x ∈ ts → y ∈ ts → task_id x = task_id y → x = y.
Proof using ids_NoDup.
  clear -ids_NoDup. induction ts as [|z l IH]; [by rewrite elem_of_nil|].
  rewrite fmap_cons in ids_NoDup. apply NoDup_cons in ids_NoDup as [Hz Hl].
  rewrite !elem_of_cons. intros [->|Hx] [->|Hy] Heq; [done| | |by apply IH].
  - exfalso. apply Hz. rewrite Heq. by apply list_elem_of_fmap_2.
  - exfalso. apply Hz. rewrite <- Heq. by apply list_elem_of_fmap_2.
Qed.

Lemma in_degree_init_lookup (l : list Task) (m : gmap Z Z) (k : Z) :
  foldl (λ m t, <[task_id t := 0]> m) m l !! k =
    if decide (k ∈ task_id <$> l) then Some 0 else m !! k.
Proof.
  revert m. induction l as [|t l IH]; intros m; simpl; [done|].
  rewrite IH. destruct (decide (k ∈ task_id <$> l)) as [Hin|Hout].
  - rewrite decide_True; [done|]. by right.
  - destruct (decide (k = task_id t)) as [->|Hne].
    + rewrite lookup_insert_eq, decide_True; [done|]. left.
    + rewrite lookup_insert_ne by done. rewrite decide_False; [done|].
      intros H. apply elem_of_cons in H as [?|?]; done.
Qed.

Lemma in_degree_init_keys : keys_ok ts (in_degree_init ts).
Proof.
  intros k. unfold in_degree_init. rewrite in_degree_init_lookup.
  destruct (decide (k ∈ task_id <$> ts)); [by split; eauto|].
  rewrite lookup_empty. split; [by intros [? ?]|done].
Qed.

Lemma in_degree_init_zero (k : Z) :
  k ∈ task_id <$> ts → in_degree_init ts !!! k = 0.
Proof.
  intros Hk. unfold in_degree_init.
  rewrite lookup_total_alt, in_degree_init_lookup. by rewrite decide_True.
Qed.

Lemma task_dict_fold (l : list Task) (m : gmap Z Task) :
  NoDup (task_id <$> l) →
  (∀ t, t ∈ l →
        foldl (λ m t, <[task_id t := t]> m) m l !! task_id t = Some t) ∧
  (∀ k, k ∉ task_id <$> l →
        foldl (λ m t, <[task_id t := t]> m) m l !! k = m !! k).
Proof.
  revert m. induction l as [|x l IH]; intros m Hnd; simpl.
  - split; [by intros t Ht; apply elem_of_nil in Ht|done].
  - rewrite fmap_cons in Hnd. apply NoDup_cons in Hnd as [Hx Hl].
    destruct (IH (<[task_id x := x]> m) Hl) as [IH1 IH2]. split.
    + intros t [->|Ht]%elem_of_cons; [|by apply IH1].
      by rewrite IH2, lookup_insert_eq.
    + intros k Hk. rewrite ?fmap_cons, not_elem_of_cons in Hk.
      destruct Hk as [Hne Hk]. by rewrite IH2, lookup_insert_ne.
Qed.

Lemma task_dict_lookup (t : Task) :
  t ∈ ts → task_dict ts !! task_id t = Some t.
Proof using ids_NoDup. intros Ht. by apply task_dict_fold. Qed.

Lemma task_dict_lookup_None (k : Z) :
  k ∉ task_id <$> ts → task_dict ts !! k = None.
Proof using ids_NoDup.
  intros Hk. unfold task_dict.
  by rewrite (proj2 (task_dict_fold ts ∅ ids_NoDup)).
Qed.

Lemma blocking_in_iff (x : Task) :
  x ∈ ts → blocking_in ts (task_id x) ↔ completed x = false.
Proof using ids_NoDup.
  intros Hx. unfold blocking_in. rewrite Exists_exists. split.
  - intros (y & Hy & Hid & Hc). by rewrite <- (task_id_inj y x).
  - intros Hc. by exists x.
Qed.

Lemma blocking_in_elem (d : Z) :
  blocking_in ts d → d ∈ task_id <$> ts.
Proof.
  unfold blocking_in. rewrite Exists_exists. intros (y & Hy & <- & _).
  by apply list_elem_of_fmap_2.
Qed.

Lemma counts_spec (m : gmap Z Z) (d : Z) :
  keys_ok ts m → counts (task_dict ts) m d = bool_decide (blocking_in ts d).
Proof using ids_NoDup.
  intros Hm. unfold counts.
  destruct (decide (d ∈ task_id <$> ts)) as [Hin|Hout].
  - rewrite bool_decide_eq_true_2 by by apply Hm.
    apply list_elem_of_fmap in Hin as (x & -> & Hx).
    rewrite task_dict_lookup by done. simpl.
    destruct (completed x) eqn:Hc; simpl; symmetry.
    + apply bool_decide_eq_false_2. rewrite blocking_in_iff by done.
      congruence.
    + apply bool_decide_eq_true_2. by apply blocking_in_iff.
  - rewrite bool_decide_eq_false_2 by (by intros H; apply Hm in H).
    simpl. symmetry.
    apply bool_decide_eq_false_2. intros H. by apply blocking_in_elem in H.
Qed.

Lemma keys_ok_insert (m : gmap Z Z) (k v : Z) :
  keys_ok ts m → k ∈ task_id <$> ts → keys_ok ts (<[k := v]> m).
Proof.
  intros Hm Hk k'. destruct (decide (k' = k)) as [->|Hne].
  - rewrite lookup_insert_eq. split; eauto.
  - rewrite lookup_insert_ne by done. apply Hm.
Qed.

Lemma count_task_fold (t : Task) (l : list Z) (m : gmap Z Z) :
  keys_ok ts m → t ∈ ts →
  let m' := foldl (λ m d, if counts (task_dict ts) m d
                          then incr (task_id t) m else m) m l in
  keys_ok ts m' ∧
  m' !!! task_id t =
    m !!! task_id t + Z.of_nat (length (filter (blocking_in ts) l)) ∧
  ∀ k, k ≠ task_id t → m' !!! k = m !!! k.
Proof using ids_NoDup.
  intros Hm Ht. revert m Hm. induction l as [|d l IH]; intros m Hm; simpl.
  - split; [done|]. split; [lia|done].
  - rewrite counts_spec by done. rewrite filter_cons.
    destruct (decide (blocking_in ts d)) as [Hb|Hb].
    + rewrite bool_decide_eq_true_2 by done.
      assert (keys_ok ts (incr (task_id t) m)) as Hm'.
      { apply keys_ok_insert; [done|]. by apply list_elem_of_fmap_2. }
      destruct (IH _ Hm') as (Hk & Hv & Ho). split; [done|]. split.
      * rewrite Hv. unfold incr. rewrite lookup_total_insert_eq.
        simpl length. lia.
      * intros k Hne. rewrite Ho by done. unfold incr.
        by rewrite lookup_total_insert_ne.
    + rewrite bool_decide_eq_false_2 by done. by apply IH.
Qed.

Lemma calc_in_degree_fold (l : list Task) (m : gmap Z Z) :
  keys_ok ts m → (∀ t, t ∈ l → t ∈ ts) → NoDup (task_id <$> l) →
  let m' := foldl (count_task (task_dict ts)) m l in
  keys_ok ts m' ∧
  (∀ t, t ∈ l →
     m' !!! task_id t =
       m !!! task_id t + Z.of_nat (length (blocking_deps ts t))) ∧
  (∀ k, k ∉ task_id <$> l → m' !!! k = m !!! k).
Proof using ids_NoDup.
  revert m. induction l as [|x l IH]; intros m Hm Hsub Hnd; simpl.
  - split; [done|]. split; [|done]. by intros t Ht; apply elem_of_nil in Ht.
  - rewrite fmap_cons in Hnd. apply NoDup_cons in Hnd as [Hx Hl].
    assert (x ∈ ts) as Hxts by (apply Hsub; left).
    destruct (count_task_fold x (dependencies x) m Hm Hxts)
      as (Hk1 & Hv1 & Ho1).
    fold (count_task (task_dict ts) m x) in Hk1, Hv1, Ho1.
    destruct (IH (count_task (task_dict ts) m x) Hk1) as (Hk & Hv & Ho);
      [by intros t Ht; apply Hsub; right|done|].
    split; [done|]. split.
    + intros t [->|Ht]%elem_of_cons.
      * rewrite Ho by done. apply Hv1.
      * rewrite Hv by done. rewrite Ho1; [done|].
        intros Heq. apply Hx. rewrite <- Heq. by apply list_elem_of_fmap_2.
    + intros k Hk'. rewrite ?fmap_cons, not_elem_of_cons in Hk'.
      destruct Hk' as [Hne Hk']. rewrite Ho by done. by apply Ho1.
Qed.

(** The in-degree computed for a task is the number of blocking entries
    of its dependency list. *)
Lemma calc_in_degree_lookup (t : Task) :
  t ∈ ts →
  calc_in_degree ts !!! task_id t = Z.of_nat (length (blocking_deps ts t)).
Proof using ids_NoDup.
  intros Ht.
  destruct (calc_in_degree_fold ts (in_degree_init ts) in_degree_init_keys)
    as (_ & Hv & _); [done|done|].
  unfold calc_in_degree. rewrite Hv by done.
  rewrite in_degree_init_zero by by apply list_elem_of_fmap_2. lia.
Qed.

Lemma in_degree_keys : keys_ok ts (calc_in_degree ts).
Proof using ids_NoDup.
  by destruct (calc_in_degree_fold ts (in_degree_init ts)
                 in_degree_init_keys) as (? & _).
Qed.
End in_degree_facts.

(** ** The ordering routine: the queue and the loop *)

Section queue_facts.
Import Heap Topo LoopInv.

Lemma entry_ltb_lt (e1 e2 : entry) :
  entry_ltb e1 e2 = true → entry_lt e1 e2.
Proof. unfold entry_ltb, entry_lt. lia. Qed.

Lemma entry_ltb_le (e1 e2 : entry) :
  entry_ltb e1 e2 = true → entry_le e1 e2.
Proof. unfold entry_ltb, entry_le. lia. Qed.

Lemma entry_ltb_false_le (e1 e2 : entry) :
  entry_ltb e1 e2 = false → entry_le e2 e1.
Proof. unfold entry_ltb, entry_le. lia. Qed.

Lemma entry_le_trans (e1 e2 e3 : entry) :
  entry_le e1 e2 → entry_le e2 e3 → entry_le e1 e3.
Proof. unfold entry_le. lia. Qed.

Lemma entry_le_lt_false (e1 e2 : entry) :
  entry_le e1 e2 → entry_lt e2 e1 → False.
Proof. unfold entry_le, entry_lt. lia. Qed.

Lemma heappush_sorted (e : entry) (h : list entry) :
  StronglySorted entry_le h → StronglySorted entry_le (heappush e h).
Proof.
  induction 1 as [|x h Hh IH Hx]; simpl; [by repeat constructor|].
  destruct (entry_ltb e x) eqn:He.
  - constructor; [by constructor|]. constructor; [by apply entry_ltb_le|].
    eapply Forall_impl; [exact Hx|]. intros y Hy.
    eapply entry_le_trans; [by apply entry_ltb_le|done].
  - constructor; [done|]. rewrite heappush_perm.
    constructor; [by apply entry_ltb_false_le|done].
Qed.

Lemma relax_one_fst (tid : Z) (m : gmap Z Z) (h : list entry) (o : Task) :
  (relax_one tid (m, h) o).1 =
    if bool_decide (tid ∈ dependencies o) && negb (completed o)
    then decr (task_id o) m else m.
Proof.
  unfold relax_one. simpl.
  destruct (bool_decide (tid ∈ dependencies o) && negb (completed o));
    [|done].
  by destruct (decr (task_id o) m !!! task_id o =? 0).
Qed.

Lemma relax_lookup (l : list Task) (tid : Z) (m : gmap Z Z)
    (h : list entry) :
  NoDup (task_id <$> l) →
  (∀ o, o ∈ l →
     (relax l tid (m, h)).1 !!! task_id o =
       m !!! task_id o -
       (if bool_decide (tid ∈ dependencies o) && negb (completed o)
        then 1 else 0)) ∧
  (∀ k, k ∉ task_id <$> l → (relax l tid (m, h)).1 !!! k = m !!! k).
Proof.
  unfold relax. revert m h. induction l as [|x l IH]; intros m h Hnd.
  - split; [by intros o Ho; apply elem_of_nil in Ho|done].
  - rewrite fmap_cons in Hnd. apply NoDup_cons in Hnd as [Hx Hl].
    cbn [foldl]. destruct (relax_one tid (m, h) x) as [m1 h1] eqn:Hone.
    assert (m1 = (relax_one tid (m, h) x).1) as Hm1 by by rewrite Hone.
    rewrite relax_one_fst in Hm1.
    destruct (IH m1 h1 Hl) as [IH1 IH2]. split.
    + intros o [->|Ho]%elem_of_cons.
      * rewrite IH2 by done. subst m1.
        destruct (bool_decide _ && _); [|lia].
        unfold decr. by rewrite lookup_total_insert_eq.
      * rewrite IH1 by done. f_equal. subst m1.
        destruct (bool_decide (tid ∈ dependencies x) && _); [|done].
        unfold decr. rewrite lookup_total_insert_ne; [done|].
        intros Heq. apply Hx. rewrite Heq. by apply list_elem_of_fmap_2.
    + intros k Hk. rewrite fmap_cons, not_elem_of_cons in Hk.
      destruct Hk as [Hne Hk]. rewrite IH2 by done. subst m1.
      destruct (bool_decide _ && _); [|done].
      unfold decr. by rewrite lookup_total_insert_ne.
Qed.

Variable ts : list Task.
Hypothesis ids_NoDup : NoDup (task_id <$> ts).

(** The loop rewrites entries of [in_degree] but adds no key. *)
Lemma relax_keys (l : list Task) (tid : Z) (m : gmap Z Z) (h : list entry) :
  (∀ o, o ∈ l → o ∈ ts) → keys_ok ts m →
  keys_ok ts (relax l tid (m, h)).1.
Proof.
  unfold relax. revert m h. induction l as [|x l IH]; intros m h Hl Hm; [done|].
  cbn [foldl]. destruct (relax_one tid (m, h) x) as [m1 h1] eqn:Hone.
  apply IH; [by intros o Ho; apply Hl; right|].
  assert (m1 = (relax_one tid (m, h) x).1) as -> by by rewrite Hone.
  rewrite relax_one_fst. destruct (bool_decide _ && _); [|done].
  apply keys_ok_insert; [done|]. apply list_elem_of_fmap_2, Hl. left.
Qed.

Lemma relax_one_queue_inv (tid : Z) (m : gmap Z Z) (h : list entry)
    (out : list Task) (o : Task) :
  o ∈ ts → queue_inv ts m h out →
  queue_inv ts (relax_one tid (m, h) o).1 (relax_one tid (m, h) o).2 out.
Proof using ids_NoDup.
  intros Ho [Hnd Hready Hent Hsort Hpush]. unfold relax_one. cbn [fst snd].
  destruct (bool_decide (tid ∈ dependencies o) && negb (completed o));
    [|done].
  assert (∀ t, t ∈ tasks_of h ++ out →
               t ∈ ts ∧ decr (task_id o) m !!! task_id t ≤ 0) as Hready'.
  { intros t Ht. destruct (Hready t Ht) as [Hts Hle]. split; [done|].
    unfold decr. destruct (decide (task_id t = task_id o)) as [Heq|Hne].
    - rewrite Heq, lookup_total_insert_eq. rewrite <- Heq. lia.
    - by rewrite lookup_total_insert_ne. }
  assert (∀ t, t ∈ ts → task_id t ≠ task_id o →
               decr (task_id o) m !!! task_id t ≤ 0 →
               t ∈ tasks_of h ++ out) as Hother.
  { intros t Ht Hne. unfold decr. rewrite lookup_total_insert_ne by done.
    by apply Hpush. }
  destruct (Z.eqb_spec (decr (task_id o) m !!! task_id o) 0) as [Hz|Hnz];
    cbn [fst snd].
  2:{ constructor; try done. intros t Ht Hle.
      destruct (decide (task_id t = task_id o)) as [Heq|Hne];
        [|by apply Hother].
      apply (task_id_inj ts ids_NoDup) in Heq as ->; [|done..].
      apply Hpush; [done|]. revert Hle Hnz. unfold decr.
      rewrite lookup_total_insert_eq. lia. }
  constructor.
  - rewrite tasks_of_heappush. cbn. constructor; [|done].
    intros Hin. apply list_elem_of_fmap in Hin as (t & Heq & Ht).
    destruct (Hready t Ht) as [_ Hle]. revert Hz. unfold decr.
    rewrite lookup_total_insert_eq, Heq. lia.
  - intros t Ht. rewrite tasks_of_heappush in Ht. cbn in Ht.
    apply elem_of_cons in Ht as [->|Ht]; [|by apply Hready'].
    split; [done|lia].
  - rewrite heappush_perm. by constructor.
  - by apply heappush_sorted.
  - intros t Ht Hle. rewrite tasks_of_heappush. cbn.
    destruct (decide (task_id t = task_id o)) as [Heq|Hne].
    + apply (task_id_inj ts ids_NoDup) in Heq as ->; [left|done..].
    + right. by apply Hother.
Qed.

Lemma relax_queue_inv (l : list Task) (tid : Z) (m : gmap Z Z)
    (h : list entry) (out : list Task) :
  (∀ o, o ∈ l → o ∈ ts) → queue_inv ts m h out →
  queue_inv ts (relax l tid (m, h)).1 (relax l tid (m, h)).2 out.
Proof using ids_NoDup.
  unfold relax. revert m h. induction l as [|x l IH]; intros m h Hl Hinv;
    [done|].
  cbn [foldl]. destruct (relax_one tid (m, h) x) as [m1 h1] eqn:Hone.
  apply IH; [by intros o Ho; apply Hl; right|].
  pose proof (relax_one_queue_inv tid m h out x) as H1.
  rewrite Hone in H1. apply H1; [apply Hl; left|done].
Qed.
End queue_facts.

Section loop_facts.
Import Heap Topo LoopInv.
Variable ts : list Task.
Hypothesis ids_NoDup : NoDup (task_id <$> ts).

Lemma NoDup_ids_filter (P : Task → Prop) `{!∀ x, Decision (P x)}
    (l : list Task) :
  NoDup (task_id <$> l) → NoDup (task_id <$> filter P l).
Proof.
  intros Hnd. eapply sublist_NoDup; [exact Hnd|].
  apply fmap_sublist, sublist_filter.
Qed.

Lemma initial_available_fold (m : gmap Z Z) (l : list Task)
    (h : list entry) :
  let r := foldl (λ h t, if m !!! task_id t =? 0
                         then heappush (entry_of t) h else h) h l in
  tasks_of r ≡ₚ tasks_of h ++ filter (λ t, m !!! task_id t = 0) l ∧
  (Forall (λ e, e = entry_of (entry_task e)) h →
   Forall (λ e, e = entry_of (entry_task e)) r) ∧
  (StronglySorted entry_le h → StronglySorted entry_le r).
Proof.
  revert h. induction l as [|t l IH]; intros h; cbn [foldl].
  - split; [by rewrite filter_nil, app_nil_r|done].
  - rewrite filter_cons. destruct (Z.eqb_spec (m !!! task_id t) 0) as [Hz|Hz].
    + rewrite decide_True by done.
      destruct (IH (heappush (entry_of t) h)) as (Hp & He & Hs).
      split; [|split].
      * cbv zeta in Hp. rewrite Hp, tasks_of_heappush. cbn.
        by rewrite Permutation_middle.
      * intros Hh. apply He. rewrite heappush_perm. by constructor.
      * intros Hh. by apply Hs, heappush_sorted.
    + rewrite decide_False by done. apply IH.
Qed.

Lemma initial_available_spec (m : gmap Z Z) :
  tasks_of (initial_available m ts) ≡ₚ
    filter (λ t, m !!! task_id t = 0) ts.
Proof. by destruct (initial_available_fold m ts []) as (Hp & _). Qed.

Lemma loop_inv_initial : loop_inv ts (initial_state ts).
Proof using ids_NoDup.
  unfold initial_state. constructor; cbn [in_degree available_tasks
    sorted_tasks].
  - destruct (initial_available_fold (calc_in_degree ts) ts [])
      as (Hp & He & Hs).
    constructor.
    + rewrite app_nil_r, initial_available_spec.
      by apply NoDup_ids_filter.
    + intros t. rewrite app_nil_r, initial_available_spec.
      rewrite list_elem_of_filter. intros [Hz Ht]. split; [done|lia].
    + by apply He.
    + apply Hs. constructor.
    + intros t Ht Hle. rewrite app_nil_r, initial_available_spec.
      apply list_elem_of_filter. split; [|done].
      rewrite calc_in_degree_lookup in * by done. lia.
  - intros t Ht. rewrite calc_in_degree_lookup by done.
    unfold popped_deps. rewrite filter_nil. destruct (completed t); simpl; lia.
  - intros t x pre post Heq. by destruct pre.
Qed.

(** A task whose count is not positive and which names no completed
    task has all its blocking dependencies among the emitted tasks. *)
Lemma ready_deps_emitted (s : loop_state) (t x : Task) :
  loop_inv ts s → t ∈ tasks_of (available_tasks s) ++ sorted_tasks s →
  no_completed_dep ts t → x ∈ ts → completed x = false →
  task_id x ∈ dependencies t → x ∈ sorted_tasks s.
Proof using ids_NoDup.
  intros [[Hnd Hready _ _ _] Hcount _] Ht Hclean Hx Hxc Hdep.
  destruct (Hready t Ht) as [Hts Hle].
  rewrite Hcount in Hle by done.
  assert (task_id x ∈ blocking_deps ts t) as HxB.
  { apply list_elem_of_filter. split; [|done]. by apply blocking_in_iff. }
  assert (0 < length (blocking_deps ts t))%nat as Hpos.
  { destruct (blocking_deps ts t); [by apply elem_of_nil in HxB|simpl; lia]. }
  destruct (completed t) eqn:Hct; [lia|].
  set (P := task_id <$> popped_deps t (sorted_tasks s)).
  assert (∀ p, p ∈ sorted_tasks s → p ∈ ts) as Hsub.
  { intros p Hp. apply (Hready p). apply elem_of_app. by right. }
  assert (NoDup P) as HP.
  { apply NoDup_ids_filter. rewrite fmap_app in Hnd.
    by apply NoDup_app in Hnd as (_ & _ & ?). }
  assert (P ⊆+ blocking_deps ts t) as Hsm.
  { apply NoDup_submseteq; [done|]. intros k Hk.
    apply list_elem_of_fmap in Hk as (p & -> & Hp).
    apply list_elem_of_filter in Hp as [Hpd Hp].
    apply list_elem_of_filter. split; [|done].
    apply blocking_in_iff; [done|by apply Hsub|].
    destruct (completed p) eqn:Hpc; [|done].
    exfalso. by apply (Hclean p (Hsub p Hp) Hpc). }
  assert (P ≡ₚ blocking_deps ts t) as Hperm.
  { apply submseteq_length_Permutation; [done|].
    unfold P. rewrite length_fmap. lia. }
  rewrite <- Hperm in HxB.
  apply list_elem_of_fmap in HxB as (p & Heq & Hp).
  apply list_elem_of_filter in Hp as [_ Hp].
  by rewrite (task_id_inj ts ids_NoDup x p Hx (Hsub p Hp) Heq).
Qed.

Lemma relax_keeps (l : list Task) (tid : Z) (m : gmap Z Z)
    (h : list entry) (e : entry) :
  e ∈ h → e ∈ (relax l tid (m, h)).2.
Proof.
  unfold relax. revert m h. induction l as [|x l IH]; intros m h He; [done|].
  cbn [foldl]. destruct (relax_one tid (m, h) x) as [m1 h1] eqn:Hone.
  apply IH. assert (h1 = (relax_one tid (m, h) x).2) as -> by by rewrite Hone.
  unfold relax_one. cbn [fst snd].
  destruct (bool_decide _ && _); [|done].
  destruct (_ =? 0); [|done]. cbn [snd]. rewrite heappush_perm. by right.
Qed.

Lemma step_loop_inv (s s' : loop_state) :
  loop_inv ts s → step ts s = Some s' →
  loop_inv ts s' ∧
  ∃ e rest, available_tasks s = e :: rest ∧ e = entry_of (entry_task e) ∧
    sorted_tasks s' = sorted_tasks s ++ [entry_task e] ∧
    ∀ x, x ∈ rest → x ∈ available_tasks s'.
Proof using ids_NoDup.
  intros Hinv Hstep.
  pose proof Hinv as [[Hnd Hready Hent Hsort Hpush] Hcount Hord].
  unfold step in Hstep.
  destruct (available_tasks s) as [|e rest] eqn:Hh; [done|]. cbn in Hstep.
  apply Forall_cons in Hent as [He Hent].
  destruct e as [[k tid] task]. unfold entry_of, entry_task in He.
  cbn in He. injection He as -> ->. injection Hstep as <-.
  cbn [tasks_of fmap list_fmap entry_task snd] in Hnd, Hready, Hpush.
  split; [|exists (- priority_score task, task_id task, task), rest;
            split; [done|]; split; [done|]; split; [done|];
            intros x Hx; by apply relax_keeps].
  constructor; cbn [in_degree available_tasks sorted_tasks].
  - apply relax_queue_inv; [done|done|]. constructor.
    + eapply NoDup_Permutation_proper; [|exact Hnd].
      apply fmap_Permutation. unfold tasks_of. cbn.
      rewrite app_assoc. by rewrite <- Permutation_cons_append.
    + intros t Ht. apply Hready. rewrite app_assoc in Ht.
      apply elem_of_app in Ht as [Ht|Ht%list_elem_of_singleton].
      * by right.
      * subst t. left.
    + done.
    + by apply StronglySorted_inv in Hsort as [? _].
    + intros t Ht Hle. specialize (Hpush t Ht Hle).
      rewrite app_assoc, elem_of_app, list_elem_of_singleton.
      apply elem_of_app in Hpush as [Hp|Hp]; [|by left; apply elem_of_app; right].
      apply elem_of_cons in Hp as [->|Hp]; [by right|].
      left. apply elem_of_app. by left.
  - intros t Ht.
    rewrite (proj1 (relax_lookup ts (task_id task) (in_degree s) rest
                      ids_NoDup)) by done.
    rewrite Hcount by done. unfold popped_deps.
    rewrite filter_app, length_app, (filter_singleton _ task []).
    destruct (completed t); simpl; [by rewrite andb_false_r; lia|].
    rewrite andb_true_r.
    destruct (decide (task_id task ∈ dependencies t)) as [Hin|Hout].
    + rewrite bool_decide_eq_true_2 by done. simpl. lia.
    + rewrite bool_decide_eq_false_2 by done. simpl. lia.
  - intros t x pre post Heq Hclean Hx Hxc Hdep.
    destruct post as [|y post _] using rev_ind.
    + apply (app_inj_tail (sorted_tasks s) pre task t) in Heq as [<- <-].
      apply (ready_deps_emitted s task x); try done.
      rewrite Hh. cbn. left.
    + rewrite app_comm_cons, app_assoc in Heq.
      apply app_inj_tail in Heq as [Heq _].
      by apply (Hord t x pre post).
Qed.
End loop_facts.

Section loop_result.
Import Heap Topo LoopInv.
Variable ts : list Task.
Hypothesis ids_NoDup : NoDup (task_id <$> ts).

Lemma loop_inv_bound (s : loop_state) :
  loop_inv ts s →
  (length (available_tasks s) + length (sorted_tasks s) ≤ length ts)%nat.
Proof.
  intros [[Hnd Hready _ _ _] _ _].
  rewrite <- (length_fmap entry_task (available_tasks s)), <- length_app.
  apply submseteq_length, NoDup_submseteq.
  - by apply NoDup_fmap_1 in Hnd.
  - intros t Ht. by apply Hready.
Qed.

Lemma run_loop_inv (n : nat) (s s' : loop_state) :
  loop_inv ts s → run n ts s = Some s' → loop_inv ts s'.
Proof using ids_NoDup.
  revert s. induction n as [|n IH]; intros s Hinv; cbn.
  - by intros [= <-].
  - destruct (step ts s) as [s1|] eqn:Hstep; [|done]. cbn.
    apply IH. by apply (step_loop_inv ts ids_NoDup s s1).
Qed.

Lemma step_None (s : loop_state) :
  step ts s = None ↔ available_tasks s = [].
Proof.
  unfold step. destruct (available_tasks s) as [|[[k tid] task] rest]; done.
Qed.

(** The loop ends within the fuel that [main_loop] gives it. *)
Lemma loop_finishes (fuel : nat) (s : loop_state) :
  loop_inv ts s → (length ts ≤ fuel + length (sorted_tasks s))%nat →
  ∃ n s', run n ts s = Some s' ∧ available_tasks s' = [] ∧
          loop fuel ts s = Some (sorted_tasks s').
Proof using ids_NoDup.
  revert s. induction fuel as [|fuel IH]; intros s Hinv Hlen.
  - exists 0%nat, s. split; [done|].
    pose proof (loop_inv_bound s Hinv) as Hb.
    assert (available_tasks s = []) as Hnil
      by (destruct (available_tasks s); [done|simpl in Hb; lia]).
    split; [done|]. cbn. by rewrite (proj2 (step_None s) Hnil).
  - cbn [loop]. destruct (step ts s) as [s1|] eqn:Hstep.
    + destruct (step_loop_inv ts ids_NoDup s s1 Hinv Hstep)
        as (Hinv1 & e & rest & _ & _ & Hsorted & _).
      destruct (IH s1 Hinv1) as (n & s' & Hrun & Hnil & Hloop).
      { rewrite Hsorted, length_app. simpl. lia. }
      exists (S n), s'. cbn. rewrite Hstep. by cbn.
    + exists 0%nat, s. split; [done|]. split; [by apply step_None|done].
Qed.

Lemma loop_unfold (fuel : nat) (s : loop_state) :
  loop fuel ts s =
    match step ts s with
    | None => Some (sorted_tasks s)
    | Some s' =>
        match fuel with O => None | S fuel' => loop fuel' ts s' end
    end.
Proof. by destruct fuel. Qed.

(** More fuel does not change a result. *)
Lemma loop_fuel_irrelevant (f1 f2 : nat) (s : loop_state)
    (o1 o2 : list Task) :
  loop f1 ts s = Some o1 → loop f2 ts s = Some o2 → o1 = o2.
Proof.
  revert f2 s. induction f1 as [|f1 IH]; intros f2 s;
    rewrite (loop_unfold _ s), (loop_unfold f2 s);
    destruct (step ts s) as [s1|]; try congruence.
  destruct f2; [done|]. apply IH.
Qed.

Lemma loop_after_run (n f : nat) (s0 s : loop_state) (o : list Task) :
  run n ts s0 = Some s → loop f ts s = Some o →
  loop (n + f) ts s0 = Some o.
Proof.
  revert s0. induction n as [|n IH]; intros s0; cbn [run].
  - by intros [= ->].
  - rewrite (loop_unfold _ s0).
    destruct (step ts s0) as [s1|]; [|done]. cbn. apply IH.
Qed.

(** What the loop returns extends what is emitted already, and every
    queued task is in the extension. *)
Lemma loop_extends (f : nat) (s : loop_state) (o : list Task) :
  loop_inv ts s → loop f ts s = Some o →
  ∃ suffix, o = sorted_tasks s ++ suffix ∧
            ∀ t, t ∈ tasks_of (available_tasks s) → t ∈ suffix.
Proof using ids_NoDup.
  revert s. induction f as [|f IH]; intros s Hinv; rewrite loop_unfold;
    destruct (step ts s) as [s1|] eqn:Hstep; try done.
  - intros [= <-]. exists []. rewrite app_nil_r. split; [done|].
    apply step_None in Hstep. rewrite Hstep. by intros t Ht.
  - intros Hloop.
    destruct (step_loop_inv ts ids_NoDup s s1 Hinv Hstep)
      as (Hinv1 & e & rest & Hh & _ & Hsorted & Hrest).
    destruct (IH s1 Hinv1 Hloop) as (suffix & -> & Hsuf).
    exists (entry_task e :: suffix). rewrite Hsorted, <- app_assoc.
    split; [done|]. intros t. rewrite Hh. cbn.
    intros [->|Ht]%elem_of_cons; [left|right].
    apply Hsuf. apply list_elem_of_fmap in Ht as (x & -> & Hx).
    by apply list_elem_of_fmap_2, Hrest.
  - intros [= <-]. exists []. rewrite app_nil_r. split; [done|].
    apply step_None in Hstep. rewrite Hstep. by intros t Ht.
Qed.

(** Two queued tasks leave the queue in the order of their tuples. *)
Lemma loop_pops_in_order (f : nat) (s : loop_state) (o : list Task)
    (a b : Task) :
  loop_inv ts s → loop f ts s = Some o →
  a ∈ tasks_of (available_tasks s) → b ∈ tasks_of (available_tasks s) →
  entry_lt (entry_of a) (entry_of b) → before a b o.
Proof using ids_NoDup.
  revert s. induction f as [|f IH]; intros s Hinv; rewrite loop_unfold;
    destruct (step ts s) as [s1|] eqn:Hstep; try done.
  - apply step_None in Hstep. rewrite Hstep. by intros _ Ha%elem_of_nil.
  - intros Hloop Ha Hb Hlt.
    destruct (step_loop_inv ts ids_NoDup s s1 Hinv Hstep)
      as (Hinv1 & e & rest & Hh & He & Hsorted & Hrest).
    destruct Hinv as [[_ _ Hent Hsort _] _ _].
    rewrite Hh in Hent, Hsort, Ha, Hb.
    apply Forall_cons in Hent as [_ Hent].
    apply StronglySorted_inv in Hsort as [_ Hsort].
    assert (∀ t, t ∈ tasks_of rest →
              entry_le e (entry_of t) ∧ t ∈ tasks_of (available_tasks s1))
      as Hin_rest.
    { intros t Ht. apply list_elem_of_fmap in Ht as (x & -> & Hx).
      rewrite Forall_forall in Hent, Hsort.
      rewrite <- (Hent x Hx). split; [by apply Hsort|].
      by apply list_elem_of_fmap_2, Hrest. }
    cbn in Ha, Hb.
    apply elem_of_cons in Ha as [->|Ha]; apply elem_of_cons in Hb as [->|Hb].
    + exfalso. revert Hlt. unfold entry_lt. lia.
    + destruct (loop_extends f s1 o Hinv1 Hloop) as (suffix & -> & Hsuf).
      destruct (list_elem_of_split suffix b) as (l2 & l3 & ->);
        [by apply Hsuf, Hin_rest|].
      exists (sorted_tasks s), l2, l3. by rewrite Hsorted, <- app_assoc.
    + exfalso. destruct (Hin_rest a Ha) as [Hle _]. rewrite He in Hle.
      by apply (entry_le_lt_false _ _ Hle).
    + apply (IH s1); try done; by apply Hin_rest.
  - apply step_None in Hstep. rewrite Hstep. by intros _ Ha%elem_of_nil.
Qed.

(** The [while] loop returns, and returns the emitted tasks of a state
    with an empty queue that satisfies the invariants. *)
Lemma main_loop_total :
  ∃ n s', run n ts (initial_state ts) = Some s' ∧
          available_tasks s' = [] ∧ loop_inv ts s' ∧
          main_loop ts = Some (sorted_tasks s').
Proof using ids_NoDup.
  destruct (loop_finishes (length ts) (initial_state ts))
    as (n & s' & Hrun & Hnil & Hloop);
    [by apply loop_inv_initial|lia|].
  exists n, s'. split; [done|]. split; [done|]. split; [|done].
  eapply run_loop_inv; [|exact Hrun]. by apply loop_inv_initial.
Qed.

(** The result of the loop, seen from a state it passes through. *)
Lemma main_loop_from (n : nat) (s : loop_state) :
  run n ts (initial_state ts) = Some s →
  ∃ f o, loop f ts s = Some o ∧ main_loop ts = Some o.
Proof using ids_NoDup.
  intros Hrun.
  assert (loop_inv ts s) as Hinv
    by (eapply run_loop_inv; [|exact Hrun]; by apply loop_inv_initial).
  destruct (loop_finishes (length ts) s Hinv) as (_ & s' & _ & _ & Hloop);
    [lia|].
  exists (length ts), (sorted_tasks s'). split; [done|].
  destruct main_loop_total as (_ & s'' & _ & _ & _ & Hmain).
  rewrite Hmain. f_equal.
  apply (loop_fuel_irrelevant (length ts) (n + length ts)
           (initial_state ts)); [exact Hmain|].
  by apply (loop_after_run n (length ts) _ s).
Qed.
End loop_result.

(** ** The stable sort *)

Section sort_facts.
Context {A : Type} (key : A → Z).

Lemma insert_by_key_perm (x : A) (l : list A) :
  insert_by_key key x l ≡ₚ x :: l.
Proof.
  induction l as [|y l IH]; simpl; [done|].
  destruct (key x <=? key y); [done|]. rewrite IH. apply Permutation_swap.
Qed.

Lemma sort_by_key_perm (l : list A) : sort_by_key key l ≡ₚ l.
Proof.
  induction l as [|x l IH]; [done|]. cbn [sort_by_key foldr].
  rewrite insert_by_key_perm. by constructor.
Qed.

Lemma insert_by_key_sorted (x : A) (l : list A) :
  StronglySorted (λ a b, key a ≤ key b) l →
  StronglySorted (λ a b, key a ≤ key b) (insert_by_key key x l).
Proof.
  induction 1 as [|y l Hl IH Hy]; simpl; [by repeat constructor|].
  destruct (Z.leb_spec (key x) (key y)).
  - constructor; [by constructor|]. constructor; [done|].
    eapply Forall_impl; [exact Hy|]. simpl. intros; lia.
  - constructor; [done|]. rewrite insert_by_key_perm.
    constructor; [lia|done].
Qed.

Lemma sort_by_key_sorted (l : list A) :
  StronglySorted (λ a b, key a ≤ key b) (sort_by_key key l).
Proof.
  induction l as [|x l IH]; [constructor|]. by apply insert_by_key_sorted.
Qed.

Lemma insert_by_key_stable (k : Z) (x : A) (l : list A) :
  filter (λ a, key a = k) (insert_by_key key x l) =
  filter (λ a, key a = k) (x :: l).
Proof.
  induction l as [|y l IH]; simpl; [done|].
  destruct (Z.leb_spec (key x) (key y)) as [Hle|Hlt]; [done|].
  rewrite (filter_cons _ y), IH, !filter_cons.
  destruct (decide (key y = k)), (decide (key x = k)); try done. lia.
Qed.

(** Stability: the elements of one key come out in the order they came
    in. *)
Lemma sort_by_key_stable (k : Z) (l : list A) :
  filter (λ a, key a = k) (sort_by_key key l) = filter (λ a, key a = k) l.
Proof.
  induction l as [|x l IH]; [done|]. cbn [sort_by_key foldr].
  rewrite insert_by_key_stable, !filter_cons. fold (sort_by_key key l).
  by rewrite IH.
Qed.
End sort_facts.

(** Descending score, ascending id among equal scores. *)
Lemma insert_by_score_id (x : Task) (l : list Task) :
  StronglySorted (λ a b, priority_score b < priority_score a ∨
    (priority_score a = priority_score b ∧ task_id a < task_id b)) l →
  Forall (λ y, task_id x < task_id y) l →
  StronglySorted (λ a b, priority_score b < priority_score a ∨
    (priority_score a = priority_score b ∧ task_id a < task_id b))
    (insert_by_key (λ t, - priority_score t) x l).
Proof.
  induction 1 as [|y l Hl IH Hy]; intros Hx; simpl; [by repeat constructor|].
  apply Forall_cons in Hx as [Hxy Hx].
  destruct (Z.leb_spec (- priority_score x) (- priority_score y)).
  - constructor; [by constructor|]. constructor; [lia|].
    rewrite Forall_forall in Hy, Hx. apply Forall_forall. intros z Hz.
    specialize (Hy z Hz). specialize (Hx z Hz). lia.
  - constructor; [by apply IH|]. rewrite insert_by_key_perm.
    constructor; [lia|done].
Qed.

Lemma sort_by_score_id (l : list Task) :
  StronglySorted (λ a b, task_id a < task_id b) l →
  StronglySorted (λ a b, priority_score b < priority_score a ∨
    (priority_score a = priority_score b ∧ task_id a < task_id b))
    (sort_by_key (λ t, - priority_score t) l).
Proof.
  induction 1 as [|x l Hl IH Hx]; [constructor|]. cbn [sort_by_key foldr].
  apply insert_by_score_id; [by apply IH|].
  fold (sort_by_key (λ t, - priority_score t) l). by rewrite sort_by_key_perm.
Qed.

Lemma StronglySorted_filter {A : Type} (R : relation A) (P : A → Prop)
    `{!∀ x, Decision (P x)} (l : list A) :
  StronglySorted R l → StronglySorted R (filter P l).
Proof.
  induction 1 as [|x l Hl IH Hx]; [constructor|]. rewrite filter_cons.
  destruct (decide (P x)); [|done]. constructor; [done|].
  rewrite Forall_forall in Hx. apply Forall_forall.
  intros y [_ Hy]%list_elem_of_filter. by apply Hx.
Qed.

(** ** The ordering routine: result *)

Section topo_result.
Import Heap Topo LoopInv.
Variable ts : list Task.
Hypothesis ids_NoDup : NoDup (task_id <$> ts).

Lemma emitted_remaining_perm (main : list Task) :
  NoDup main → (∀ t, t ∈ main → t ∈ ts) →
  main ++ remaining_tasks ts main ≡ₚ ts.
Proof using ids_NoDup.
  intros Hnd Hsub. unfold remaining_tasks. rewrite sort_by_key_perm.
  etrans; [|apply (filter_app_complement (λ t, t ∈ main) ts)].
  apply Permutation_app_tail, NoDup_Permutation; [done| |].
  - apply NoDup_filter. by apply NoDup_fmap_1 in ids_NoDup.
  - intros t. rewrite list_elem_of_filter. split; [by auto|by intros []].
Qed.

(** The routine returns: the tasks the loop emits, then the batch of the
    remaining ones; together a permutation of the working set. *)
Lemma topological_sort_total :
  ∃ main, main_loop ts = Some main ∧
    _topological_sort_with_priority ts
      = Some (main ++ remaining_tasks ts main) ∧
    NoDup main ∧ (∀ t, t ∈ main → t ∈ ts) ∧
    main ++ remaining_tasks ts main ≡ₚ ts.
Proof using ids_NoDup.
  destruct (main_loop_total ts ids_NoDup)
    as (n & s' & _ & Hnil & [[Hnd Hready _ _ _] _ _] & Hmain).
  rewrite Hnil in Hnd, Hready. cbn in Hnd, Hready.
  exists (sorted_tasks s'). split; [done|].
  unfold _topological_sort_with_priority. rewrite Hmain. cbn.
  split; [done|].
  assert (NoDup (sorted_tasks s')) by by apply NoDup_fmap_1 in Hnd.
  assert (∀ t, t ∈ sorted_tasks s' → t ∈ ts) by (intros t Ht; by apply Hready).
  split; [done|]. split; [done|]. by apply emitted_remaining_perm.
Qed.
End topo_result.

Lemma task_id_rescore (now : datetime) (t : Task) :
  task_id (rescore now t) = task_id t.
Proof. done. Qed.

Lemma working_set_ids (now : datetime) (include_completed : bool)
    (st : TaskManager) :
  well_keyed st → NoDup (task_id <$> working_set now include_completed st).
Proof.
  intros [Hnd Hk]. unfold working_set, dict_values.
  assert (task_id <$> (tasks st).*2 = (tasks st).*1) as Hids.
  { clear Hnd. induction Hk as [|[k t] d Hkt _ IH]; [done|].
    rewrite !fmap_cons, IH. simpl in *. by rewrite Hkt. }
  rewrite <- list_fmap_compose.
  assert (∀ l : list Task, (task_id ∘ rescore now) <$> l = task_id <$> l)
    as Hc by (intros l; by apply list_fmap_ext).
  rewrite Hc. destruct include_completed.
  - by rewrite Hids.
  - eapply sublist_NoDup; [by rewrite <- Hids in Hnd|].
    apply fmap_sublist, sublist_filter.
Qed.

(** C2. For every well-keyed collection, every time and either value of
    [include_completed], [ordered] returns a list (the loop ends within its
    fuel; cyclic and dangling dependencies raise nothing), and the list is
    a permutation of the working set in which no task occurs twice. *)
Theorem ordered_total_permutation (now : datetime) (include_completed : bool)
    (st : TaskManager) :
  well_keyed st →
  ∃ out, ordered now include_completed st = Some out ∧
         out ≡ₚ working_set now include_completed st ∧ NoDup out.
Proof.
  intros Hwf.
  pose proof (working_set_ids now include_completed st Hwf) as Hids.
  destruct (topological_sort_total _ Hids) as (main & _ & Htopo & _ & _ & Hp).
  eexists. split; [exact Htopo|]. split; [done|].
  rewrite Hp. by apply NoDup_fmap_1 in Hids.
Qed.

Lemma before_app_l {A : Type} (x y : A) (l k : list A) :
  before x y l → before x y (l ++ k).
Proof.
  intros (l1 & l2 & l3 & ->). exists l1, l2, (l3 ++ k).
  by rewrite <- app_assoc, <- !app_comm_cons, <- app_assoc.
Qed.

Lemma before_split {A : Type} (x y : A) (l k : list A) :
  x ∈ l → y ∈ k → before x y (l ++ k).
Proof.
  intros (l1 & l2 & ->)%list_elem_of_split (k1 & k2 & ->)%list_elem_of_split.
  exists l1, (l2 ++ k1), k2.
  by rewrite <- app_assoc, <- !app_comm_cons, <- app_assoc.
Qed.

Lemma perm_pair_before {A : Type} (a b : A) (out : list A) :
  out ≡ₚ [a; b] → before b a out → out = [b; a].
Proof.
  intros Hp (l1 & l2 & l3 & ->). apply Permutation_length in Hp.
  rewrite !length_app in Hp. simpl in Hp. rewrite !length_app in Hp.
  simpl in Hp. destruct l1, l2, l3; simpl in Hp; try lia. done.
Qed.

Lemma filter_none {A : Type} (P : A → Prop) `{!∀ x, Decision (P x)}
    (l : list A) :
  (∀ x, x ∈ l → ¬ P x) → filter P l = [].
Proof.
  induction l as [|x l IH]; intros Hall; [done|].
  rewrite filter_cons_False by (apply Hall; left).
  apply IH. intros y Hy. apply Hall. by right.
Qed.

(** ** Ready tasks *)

Section ready_facts.
Import Heap Topo LoopInv.
Variable ts : list Task.
Hypothesis ids_NoDup : NoDup (task_id <$> ts).

Lemma initial_ready (t : Task) :
  t ∈ ts → blocking_deps ts t = [] → initially_ready ts t.
Proof using ids_NoDup.
  intros Ht Hb. unfold initially_ready, initial_state.
  cbn [in_degree available_tasks].
  assert (calc_in_degree ts !!! task_id t = 0) as Hz
    by (rewrite calc_in_degree_lookup, Hb by done; done).
  split; [done|].
  assert (t ∈ tasks_of (initial_available (calc_in_degree ts) ts)) as Hin.
  { rewrite initial_available_spec. by apply list_elem_of_filter. }
  apply list_elem_of_fmap in Hin as (e & -> & He).
  destruct (loop_inv_initial ts ids_NoDup) as [[_ _ Hent _ _] _ _].
  cbn in Hent. rewrite Forall_forall in Hent. by rewrite <- (Hent e He).
Qed.

Lemma not_blocking_deps (t : Task) :
  (∀ d, d ∈ dependencies t →
        (∀ x, x ∈ ts → task_id x ≠ d) ∨
        (∃ x, x ∈ ts ∧ task_id x = d ∧ completed x = true)) →
  blocking_deps ts t = [].
Proof using ids_NoDup.
  intros H. apply filter_none. intros d Hd Hb.
  unfold blocking_in in Hb. apply Exists_exists in Hb as (y & Hy & Hid & Hc).
  destruct (H d Hd) as [Hno|(x & Hx & Hxd & Hxc)].
  - by apply (Hno y).
  - rewrite (task_id_inj ts ids_NoDup x y) in Hxc by congruence.
    congruence.
Qed.
End ready_facts.

Lemma working_set_keys (now : datetime) (include_completed : bool)
    (st : TaskManager) (x : Task) :
  well_keyed st → x ∈ working_set now include_completed st →
  task_id x ∈ (tasks st).*1.
Proof.
  intros [_ Hk] Hx. unfold working_set, dict_values in Hx.
  apply list_elem_of_fmap in Hx as (y & -> & Hy).
  assert (y ∈ (tasks st).*2) as Hy'
    by (destruct include_completed; [done|];
        by apply list_elem_of_filter in Hy as [_ ?]).
  apply list_elem_of_fmap in Hy' as ([k z] & -> & Hkz).
  rewrite Forall_forall in Hk. specialize (Hk _ Hkz). simpl in *.
  rewrite <- Hk. by apply (list_elem_of_fmap_2 fst _ (k, z)).
Qed.

(** C6. In every call of [ordered], a task of the working set all of
    whose dependency entries point outside the working set (in particular
    to an id that no task has) or to a completed task has in-degree zero
    and is pushed on the queue before the loop starts; so is, in
    particular, a task whose only dependency is the id 999 when no task
    has that id. *)
Theorem unblocking_dependencies_are_ready (now : datetime)
    (include_completed : bool) (st : TaskManager) (t : Task) :
  well_keyed st →
  t ∈ working_set now include_completed st →
  ((∀ d, d ∈ dependencies t →
      (∀ x, x ∈ working_set now include_completed st → task_id x ≠ d) ∨
      (∃ x, x ∈ working_set now include_completed st ∧
            task_id x = d ∧ completed x = true)) →
   initially_ready (working_set now include_completed st) t) ∧
  (dependencies t = [999] → 999 ∉ (tasks st).*1 →
   initially_ready (working_set now include_completed st) t).
Proof.
  intros Hwf Ht.
  pose proof (working_set_ids now include_completed st Hwf) as Hids.
  assert ((∀ d, d ∈ dependencies t →
      (∀ x, x ∈ working_set now include_completed st → task_id x ≠ d) ∨
      (∃ x, x ∈ working_set now include_completed st ∧
            task_id x = d ∧ completed x = true)) →
   initially_ready (working_set now include_completed st) t) as Hgen.
  { intros Hdeps. apply initial_ready; [done|done|].
    by apply not_blocking_deps. }
  split; [done|]. intros Hdeps Hno. apply Hgen. intros d Hd. left.
  rewrite Hdeps in Hd. apply list_elem_of_singleton in Hd as ->.
  intros x Hx Hid. apply Hno. rewrite <- Hid.
  by apply (working_set_keys now include_completed).
Qed.

(** ** Emission by rank *)

Lemma outranks_entry_lt (a b : Task) :
  outranks a b ↔ Heap.entry_lt (Topo.entry_of a) (Topo.entry_of b).
Proof. unfold outranks, Heap.entry_lt, Topo.entry_of. simpl. lia. Qed.

Lemma age_score_range (now : datetime) (t : Task) :
  created_at t ≤ now → 0 ≤ Score.age_score now t ≤ 20.
Proof.
  intros Hle. unfold Score.age_score, timedelta_days.
  assert (0 ≤ (now - created_at t) `div` day_us)
    by (apply Z.div_pos; [lia|done]).
  lia.
Qed.

Lemma working_set_score (now : datetime) (include_completed : bool)
    (st : TaskManager) (t : Task) :
  t ∈ working_set now include_completed st →
  priority_score t = Score.score now t.
Proof.
  unfold working_set. intros (t0 & -> & _)%list_elem_of_fmap. done.
Qed.

Lemma score_without_deadline (now : datetime) (t : Task) :
  deadline t = None → created_at t ≤ now →
  urgency t * 10 ≤ Score.score now t ≤ urgency t * 10 + 20.
Proof.
  intros Hd Hc. pose proof (age_score_range now t Hc).
  unfold Score.score, Score.base_score, Score.deadline_score.
  rewrite Hd. lia.
Qed.

(** No dependency entry of [t] is the id of one of the two tasks. *)
Lemma pair_not_blocking (ts : list Task) (a b t : Task) :
  ts ≡ₚ [a; b] →
  (∀ d, d ∈ dependencies t → d ≠ task_id a ∧ d ≠ task_id b) →
  blocking_deps ts t = [].
Proof.
  intros Hp Hd. apply filter_none. intros d Hin Hb.
  unfold blocking_in in Hb. apply Exists_exists in Hb as (x & Hx & <- & _).
  rewrite Hp in Hx. destruct (Hd _ Hin) as [Ha Hb].
  apply elem_of_cons in Hx as [->|Hx]; [done|].
  by apply list_elem_of_singleton in Hx as ->.
Qed.

(** C3. Whenever two tasks are on the queue together in a state the loop
    passes through, the one with the higher score, or with the lower id
    when the scores are equal, comes earlier in the list [ordered]
    returns; so it is, in particular, for two tasks of the working set
    whose in-degree is zero and which are not emitted yet, since such
    tasks are on the queue. When the working set consists of A (urgency 5)
    and B (urgency 9), created by now, without deadlines, and neither
    names itself or the other as a dependency, [ordered] returns
    [B; A]. *)
Theorem ready_tasks_emitted_by_rank :
  (∀ (now : datetime) (include_completed : bool) (st : TaskManager)
     (n : nat) (s : Topo.loop_state) (a b : Task),
     well_keyed st →
     LoopInv.run n (working_set now include_completed st)
       (Topo.initial_state (working_set now include_completed st))
       = Some s →
     a ∈ Heap.tasks_of (Topo.available_tasks s) →
     b ∈ Heap.tasks_of (Topo.available_tasks s) →
     outranks a b →
     ∃ out, ordered now include_completed st = Some out ∧ before a b out) ∧
  (∀ (now : datetime) (include_completed : bool) (st : TaskManager)
     (n : nat) (s : Topo.loop_state) (a b : Task),
     well_keyed st →
     LoopInv.run n (working_set now include_completed st)
       (Topo.initial_state (working_set now include_completed st))
       = Some s →
     a ∈ working_set now include_completed st →
     b ∈ working_set now include_completed st →
     Topo.in_degree s !!! task_id a = 0 →
     Topo.in_degree s !!! task_id b = 0 →
     a ∉ Topo.sorted_tasks s → b ∉ Topo.sorted_tasks s →
     outranks a b →
     ∃ out, ordered now include_completed st = Some out ∧ before a b out) ∧
  (∀ (now : datetime) (include_completed : bool) (st : TaskManager)
     (a b : Task),
     well_keyed st →
     working_set now include_completed st ≡ₚ [a; b] →
     urgency a = 5 → urgency b = 9 →
     deadline a = None → deadline b = None →
     created_at a ≤ now → created_at b ≤ now →
     (∀ d, d ∈ dependencies a ++ dependencies b →
           d ≠ task_id a ∧ d ≠ task_id b) →
     ordered now include_completed st = Some [b; a]).
Proof.
  assert (∀ (now : datetime) (include_completed : bool) (st : TaskManager)
            (n : nat) (s : Topo.loop_state) (a b : Task),
            well_keyed st →
            LoopInv.run n (working_set now include_completed st)
              (Topo.initial_state (working_set now include_completed st))
              = Some s →
            a ∈ Heap.tasks_of (Topo.available_tasks s) →
            b ∈ Heap.tasks_of (Topo.available_tasks s) →
            outranks a b →
            ∃ out, ordered now include_completed st = Some out ∧
                   before a b out) as Hrank.
  { intros now inc st n s a b Hwf Hrun Ha Hb Hab.
    pose proof (working_set_ids now inc st Hwf) as Hids.
    destruct (topological_sort_total _ Hids) as (main & Hmain & Htopo & _).
    destruct (main_loop_from _ Hids n s Hrun) as (f & o & Hloop & Hmain').
    assert (o = main) as -> by congruence.
    eexists. split; [exact Htopo|]. apply before_app_l.
    apply (loop_pops_in_order _ Hids f s); try done.
    - eapply run_loop_inv; [done| |exact Hrun]. by apply loop_inv_initial.
    - by apply outranks_entry_lt. }
  split; [exact Hrank|]. split.
  { intros now inc st n s a b Hwf Hrun Ha Hb Hza Hzb Hna Hnb Hab.
    pose proof (working_set_ids now inc st Hwf) as Hids.
    assert (LoopInv.loop_inv (working_set now inc st) s)
      as [[_ _ _ _ Hpush] _ _]
      by (eapply run_loop_inv; [done| |exact Hrun]; by apply loop_inv_initial).
    apply (Hrank now inc st n s a b Hwf Hrun); [| |done].
    - assert (a ∈ Heap.tasks_of (Topo.available_tasks s)
                  ++ Topo.sorted_tasks s) as Hin by (apply Hpush; [done|lia]).
      by apply elem_of_app in Hin as [?|?].
    - assert (b ∈ Heap.tasks_of (Topo.available_tasks s)
                  ++ Topo.sorted_tasks s) as Hin by (apply Hpush; [done|lia]).
      by apply elem_of_app in Hin as [?|?]. }
  intros now inc st a b Hwf HW Hua Hub Hda Hdb Hca Hcb Hdeps.
  pose proof (working_set_ids now inc st Hwf) as Hids.
  assert (a ∈ working_set now inc st) as Ha by (rewrite HW; left).
  assert (b ∈ working_set now inc st) as Hb by (rewrite HW; right; left).
  assert (∀ t, t ∈ working_set now inc st →
            (∀ d, d ∈ dependencies t → d ≠ task_id a ∧ d ≠ task_id b) →
            t ∈ Heap.tasks_of (Topo.available_tasks
                   (Topo.initial_state (working_set now inc st)))) as Hready.
  { intros t Ht Hd.
    destruct (initial_ready _ Hids t) as [_ Hin];
      [done|by apply (pair_not_blocking _ a b)|].
    by apply (list_elem_of_fmap_2 Heap.entry_task) in Hin. }
  destruct (Hrank now inc st 0%nat
              (Topo.initial_state (working_set now inc st)) b a Hwf)
    as (out & Hout & Hbefore); [done| | | |].
  - apply Hready; [done|]. intros d Hd. apply Hdeps, elem_of_app. by right.
  - apply Hready; [done|]. intros d Hd. apply Hdeps, elem_of_app. by left.
  - left. rewrite (working_set_score _ _ _ _ Ha), (working_set_score _ _ _ _ Hb).
    pose proof (score_without_deadline now a Hda Hca).
    pose proof (score_without_deadline now b Hdb Hcb). lia.
  - destruct (topological_sort_total _ Hids) as (main & _ & Htopo & _ & _ & Hp).
    assert (out = main ++ Topo.remaining_tasks (working_set now inc st) main)
      as Heq by (unfold ordered, get_sorted_tasks in Hout; cbn [snd] in Hout;
                 congruence).
    rewrite Hout. f_equal. apply perm_pair_before; [|done].
    by rewrite Heq, Hp.
Qed.

(** ** Dependencies and the order of emission *)

Section dependency_order.
Import Heap Topo LoopInv.
Variable ts : list Task.
Hypothesis ids_NoDup : NoDup (task_id <$> ts).

Lemma emitted_dependency_first (t x : Task) (main : list Task) :
  main_loop ts = Some main → t ∈ ts → x ∈ ts →
  task_id x ∈ dependencies t → completed x = false →
  no_completed_dep ts t → x ∈ main →
  before x t (main ++ remaining_tasks ts main).
Proof using ids_NoDup.
  intros Hmain Ht Hx Hdep Hxc Hclean Hxm.
  destruct (main_loop_total ts ids_NoDup)
    as (n & s' & _ & _ & [_ _ Hord] & Hmain').
  assert (main = sorted_tasks s') as -> by congruence.
  destruct (decide (t ∈ sorted_tasks s')) as [Hin|Hout].
  - apply before_app_l.
    apply list_elem_of_split in Hin as (pre & post & Heq).
    pose proof (Hord t x pre post Heq Hclean Hx Hxc Hdep) as Hpre.
    apply list_elem_of_split in Hpre as (p1 & p2 & ->).
    exists p1, p2, post. by rewrite Heq, <- app_assoc.
  - apply before_split; [done|]. unfold remaining_tasks.
    rewrite sort_by_key_perm. by apply list_elem_of_filter.
Qed.

(** A task from which no dependency cycle can be reached leaves the
    queue in the loop. *)
Lemma resolvable_emitted (d : Task) :
  resolvable ts d → emitted_by_loop ts d.
Proof using ids_NoDup.
  destruct (main_loop_total ts ids_NoDup)
    as (n & s' & _ & Hnil & [[_ _ _ _ Hpush] Hcount _] & Hmain).
  intros Hres. exists (sorted_tasks s'). split; [done|].
  rewrite Hnil in Hpush. cbn in Hpush.
  induction Hres as [d Hd Hdc Hnd Hclean _ IH].
  apply Hpush; [done|]. rewrite Hcount, Hdc by done.
  assert (blocking_deps ts d ⊆+
            task_id <$> popped_deps d (sorted_tasks s')) as Hsub.
  { apply NoDup_submseteq; [done|]. intros k Hk.
    apply list_elem_of_filter in Hk as [Hb Hk].
    unfold blocking_in in Hb.
    apply Exists_exists in Hb as (x & Hx & <- & Hxc).
    apply list_elem_of_fmap_2, list_elem_of_filter. split; [done|].
    by apply IH. }
  apply submseteq_length in Hsub. rewrite length_fmap in Hsub. lia.
Qed.
End dependency_order.

(** C1 (as amended). In every call of [ordered], if a task [t] of the
    working set names as a dependency a task [d] of the working set that
    is not completed, [d] is emitted by the loop (not left to the batch of
    the cycle fallback), and [t] names no completed task of the working
    set, then [d] occurs strictly before [t] in the list returned. And [d]
    is emitted by the loop whenever no dependency cycle can be reached
    from it ([resolvable]). *)
Theorem ordered_respects_emitted_dependency :
  (∀ (now : datetime) (include_completed : bool) (st : TaskManager)
     (t d : Task),
     well_keyed st →
     t ∈ working_set now include_completed st →
     d ∈ working_set now include_completed st →
     task_id d ∈ dependencies t → completed d = false →
     no_completed_dep (working_set now include_completed st) t →
     emitted_by_loop (working_set now include_completed st) d →
     ∃ out, ordered now include_completed st = Some out ∧ before d t out) ∧
  (∀ (now : datetime) (include_completed : bool) (st : TaskManager)
     (d : Task),
     well_keyed st →
     resolvable (working_set now include_completed st) d →
     emitted_by_loop (working_set now include_completed st) d).
Proof.
  split.
  - intros now inc st t d Hwf Ht Hd Hdep Hdc Hclean (main & Hmain & Hdm).
    pose proof (working_set_ids now inc st Hwf) as Hids.
    destruct (topological_sort_total _ Hids) as (main' & Hmain' & Htopo & _).
    assert (main' = main) as -> by congruence.
    eexists. split; [exact Htopo|].
    by apply emitted_dependency_first.
  - intros now inc st d Hwf Hres. apply resolvable_emitted; [|done].
    by apply working_set_ids.
Qed.

Lemma before_nil {A : Type} (x y : A) : ¬ before x y [].
Proof. intros (l1 & l2 & l3 & H). by destruct l1. Qed.

Lemma before_cons_inv {A : Type} (x y z : A) (l : list A) :
  before x y (z :: l) → (x = z ∧ y ∈ l) ∨ before x y l.
Proof.
  intros (l1 & l2 & l3 & H). destruct l1 as [|w l1]; simplify_eq/=.
  - left. split; [done|]. apply elem_of_app. right. left.
  - right. by exists l1, l2, l3.
Qed.

(** C1 (as stated) fails behind a cycle. In [behind_cycle] task 4 depends
    on task 3, which is in the working set and not completed; the
    dependencies of task 3 lead neither back to task 4 nor to task 3
    itself, but to tasks 1 and 2, which depend on each other. Nothing is
    ever ready, and the batch puts task 4, the most urgent, first: before
    task 3. *)
Lemma ordered_dependency_behind_cycle :
  ∃ t d e f,
    working_set 0 false Examples.behind_cycle = [e; f; d; t] ∧
    task_id d ∈ dependencies t ∧ completed d = false ∧
    ¬ cycle_back (working_set 0 false Examples.behind_cycle) d t ∧
    ¬ cycle_back (working_set 0 false Examples.behind_cycle) d d ∧
    ordered 0 false Examples.behind_cycle = Some [t; e; f; d] ∧
    ¬ before d t [t; e; f; d].
Proof.
  do 4 eexists. split; [vm_compute; reflexivity|].
  split; [by left|]. split; [done|].
  assert (∀ x y, tc (depends_on (working_set 0 false Examples.behind_cycle))
                   x y → 1 ≤ task_id x ≤ 3 → 1 ≤ task_id y ≤ 2) as Hclosed.
  { assert (∀ x y, depends_on (working_set 0 false Examples.behind_cycle)
                     x y → 1 ≤ task_id x ≤ 3 → 1 ≤ task_id y ≤ 2) as Hedge.
    { intros x y (Hx & _ & Hdep) Hid. vm_compute in Hx.
      repeat (apply elem_of_cons in Hx as [->|Hx];
              [apply list_elem_of_singleton in Hdep; simpl in *; lia|]).
      by apply elem_of_nil in Hx. }
    induction 1 as [x y Hxy|x y z Hxy _ IH]; intros Hid;
      [by apply (Hedge x y)|].
    apply IH. pose proof (Hedge x y Hxy Hid). lia. }
  split; [|split; [|split; [by vm_compute|]]].
  - intros Hback. apply Hclosed in Hback; simpl in *; lia.
  - intros Hback. apply Hclosed in Hback; simpl in *; lia.
  - intros H. do 3 (apply before_cons_inv in H as [[[=] _]|H]).
    apply before_cons_inv in H as [[_ Hin]|H];
      [by apply elem_of_nil in Hin|by apply before_nil in H].
Qed.

(** The loop also decrements an in-degree when a completed task is
    emitted, although such a task was not counted. With
    [include_completed], task 3 of [completed_dependency] is pushed when
    the completed task 1 is emitted and comes out before task 2, on which
    it depends and which is not completed. *)
Lemma ordered_completed_dependency_slip :
  (λ out : list Task, task_id <$> out)
    <$> ordered 0 true Examples.completed_dependency = Some [1; 3; 2] ∧
  dependencies <$> dict_get 3 (tasks Examples.completed_dependency)
    = Some [1; 2] ∧
  completed <$> dict_get 2 (tasks Examples.completed_dependency)
    = Some false.
Proof. repeat split; by vm_compute. Qed.

(** ** The batch of the cycle fallback *)

Lemma values_ids (d : list (Z * Task)) :
  Forall (λ kv, kv.1 = task_id kv.2) d → task_id <$> d.*2 = d.*1.
Proof.
  induction 1 as [|[k t] d Hkt _ IH]; [done|].
  rewrite !fmap_cons, IH. simpl in *. by rewrite Hkt.
Qed.

Lemma StronglySorted_fmap_inv {A B : Type} (f : A → B) (R : relation B)
    (l : list A) :
  StronglySorted R (f <$> l) → StronglySorted (λ a b, R (f a) (f b)) l.
Proof.
  induction l as [|x l IH]; [constructor|]. rewrite fmap_cons.
  intros [Hl Hx]%StronglySorted_inv. constructor; [by apply IH|].
  rewrite Forall_forall in Hx. apply Forall_forall. intros y Hy.
  by apply Hx, list_elem_of_fmap_2.
Qed.

Lemma StronglySorted_weaken {A : Type} (R1 R2 : relation A) (l : list A) :
  (∀ x y, R1 x y → R2 x y) → StronglySorted R1 l → StronglySorted R2 l.
Proof.
  intros HR. induction 1 as [|x l Hl IH Hx]; constructor; [done|].
  eapply Forall_impl; [exact Hx|]. by intros y; apply HR.
Qed.

Lemma working_set_ascending (now : datetime) (include_completed : bool)
    (st : TaskManager) :
  well_keyed st → ids_ascending st →
  StronglySorted (λ a b, task_id a < task_id b)
    (working_set now include_completed st).
Proof.
  intros [_ Hk] Hasc. unfold ids_ascending in Hasc.
  rewrite <- (values_ids _ Hk) in Hasc. apply StronglySorted_fmap_inv in Hasc.
  unfold working_set, dict_values.
  apply (StronglySorted_fmap (rescore now) (λ a b, task_id a < task_id b));
    [done|].
  destruct include_completed; [done|]. by apply StronglySorted_filter.
Qed.

Lemma filter_not_in_nil (ts : list Task) : filter (λ t, t ∉ []) ts = ts.
Proof.
  induction ts as [|t ts IH]; [done|].
  rewrite filter_cons_True by apply not_elem_of_nil. by rewrite IH.
Qed.

Lemma main_loop_nothing_ready (ts : list Task) :
  NoDup (task_id <$> ts) →
  (∀ t, t ∈ ts → blocking_deps ts t ≠ []) →
  Topo.main_loop ts = Some [].
Proof.
  intros Hids Hall.
  assert (Topo.available_tasks (Topo.initial_state ts) = []) as Hnil.
  { unfold Topo.initial_state. cbn.
    pose proof (initial_available_spec ts (Topo.calc_in_degree ts)) as Hp.
    rewrite filter_none in Hp.
    - apply Permutation_nil_r in Hp. by apply fmap_nil_inv in Hp.
    - intros t Ht. rewrite calc_in_degree_lookup by done.
      specialize (Hall t Ht). destruct (blocking_deps ts t); [done|].
      simpl. lia. }
  unfold Topo.main_loop. rewrite loop_unfold.
  by rewrite (proj2 (step_None ts _) Hnil).
Qed.

Lemma sorted_pair (a b : Task) (l : list Task) :
  l ≡ₚ [a; b] → priority_score a < priority_score b →
  StronglySorted (λ x y, priority_score y ≤ priority_score x) l →
  l = [b; a].
Proof.
  intros Hp Hlt Hs. symmetry in Hp.
  apply Permutation_length_2_inv in Hp as [->| ->]; [|done].
  apply StronglySorted_inv in Hs as [_ Hs].
  apply Forall_cons in Hs as [Hs _]. lia.
Qed.

(** C4 (as amended). Whenever the queue empties while tasks of the working
    set remain, [ordered] does not fail and appends all of them in one
    batch, sorted by score descending; tasks of equal score keep the order
    they have in the working set, which is the insertion order of the
    collection: ascending id whenever the ids of the collection ascend
    along that order. In particular, when the working set consists of A
    (urgency 5) and B (urgency 9), not completed, created by now, without
    deadlines and each naming the other as a dependency, nothing is ever
    ready and [ordered] returns [B; A]. *)
Theorem cycle_fallback_batch :
  (∀ (now : datetime) (include_completed : bool) (st : TaskManager),
     well_keyed st →
     ∃ main,
       Topo.main_loop (working_set now include_completed st) = Some main ∧
       ordered now include_completed st =
         Some (main ++
               Topo.remaining_tasks (working_set now include_completed st)
                 main) ∧
       Topo.remaining_tasks (working_set now include_completed st) main ≡ₚ
         filter (λ t, t ∉ main) (working_set now include_completed st) ∧
       StronglySorted (λ a b, priority_score b ≤ priority_score a)
         (Topo.remaining_tasks (working_set now include_completed st)
            main) ∧
       (∀ k, filter (λ t, priority_score t = k)
               (Topo.remaining_tasks (working_set now include_completed st)
                  main) =
             filter (λ t, priority_score t = k)
               (filter (λ t, t ∉ main)
                  (working_set now include_completed st))) ∧
       (ids_ascending st →
        StronglySorted outranks
          (Topo.remaining_tasks (working_set now include_completed st)
             main))) ∧
  (∀ (now : datetime) (include_completed : bool) (st : TaskManager)
     (a b : Task),
     well_keyed st →
     working_set now include_completed st ≡ₚ [a; b] →
     urgency a = 5 → urgency b = 9 →
     deadline a = None → deadline b = None →
     created_at a ≤ now → created_at b ≤ now →
     completed a = false → completed b = false →
     task_id b ∈ dependencies a → task_id a ∈ dependencies b →
     Topo.main_loop (working_set now include_completed st) = Some [] ∧
     ordered now include_completed st = Some [b; a]).
Proof.
  assert (∀ (now : datetime) (inc : bool) (st : TaskManager),
     well_keyed st →
     ∃ main,
       Topo.main_loop (working_set now inc st) = Some main ∧
       ordered now inc st =
         Some (main ++ Topo.remaining_tasks (working_set now inc st) main) ∧
       Topo.remaining_tasks (working_set now inc st) main ≡ₚ
         filter (λ t, t ∉ main) (working_set now inc st) ∧
       StronglySorted (λ a b, priority_score b ≤ priority_score a)
         (Topo.remaining_tasks (working_set now inc st) main) ∧
       (∀ k, filter (λ t, priority_score t = k)
               (Topo.remaining_tasks (working_set now inc st) main) =
             filter (λ t, priority_score t = k)
               (filter (λ t, t ∉ main) (working_set now inc st))) ∧
       (ids_ascending st →
        StronglySorted outranks
          (Topo.remaining_tasks (working_set now inc st) main))) as Hbatch.
  { intros now inc st Hwf.
    pose proof (working_set_ids now inc st Hwf) as Hids.
    destruct (topological_sort_total _ Hids) as (main & Hmain & Htopo & _).
    exists main. split; [done|]. split; [done|]. unfold Topo.remaining_tasks.
    split; [apply sort_by_key_perm|]. split; [|split].
    - eapply StronglySorted_weaken; [|apply sort_by_key_sorted].
      simpl. intros; lia.
    - intros k.
      pose proof (sort_by_key_stable (λ x : Task, - priority_score x) (- k)
                    (filter (λ t, t ∉ main) (working_set now inc st))) as Hst.
      erewrite (list_filter_iff (λ t, priority_score t = k)),
        (list_filter_iff (λ t, priority_score t = k) _
           (filter _ (working_set _ _ _))); [exact Hst| |];
        intros t; simpl; lia.
    - intros Hasc. apply sort_by_score_id, StronglySorted_filter.
      by apply working_set_ascending. }
  split; [exact Hbatch|].
  intros now inc st a b Hwf HW Hua Hub Hda Hdb Hca Hcb Hac Hbc Hab Hba.
  pose proof (working_set_ids now inc st Hwf) as Hids.
  assert (a ∈ working_set now inc st) as Ha by (rewrite HW; left).
  assert (b ∈ working_set now inc st) as Hb by (rewrite HW; right; left).
  assert (Topo.main_loop (working_set now inc st) = Some []) as Hmain.
  { apply main_loop_nothing_ready; [done|]. intros t Ht. rewrite HW in Ht.
    assert (∀ x y, x ∈ working_set now inc st →
              completed x = false → task_id x ∈ dependencies y →
              blocking_deps (working_set now inc st) y ≠ []) as Hblocked.
    { intros x y Hx Hxc Hdep Hnil.
      assert (task_id x ∈ blocking_deps (working_set now inc st) y) as Hin
        by (apply list_elem_of_filter; split;
              [by apply blocking_in_iff|done]).
      rewrite Hnil in Hin. by apply elem_of_nil in Hin. }
    apply elem_of_cons in Ht as [->|Ht]; [by apply (Hblocked b)|].
    apply list_elem_of_singleton in Ht as ->. by apply (Hblocked a). }
  split; [done|].
  destruct (Hbatch now inc st Hwf)
    as (main & Hmain' & Hordered & Hperm & Hsorted & _).
  assert (main = []) as -> by congruence.
  rewrite Hordered. cbn [app]. f_equal.
  rewrite filter_not_in_nil in Hperm.
  apply sorted_pair; [by rewrite Hperm| |done].
  rewrite (working_set_score _ _ _ _ Ha), (working_set_score _ _ _ _ Hb).
  pose proof (score_without_deadline now a Hda Hca).
  pose proof (score_without_deadline now b Hdb Hcb). lia.
Qed.

(** C4 (as stated) fails on the tie-break. [file_descending] loads; the
    collection holds task 2 before task 1, of equal score and depending on
    each other. Nothing is ever ready, and the batch keeps task 2 before
    task 1. *)
Lemma fallback_batch_in_storage_order :
  (load_from_json DecimalClock.isoformat DecimalClock.fromisoformat 0
     (Some Examples.file_descending) TaskManager_init).2 = true ∧
  well_keyed Examples.loaded_descending ∧
  ∃ a b,
    Topo.main_loop (working_set 0 false Examples.loaded_descending)
      = Some [] ∧
    ordered 0 false Examples.loaded_descending = Some [a; b] ∧
    priority_score a = priority_score b ∧ task_id a = 2 ∧ task_id b = 1 ∧
    ¬ outranks a b.
Proof.
  split; [by vm_compute|]. split.
  { split; [apply (bool_decide_unpack _); by vm_compute|].
    vm_compute. by repeat constructor. }
  do 2 eexists. split; [by vm_compute|].
  split; [vm_compute; reflexivity|].
  split; [done|]. split; [done|]. split; [done|].
  unfold outranks. simpl. lia.
Qed.

(** ** The theorems at concrete collections *)

Ltac concrete_well_keyed :=
  split; [apply (bool_decide_unpack _); by vm_compute
         |vm_compute; by repeat constructor].

Ltac concrete_elem_of := apply (bool_decide_unpack _); by vm_compute.

(** [ordered] on the collection whose three tasks are all behind a
    cycle. *)
Lemma ordered_total_permutation_witness :
  ∃ out, ordered 0 false Examples.behind_cycle = Some out ∧
         out ≡ₚ working_set 0 false Examples.behind_cycle ∧ NoDup out.
Proof. apply ordered_total_permutation. concrete_well_keyed. Defined.

(** Task C of [dangling] is ready at once. *)
Lemma unblocking_dependencies_are_ready_witness :
  initially_ready (working_set 0 false Examples.dangling)
    (mkTask 1 "C" "" None 5 [999] false 0 50).
Proof.
  apply (unblocking_dependencies_are_ready 0 false Examples.dangling
           (mkTask 1 "C" "" None 5 [999] false 0 50)).
  - concrete_well_keyed.
  - concrete_elem_of.
  - reflexivity.
  - vm_compute. intros H. apply list_elem_of_singleton in H. lia.
Defined.

(** B and A of [two_independent] are on the queue together when the loop
    starts, and [ordered] returns [B; A]. *)
Lemma ready_tasks_emitted_by_rank_witness :
  (∃ out, ordered 0 false (Examples.two_independent 0 0) = Some out ∧
          before (mkTask 2 "B" "" None 9 [] false 0 90)
                 (mkTask 1 "A" "" None 5 [] false 0 50) out) ∧
  ordered 0 false (Examples.two_independent 0 0) =
    Some [mkTask 2 "B" "" None 9 [] false 0 90;
          mkTask 1 "A" "" None 5 [] false 0 50].
Proof.
  assert (well_keyed (Examples.two_independent 0 0)) as Hwf
    by concrete_well_keyed.
  split.
  - apply (proj1 ready_tasks_emitted_by_rank 0 false
             (Examples.two_independent 0 0) 0%nat
             (Topo.initial_state
                (working_set 0 false (Examples.two_independent 0 0)))).
    + exact Hwf.
    + reflexivity.
    + concrete_elem_of.
    + concrete_elem_of.
    + left. vm_compute. reflexivity.
  - apply (proj2 (proj2 ready_tasks_emitted_by_rank) 0 false
             (Examples.two_independent 0 0)); try reflexivity.
    + exact Hwf.
    + intros d Hd. by apply elem_of_nil in Hd.
Defined.

(** The batch for [behind_cycle], and [B; A] for [two_cyclic]. *)
Lemma cycle_fallback_batch_witness :
  (∃ main,
     Topo.main_loop (working_set 0 false Examples.behind_cycle) = Some main ∧
     ordered 0 false Examples.behind_cycle =
       Some (main ++
             Topo.remaining_tasks (working_set 0 false Examples.behind_cycle)
               main)) ∧
  ordered 0 false (Examples.two_cyclic 0 0) =
    Some [mkTask 2 "B" "" None 9 [1] false 0 90;
          mkTask 1 "A" "" None 5 [2] false 0 50].
Proof.
  split.
  - destruct (proj1 cycle_fallback_batch 0 false Examples.behind_cycle)
      as (main & Hmain & Hordered & _).
    + concrete_well_keyed.
    + exists main. split; [exact Hmain|exact Hordered].
  - apply (proj2 cycle_fallback_batch 0 false (Examples.two_cyclic 0 0));
      try reflexivity.
    + concrete_well_keyed.
    + by left.
    + by left.
Defined.

(** Task 1 of [chain] has no dependencies, so no cycle can be reached from
    it; it comes before task 2, which depends on it, although task 2 has
    the higher score. *)
Lemma ordered_respects_emitted_dependency_witness :
  ∃ out, ordered 0 false Examples.chain = Some out ∧
         before (mkTask 1 "first" "" None 5 [] false 0 50)
                (mkTask 2 "second" "" None 9 [1] false 0 90) out.
Proof.
  assert (well_keyed Examples.chain) as Hwf by concrete_well_keyed.
  apply (proj1 ordered_respects_emitted_dependency 0 false Examples.chain);
    [exact Hwf|concrete_elem_of|concrete_elem_of|by left|reflexivity| |].
  - intros c Hc Hcc. vm_compute in Hc.
    apply elem_of_cons in Hc as [->|Hc]; [discriminate Hcc|].
    apply list_elem_of_singleton in Hc as ->. discriminate Hcc.
  - apply (proj2 ordered_respects_emitted_dependency 0 false Examples.chain
             _ Hwf).
    constructor; [concrete_elem_of|reflexivity|constructor| |].
    + intros c _ _ Hin. by apply elem_of_nil in Hin.
    + intros x _ _ Hin. by apply elem_of_nil in Hin.
Defined.

(** * Further properties of the code *)

(** ** The score *)

Lemma deadline_score_cases (now : datetime) (t : Task) (dl : datetime) :
  deadline t = Some dl →
  let days := timedelta_days dl now in
  (days < 0 ∧ Score.deadline_score now t = 200) ∨
  (days = 0 ∧ Score.deadline_score now t = 100) ∨
  (1 ≤ days ≤ 3 ∧ Score.deadline_score now t = 80 - days * 20) ∨
  (4 ≤ days ≤ 7 ∧ Score.deadline_score now t = 40 - days * 5) ∨
  (8 ≤ days ∧ Score.deadline_score now t = Z.max 0 (20 - days)).
Proof.
  intros Hdl. unfold Score.deadline_score. rewrite Hdl. cbv zeta.
  destruct (Z.ltb_spec (timedelta_days dl now) 0); [by left|].
  destruct (Z.eqb_spec (timedelta_days dl now) 0); [by right; left|].
  destruct (Z.leb_spec (timedelta_days dl now) 3);
    [right; right; left; split; [lia|done]|].
  destruct (Z.leb_spec (timedelta_days dl now) 7);
    [right; right; right; left; split; [lia|done]|].
  right; right; right; right. split; [lia|done].
Qed.

Lemma timedelta_days_neg (a b : datetime) : timedelta_days a b < 0 ↔ a < b.
Proof.
  unfold timedelta_days, day_us. split.
  - intros H. destruct (Z.lt_ge_cases a b) as [|Hge]; [done|].
    assert (0 ≤ (a - b) `div` 86400000000) by (apply Z.div_pos; lia). lia.
  - intros H. apply Z.div_lt_upper_bound; lia.
Qed.

Lemma timedelta_days_zero (a b : datetime) :
  timedelta_days a b = 0 ↔ b ≤ a < b + day_us.
Proof.
  unfold timedelta_days, day_us.
  rewrite (Z.div_small_iff (a - b) 86400000000) by lia. lia.
Qed.

(** X1. Without a deadline the deadline term is 0 and with one it lies
    between 0 and 200; for a task not created in the future the age term
    lies between 0 and 20, so the score lies between [urgency * 10] and
    [urgency * 10 + 220]. *)
Theorem score_range (now : datetime) (t : Task) :
  created_at t ≤ now →
  0 ≤ Score.deadline_score now t ≤ 200 ∧
  (deadline t = None → Score.deadline_score now t = 0) ∧
  0 ≤ Score.age_score now t ≤ 20 ∧
  urgency t * 10 ≤ (calculate_priority_score now t).2
    ≤ urgency t * 10 + 220.
Proof.
  intros Hc. pose proof (age_score_range now t Hc) as Hage.
  assert (0 ≤ Score.deadline_score now t ≤ 200) as Hdl.
  { destruct (deadline t) as [dl|] eqn:Hd.
    - pose proof (deadline_score_cases now t dl Hd) as H. cbv zeta in H.
      lia.
    - unfold Score.deadline_score. rewrite Hd. lia. }
  split; [done|]. split.
  - intros Hd. unfold Score.deadline_score. by rewrite Hd.
  - split; [done|]. simpl. unfold Score.score, Score.base_score. lia.
Qed.

Lemma score_range_witness :
  urgency (mkTask 1 "late" "" (Some 5) 3 [] false 0 0) * 10
    ≤ (calculate_priority_score day_us
         (mkTask 1 "late" "" (Some 5) 3 [] false 0 0)).2
    ≤ urgency (mkTask 1 "late" "" (Some 5) 3 [] false 0 0) * 10 + 220.
Proof.
  apply (score_range day_us (mkTask 1 "late" "" (Some 5) 3 [] false 0 0)).
  vm_compute. discriminate.
Defined.

(** X2. The deadline term never rises as the deadline moves away, as long
    as both deadlines are at most 7 days off or both at least 8; between
    7 and 8 days it rises, from 5 to 12. *)
Theorem deadline_score_monotone_but_at_week (now : datetime) (t1 t2 : Task)
    (dl1 dl2 : datetime) :
  deadline t1 = Some dl1 → deadline t2 = Some dl2 →
  (dl1 ≤ dl2 →
   timedelta_days dl2 now ≤ 7 ∨ 8 ≤ timedelta_days dl1 now →
   Score.deadline_score now t2 ≤ Score.deadline_score now t1) ∧
  (timedelta_days dl1 now = 7 → timedelta_days dl2 now = 8 →
   Score.deadline_score now t1 = 5 ∧ Score.deadline_score now t2 = 12).
Proof.
  intros H1 H2.
  pose proof (deadline_score_cases now t1 dl1 H1) as C1.
  pose proof (deadline_score_cases now t2 dl2 H2) as C2. cbv zeta in *.
  split.
  - intros Hle Hside.
    assert (timedelta_days dl1 now ≤ timedelta_days dl2 now)
      by (unfold timedelta_days, day_us; apply Z.div_le_mono; lia).
    lia.
  - intros H7 H8. lia.
Qed.

Lemma deadline_score_monotone_but_at_week_witness :
  Score.deadline_score 0 (mkTask 1 "a" "" (Some (7 * day_us)) 5 [] false 0 0)
    = 5 ∧
  Score.deadline_score 0 (mkTask 2 "b" "" (Some (8 * day_us)) 5 [] false 0 0)
    = 12.
Proof.
  apply (deadline_score_monotone_but_at_week 0
           (mkTask 1 "a" "" (Some (7 * day_us)) 5 [] false 0 0)
           (mkTask 2 "b" "" (Some (8 * day_us)) 5 [] false 0 0)
           (7 * day_us) (8 * day_us)); reflexivity.
Defined.

(** X3. The deadline term is 200 exactly for a deadline that has passed,
    and 100 exactly for a deadline within the next 24 hours, whatever the
    calendar date. *)
Theorem deadline_score_windows (now : datetime) (t : Task) :
  (Score.deadline_score now t = 200 ↔
   ∃ dl, deadline t = Some dl ∧ dl < now) ∧
  (Score.deadline_score now t = 100 ↔
   ∃ dl, deadline t = Some dl ∧ now ≤ dl < now + day_us).
Proof.
  destruct (deadline t) as [dl|] eqn:Hd.
  - pose proof (deadline_score_cases now t dl Hd) as C. cbv zeta in C.
    pose proof (timedelta_days_neg dl now) as Hneg.
    pose proof (timedelta_days_zero dl now) as Hzero.
    split; (split; [intros Hs; exists dl; split; [done|]
                   |intros (dl' & [= <-] & Hw)]); lia.
  - unfold Score.deadline_score. rewrite Hd.
    split; (split; [done|by intros (dl' & [=] & _)]).
Qed.

(** ** Adding, completing and deleting *)

Lemma dict_set_length {V : Type} (k : Z) (v : V) (d : list (Z * V)) :
  length (dict_set k v d) =
    if decide (k ∈ d.*1) then length d else S (length d).
Proof.
  rewrite <- (length_fmap fst (dict_set k v d)), dict_set_keys.
  destruct (decide (k ∈ d.*1)); [by rewrite length_fmap|].
  rewrite length_app, length_fmap. simpl. lia.
Qed.

Lemma dict_get_None {V : Type} (k : Z) (d : list (Z * V)) :
  dict_get k d = None ↔ k ∉ d.*1.
Proof.
  induction d as [|[k' v] d IH]; simpl.
  - split; [intros _; apply not_elem_of_nil|done].
  - rewrite not_elem_of_cons. destruct (decide (k = k')) as [->|Hne].
    + split; [done|by intros [? _]].
    + rewrite IH. split; [done|by intros [_ ?]].
Qed.

Lemma dict_del_get {V : Type} (k : Z) (d : list (Z * V)) :
  NoDup d.*1 → dict_get k (dict_del k d) = None.
Proof.
  induction d as [|[k' v] d IH]; [done|]. rewrite fmap_cons.
  intros [Hk Hd]%NoDup_cons. cbn [dict_del].
  destruct (decide (k = k')) as [->|Hne].
  - by apply dict_get_None.
  - cbn [dict_get]. rewrite decide_False by done. by apply IH.
Qed.


(** X4. [add_task] returns the old [next_id] and raises [next_id] by one.
    Under the returned id the collection holds the task with the given
    attributes, not completed, created now, and scored
    [urgency * 10 + deadline term] (the age term of a new task is 0).
    Every other key holds the task it held, with its score recomputed.
    The collection grows by one task unless the id was already in use. *)
Theorem add_task_effect (now : datetime) (ttl descr : string)
    (dl : option datetime) (urg : Z) (deps : option (list Z))
    (st : TaskManager) :
  (add_task now ttl descr dl urg deps st).2 = next_id st ∧
  next_id (add_task now ttl descr dl urg deps st).1 = next_id st + 1 ∧
  dict_get (next_id st) (tasks (add_task now ttl descr dl urg deps st).1) =
    Some (mkTask (next_id st) ttl descr dl urg (default [] deps) false now
            (urg * 10 +
             Score.deadline_score now
               (Task_init now (next_id st) ttl descr dl urg deps))) ∧
  (∀ k, k ≠ next_id st →
     dict_get k (tasks (add_task now ttl descr dl urg deps st).1) =
       rescore now <$> dict_get k (tasks st)) ∧
  length (tasks (add_task now ttl descr dl urg deps st).1) =
    if decide (next_id st ∈ (tasks st).*1) then length (tasks st)
    else S (length (tasks st)).
Proof.
  unfold add_task. cbn [fst snd _update_priorities tasks next_id Task_init
    task_id].
  split; [done|]. split; [done|]. split; [|split].
  - rewrite dict_get_fmap, dict_get_set, decide_True by done. simpl.
    unfold rescore, calculate_priority_score, set_priority_score. simpl.
    do 2 f_equal. unfold Score.score, Score.base_score, Score.age_score,
      timedelta_days. simpl.
    replace (now - now) with 0 by lia. change (0 `div` day_us) with 0. lia.
  - intros k Hne. by rewrite dict_get_fmap, dict_get_set, decide_False.
  - by rewrite length_fmap, dict_set_length.
Qed.



(** X6. When [next_id] is the id of a stored task, as after loading a
    file whose [next_id] is not above its ids, [add_task] puts the new
    task in the place of the stored one: the collection does not grow
    and the task that was stored under that id is gone. *)
Theorem add_task_replaces_on_collision (now : datetime) (ttl descr : string)
    (dl : option datetime) (urg : Z) (deps : option (list Z))
    (st : TaskManager) (old : Task) :
  dict_get (next_id st) (tasks st) = Some old →
  length (tasks (add_task now ttl descr dl urg deps st).1)
    = length (tasks st) ∧
  (tasks (add_task now ttl descr dl urg deps st).1).*1 = (tasks st).*1 ∧
  ∃ new, dict_get (next_id st)
           (tasks (add_task now ttl descr dl urg deps st).1) = Some new ∧
         title new = ttl ∧ created_at new = now.
Proof.
  intros Hold.
  assert (next_id st ∈ (tasks st).*1) as Hin.
  { apply dict_get_elem_of in Hold.
    by apply (list_elem_of_fmap_2 fst _ (next_id st, old)). }
  unfold add_task. cbn [fst _update_priorities tasks].
  split; [by rewrite length_fmap, dict_set_length, decide_True|]. split.
  - by rewrite keys_fmap_values, dict_set_keys, decide_True.
  - rewrite dict_get_fmap, dict_get_set, decide_True by done.
    eexists. split; [done|done].
Qed.

Lemma add_task_replaces_on_collision_witness :
  (load_from_json DecimalClock.isoformat DecimalClock.fromisoformat 0
     (Some Samples.file_stale_next_id) TaskManager_init).2 = true ∧
  title <$> dict_get 2 (tasks Samples.loaded_stale) = Some "second"%string ∧
  length (tasks (add_task 0 "new" "" None 5 None Samples.loaded_stale).1)
    = length (tasks Samples.loaded_stale).
Proof.
  split; [by vm_compute|]. split; [by vm_compute|].
  apply (add_task_replaces_on_collision 0 "new" "" None 5 None
           Samples.loaded_stale
           (mkTask 2 "second" "" None 5 [] false 0 50)).
  by vm_compute.
Defined.

Lemma dict_get_of_elem {V : Type} (k : Z) (v : V) (d : list (Z * V)) :
  NoDup d.*1 → (k, v) ∈ d → dict_get k d = Some v.
Proof.
  induction d as [|[k' v'] d IH]; [by intros _ ?%elem_of_nil|].
  rewrite fmap_cons. intros [Hk Hd]%NoDup_cons [[= -> ->]|Hin]%elem_of_cons;
    cbn [dict_get].
  - by rewrite decide_True.
  - rewrite decide_False; [by apply IH|]. intros ->. apply Hk.
    by apply (list_elem_of_fmap_2 fst _ (k', v)).
Qed.

(** X7. [complete_task] on an id that identifies no stored task returns
    [False] and changes nothing. On a stored id it returns [True]; the
    task is then completed, with its other attributes as before and its
    score recomputed, every other task is as before with its score
    recomputed, and the keys and their order are unchanged. *)
Theorem complete_task_effect (now : datetime) (tid : Z) (st : TaskManager) :
  (dict_get tid (tasks st) = None →
   complete_task now tid st = (st, false)) ∧
  (∀ t, dict_get tid (tasks st) = Some t →
     (complete_task now tid st).2 = true ∧
     dict_get tid (tasks (complete_task now tid st).1) =
       Some (rescore now (set_completed t)) ∧
     (∀ k, k ≠ tid →
        dict_get k (tasks (complete_task now tid st).1) =
          rescore now <$> dict_get k (tasks st)) ∧
     (tasks (complete_task now tid st).1).*1 = (tasks st).*1 ∧
     next_id (complete_task now tid st).1 = next_id st).
Proof.
  unfold complete_task. split.
  - by intros ->.
  - intros t Ht. rewrite Ht. cbn [fst snd _update_priorities tasks next_id].
    split; [done|]. split; [|split; [|split; [|done]]].
    + by rewrite dict_get_fmap, dict_get_set, decide_True.
    + intros k Hne. by rewrite dict_get_fmap, dict_get_set, decide_False.
    + rewrite keys_fmap_values, dict_set_keys, decide_True; [done|].
      apply dict_get_elem_of in Ht.
      by apply (list_elem_of_fmap_2 fst _ (tid, t)).
Qed.

Lemma complete_task_effect_witness :
  complete_task 0 7 Examples.chain = (Examples.chain, false) ∧
  completed <$> dict_get 1 (tasks (complete_task 0 1 Examples.chain).1)
    = Some true.
Proof.
  split.
  - apply (proj1 (complete_task_effect 0 7 Examples.chain)). by vm_compute.
  - destruct (proj2 (complete_task_effect 0 1 Examples.chain)
                (mkTask 1 "first" "" None 5 [] false 0 50))
      as (_ & Hget & _); [by vm_compute|].
    by rewrite Hget.
Defined.

(** X8. No operation of the manager sets a completed task back to
    pending: a stored task that is completed is still stored and
    completed after [edit_task] and [complete_task] with any arguments,
    after [delete_task] of another id, and after [add_task] unless the
    new task takes its id. *)
Theorem completed_is_permanent (now : datetime) (st : TaskManager) (k : Z)
    (t : Task) :
  dict_get k (tasks st) = Some t → completed t = true →
  (∀ tid ttl descr dl urg deps,
     completed <$>
       dict_get k (tasks (edit_task now tid ttl descr dl urg deps st).1)
     = Some true) ∧
  (∀ tid,
     completed <$> dict_get k (tasks (complete_task now tid st).1)
     = Some true) ∧
  (∀ tid, tid ≠ k →
     completed <$> dict_get k (tasks (delete_task now tid st).1)
     = Some true) ∧
  (∀ ttl descr dl urg deps, k ≠ next_id st →
     completed <$>
       dict_get k (tasks (add_task now ttl descr dl urg deps st).1)
     = Some true).
Proof.
  intros Hk Hc. split; [|split; [|split]].
  - intros tid ttl descr dl urg deps. unfold edit_task.
    destruct (dict_get tid (tasks st)) as [task|] eqn:Htid;
      cbn [fst _update_priorities tasks]; [|by rewrite Hk; simpl; f_equal].
    rewrite dict_get_fmap, dict_get_set.
    destruct (decide (k = tid)) as [->|Hne]; [|by rewrite Hk; simpl; f_equal].
    assert (task = t) as -> by congruence. simpl. by f_equal.
  - intros tid. unfold complete_task.
    destruct (dict_get tid (tasks st)) as [task|] eqn:Htid;
      cbn [fst _update_priorities tasks]; [|by rewrite Hk; simpl; f_equal].
    rewrite dict_get_fmap, dict_get_set.
    destruct (decide (k = tid)) as [->|Hne]; [done|].
    rewrite Hk. simpl. by f_equal.
  - intros tid Hne. unfold delete_task.
    destruct (dict_contains tid (tasks st));
      cbn [fst _update_priorities tasks]; [|by rewrite Hk; simpl; f_equal].
    rewrite dict_get_fmap, dict_get_del_ne, dict_get_fmap, Hk by done.
    simpl. f_equal. unfold strip_dependency. by case_bool_decide.
  - intros ttl descr dl urg deps Hne. unfold add_task.
    cbn [fst _update_priorities tasks].
    rewrite dict_get_fmap, dict_get_set, decide_False, Hk by done.
    simpl. by f_equal.
Qed.

Lemma completed_is_permanent_witness :
  completed <$>
    dict_get 1 (tasks (edit_task 5 1 (Some "renamed"%string) None None
                         (Some 1) None Samples.done_first).1)
  = Some true.
Proof.
  apply (completed_is_permanent 5 Samples.done_first 1
           (mkTask 1 "first" "" None 5 [] true 0 50));
    by vm_compute.
Defined.

Lemma list_remove_first_absent (x : Z) (l : list Z) :
  x ∉ l → list_remove_first x l = l.
Proof.
  induction l as [|d l IH]; [done|]. intros [Hd Hl]%not_elem_of_cons.
  simpl. rewrite decide_False by done. by rewrite IH.
Qed.

Lemma strip_dependency_eq (tid : Z) (t : Task) :
  strip_dependency tid t =
    mkTask (task_id t) (title t) (description t) (deadline t) (urgency t)
           (list_remove_first tid (dependencies t))
           (completed t) (created_at t) (priority_score t).
Proof.
  unfold strip_dependency. case_bool_decide as Hin; [done|].
  rewrite list_remove_first_absent by done. by destruct t.
Qed.



(** ** Invariants of the collection *)




(** X11. Every operation leaves the collection a dictionary in which each
    task is stored under its own id: [add_task], [edit_task],
    [delete_task], [complete_task], [get_sorted_tasks], and
    [load_from_json] whatever the file and whether it succeeds or
    fails. *)
Theorem operations_keep_well_keyed (now : datetime) (st : TaskManager) :
  well_keyed st →
  (∀ ttl descr dl urg deps,
     well_keyed (add_task now ttl descr dl urg deps st).1) ∧
  (∀ tid ttl descr dl urg deps,
     well_keyed (edit_task now tid ttl descr dl urg deps st).1) ∧
  (∀ tid, well_keyed (delete_task now tid st).1) ∧
  (∀ tid, well_keyed (complete_task now tid st).1) ∧
  (∀ include_completed,
     well_keyed (get_sorted_tasks now include_completed st).1) ∧
  (∀ isoformat fromisoformat file,
     well_keyed (load_from_json isoformat fromisoformat now file st).1).
Proof.
  intros Hst. repeat split; intros.
  - by apply well_keyed_add_task.
  - by apply well_keyed_add_task.
  - by apply well_keyed_edit_task.
  - by apply well_keyed_edit_task.
  - by apply well_keyed_delete_task.
  - by apply well_keyed_delete_task.
  - by apply well_keyed_complete_task.
  - by apply well_keyed_complete_task.
  - by apply well_keyed_get_sorted_tasks.
  - by apply well_keyed_get_sorted_tasks.
  - by apply well_keyed_load_from_json.
  - by apply well_keyed_load_from_json.
Qed.

Lemma operations_keep_well_keyed_witness :
  well_keyed (load_from_json DecimalClock.isoformat
                DecimalClock.fromisoformat 0
                (Some Examples.file_missing_title) Examples.one_task).1.
Proof.
  apply (operations_keep_well_keyed 0 Examples.one_task).
  split; [apply (bool_decide_unpack _); by vm_compute
         |vm_compute; by repeat constructor].
Defined.

(** ** Completing or deleting a task unblocks its dependents *)

Lemma not_blocking_when_completed (now : datetime) (include_completed : bool)
    (st : TaskManager) (tid : Z) :
  well_keyed st →
  (∀ t, dict_get tid (tasks st) = Some t → completed t = true) →
  ¬ blocking_in (working_set now include_completed st) tid.
Proof.
  intros [Hnd Hk] Hdone Hb. unfold blocking_in in Hb.
  apply Exists_exists in Hb as (x & Hx & Hid & Hc).
  unfold working_set, dict_values in Hx.
  apply list_elem_of_fmap in Hx as (y & -> & Hy).
  assert (y ∈ (tasks st).*2) as Hy'
    by (destruct include_completed; [done|];
        by apply list_elem_of_filter in Hy as [_ ?]).
  apply list_elem_of_fmap in Hy' as ([k z] & -> & Hkz).
  rewrite Forall_forall in Hk. pose proof (Hk _ Hkz) as Hkey.
  simpl in *. subst tid. rewrite <- Hkey in Hdone.
  rewrite (Hdone z) in Hc; [done|]. by apply dict_get_of_elem.
Qed.

Lemma ready_when_only_dependency_done (now : datetime)
    (include_completed : bool) (st : TaskManager) (tid : Z) (t : Task) :
  well_keyed st →
  ¬ blocking_in (working_set now include_completed st) tid →
  t ∈ working_set now include_completed st →
  (∀ d, d ∈ dependencies t → d = tid) →
  initially_ready (working_set now include_completed st) t.
Proof.
  intros Hwf Hnb Ht Hdeps. apply initial_ready; [|done|].
  - by apply working_set_ids.
  - apply filter_none. intros d Hd. by rewrite (Hdeps d Hd).
Qed.

(** X12. After [complete_task] or [delete_task] has returned [True] for
    an id, no dependency entry with that id counts as blocking in any
    later call of [get_sorted_tasks], with either value of
    [include_completed]; a task of the working set whose dependency
    entries all name that id has in-degree zero and is on the queue
    before the loop starts. *)
Theorem completing_or_deleting_unblocks (now later : datetime)
    (include_completed : bool) (st : TaskManager) (tid : Z) :
  well_keyed st →
  ((complete_task now tid st).2 = true →
   ¬ blocking_in
       (working_set later include_completed (complete_task now tid st).1)
       tid ∧
   ∀ t, t ∈ working_set later include_completed
              (complete_task now tid st).1 →
        (∀ d, d ∈ dependencies t → d = tid) →
        initially_ready
          (working_set later include_completed (complete_task now tid st).1)
          t) ∧
  ((delete_task now tid st).2 = true →
   ¬ blocking_in
       (working_set later include_completed (delete_task now tid st).1)
       tid ∧
   ∀ t, t ∈ working_set later include_completed
              (delete_task now tid st).1 →
        (∀ d, d ∈ dependencies t → d = tid) →
        initially_ready
          (working_set later include_completed (delete_task now tid st).1)
          t).
Proof.
  intros Hwf. split.
  - intros Htrue.
    assert (¬ blocking_in
              (working_set later include_completed
                 (complete_task now tid st).1) tid) as Hnb.
    { apply not_blocking_when_completed;
        [by apply well_keyed_complete_task|].
      unfold complete_task in *.
      destruct (dict_get tid (tasks st)) as [task|] eqn:Hget; [|done].
      cbn [fst _update_priorities tasks].
      rewrite dict_get_fmap, dict_get_set, decide_True by done.
      by intros t [= <-]. }
    split; [done|]. intros t Ht Hd.
    apply (ready_when_only_dependency_done _ _ _ tid); try done.
    by apply well_keyed_complete_task.
  - intros Htrue.
    assert (¬ blocking_in
              (working_set later include_completed
                 (delete_task now tid st).1) tid) as Hnb.
    { apply not_blocking_when_completed;
        [by apply well_keyed_delete_task|].
      unfold delete_task in *.
      destruct (dict_contains tid (tasks st)); [|done].
      cbn [fst _update_priorities tasks].
      rewrite dict_get_fmap, dict_del_get; [done|].
      rewrite keys_fmap_values. apply Hwf. }
    split; [done|]. intros t Ht Hd.
    apply (ready_when_only_dependency_done _ _ _ tid); try done.
    by apply well_keyed_delete_task.
Qed.

Lemma completing_or_deleting_unblocks_witness :
  initially_ready
    (working_set 5 false (complete_task 0 1 Examples.chain).1)
    (mkTask 2 "second" "" None 9 [1] false 0 90).
Proof.
  assert (well_keyed Examples.chain) as Hwf.
  { split; [apply (bool_decide_unpack _); by vm_compute
           |vm_compute; by repeat constructor]. }
  destruct (completing_or_deleting_unblocks 0 5 false Examples.chain 1 Hwf)
    as [Hc _].
  destruct (Hc eq_refl) as [_ Hready]. apply Hready.
  - apply (bool_decide_unpack _); by vm_compute.
  - intros d Hd. by apply list_elem_of_singleton in Hd.
Defined.

(** ** Records and files *)

(** X13. [Task.from_dict] gives back the task [Task.to_dict] was applied
    to, with every attribute including the cached score, whatever the
    clock says, provided [fromisoformat] reads back what [isoformat]
    writes and [isoformat] never writes the empty string; so two tasks
    with the same record are the same task. *)
Theorem task_record_round_trip
    (isoformat : datetime → string) (fromisoformat : string → option datetime)
    (now : datetime) (t : Task) :
  (∀ d, fromisoformat (isoformat d) = Some d) →
  (∀ d, isoformat d ≠ ""%string) →
  from_dict isoformat fromisoformat now (to_dict isoformat t) = Ok t ∧
  ∀ t', to_dict isoformat t = to_dict isoformat t' → t = t'.
Proof.
  intros Hrb Hne.
  pose proof (from_dict_to_dict isoformat fromisoformat Hrb Hne now) as Hback.
  split; [apply Hback|]. intros t' Heq.
  pose proof (Hback t) as Ht. rewrite Heq, (Hback t') in Ht.
  by injection Ht.
Qed.

Lemma task_record_round_trip_witness :
  from_dict DecimalClock.isoformat DecimalClock.fromisoformat 77
    (to_dict DecimalClock.isoformat
       (mkTask 4 "report" "long" (Some 500) 8 [1; 2] true 300 123))
  = Ok (mkTask 4 "report" "long" (Some 500) 8 [1; 2] true 300 123).
Proof.
  apply (proj1 (task_record_round_trip DecimalClock.isoformat
                  DecimalClock.fromisoformat 77 _
                  DecimalClock_reads_back DecimalClock_nonempty)).
Defined.

(** X14. What [Task.from_dict] does with a record that lacks fields. A
    record without [task_id], or with an integer [task_id] but without
    [title], raises [KeyError] for that key. A record with an integer
    [task_id], a string [title], no other field but possibly a [deadline]
    that is null, empty or otherwise false, gives the task with empty
    description, no deadline, urgency 5, no dependencies, not completed,
    created at the time of the call, score 0. A [deadline] that is a
    non-empty string [fromisoformat] cannot read raises [ValueError]. *)
Theorem from_dict_missing_fields
    (isoformat : datetime → string) (fromisoformat : string → option datetime)
    (now : datetime) (data : list (string * json)) (id : Z) (ttl : string) :
  (∀ d, fromisoformat (isoformat d) = Some d) →
  (obj_get "task_id" data = None →
   from_dict isoformat fromisoformat now (JObj data)
     = Raise (KeyError "task_id")) ∧
  (obj_get "task_id" data = Some (JNum id) → obj_get "title" data = None →
   from_dict isoformat fromisoformat now (JObj data)
     = Raise (KeyError "title")) ∧
  (obj_get "task_id" data = Some (JNum id) →
   obj_get "title" data = Some (JStr ttl) →
   obj_get "description" data = None →
   (∀ j, obj_get "deadline" data = Some j → truthy j = false) →
   obj_get "urgency" data = None → obj_get "dependencies" data = None →
   obj_get "completed" data = None → obj_get "created_at" data = None →
   obj_get "priority_score" data = None →
   from_dict isoformat fromisoformat now (JObj data)
     = Ok (mkTask id ttl "" None 5 [] false now 0)) ∧
  (∀ s, obj_get "task_id" data = Some (JNum id) →
   obj_get "title" data = Some (JStr ttl) →
   obj_get "description" data = None →
   obj_get "deadline" data = Some (JStr s) → s ≠ ""%string →
   fromisoformat s = None →
   from_dict isoformat fromisoformat now (JObj data) = Raise ValueError).
Proof.
  intros Hrb. unfold from_dict, required.
  split; [by intros ->|]. split; [by intros -> ->|]. split.
  - intros -> -> -> Hdl -> -> -> -> ->. cbn. rewrite Hrb.
    destruct (obj_get "deadline" data) as [j|]; [|done].
    by rewrite (Hdl j eq_refl).
  - intros s -> -> -> -> Hs Hparse. cbn.
    rewrite bool_decide_eq_false_2 by done. cbn. by rewrite Hparse.
Qed.

Lemma from_dict_missing_fields_witness :
  from_dict DecimalClock.isoformat DecimalClock.fromisoformat 9
    (JObj [("task_id", JNum 3); ("title", JStr "bare");
           ("deadline", JNull)]%string)
  = Ok (mkTask 3 "bare" "" None 5 [] false 9 0).
Proof.
  apply (proj1 (proj2 (proj2
           (from_dict_missing_fields DecimalClock.isoformat
              DecimalClock.fromisoformat 9
              [("task_id", JNum 3); ("title", JStr "bare");
               ("deadline", JNull)]%string 3 "bare"
              DecimalClock_reads_back)))); try reflexivity.
  intros j Hj. vm_compute in Hj. by injection Hj as <-.
Defined.

(** X15. Once the file has been opened and parsed, [load_from_json]
    discards the stored tasks before it looks at the content: the tasks
    it leaves, and whether it succeeds, do not depend on the tasks or the
    [next_id] the manager had. *)
Theorem load_from_json_discards_stored_tasks
    (isoformat : datetime → string) (fromisoformat : string → option datetime)
    (now : datetime) (data : json) (st1 st2 : TaskManager) :
  tasks (load_from_json isoformat fromisoformat now (Some data) st1).1 =
  tasks (load_from_json isoformat fromisoformat now (Some data) st2).1 ∧
  (load_from_json isoformat fromisoformat now (Some data) st1).2 =
  (load_from_json isoformat fromisoformat now (Some data) st2).2.
Proof.
  unfold load_from_json.
  destruct data as [| | | | |items]; try done.
  destruct (iter_tasks _) as [records|]; [|done].
  destruct (load_records _ _ _ _ _) as [loaded [e|]]; [done|].
  destruct (as_int _ _) as [n|]; done.
Qed.

(** ** More on the order returned *)

Lemma working_set_elem (now : datetime) (include_completed : bool)
    (st : TaskManager) (t : Task) :
  t ∈ working_set now include_completed st ↔
  ∃ k t0, (k, t0) ∈ tasks st ∧ t = rescore now t0 ∧
          (include_completed = true ∨ completed t0 = false).
Proof.
  unfold working_set, dict_values. rewrite list_elem_of_fmap. split.
  - intros (t0 & -> & Ht0).
    assert (t0 ∈ (tasks st).*2 ∧
            (include_completed = true ∨ completed t0 = false)) as [Hin Hc].
    { destruct include_completed; [by split; [|left]|].
      apply list_elem_of_filter in Ht0 as [? ?]. by split; [|right]. }
    apply list_elem_of_fmap in Hin as ([k z] & -> & Hkz). by exists k, z.
  - intros (k & t0 & Hin & -> & Hc). exists t0. split; [done|].
    assert (t0 ∈ (tasks st).*2) as Hv
      by by apply (list_elem_of_fmap_2 snd _ (k, t0)).
    destruct include_completed; [done|].
    apply list_elem_of_filter. by destruct Hc.
Qed.

Lemma before_elem_of_r {A : Type} (x y : A) (l : list A) :
  before x y l → y ∈ l.
Proof.
  intros (l1 & l2 & l3 & ->). rewrite elem_of_app, elem_of_cons, elem_of_app,
    elem_of_cons. by right; right; right; left.
Qed.

Lemma sorted_of_before {A : Type} (R : relation A) (l : list A) :
  NoDup l →
  (∀ a b, a ∈ l → b ∈ l → a ≠ b → R a b ∨ R b a) →
  (∀ a b, a ∈ l → b ∈ l → R a b → before a b l) →
  StronglySorted R l.
Proof.
  induction l as [|x l IH]; [constructor|].
  intros [Hx Hl]%NoDup_cons Htot Hbef. constructor.
  - apply IH; [done| |].
    + intros a b Ha Hb. apply Htot; by right.
    + intros a b Ha Hb HR.
      destruct (before_cons_inv a b x l (Hbef a b ltac:(by right)
                  ltac:(by right) HR)) as [[-> _]|?]; done.
  - apply Forall_forall. intros y Hy.
    assert (x ≠ y) as Hne by (by intros ->).
    destruct (Htot x y ltac:(left) ltac:(by right) Hne) as [?|HR]; [done|].
    exfalso.
    destruct (before_cons_inv y x x l (Hbef y x ltac:(by right)
                ltac:(left) HR)) as [[-> _]|Hb]; [done|].
    by apply before_elem_of_r in Hb.
Qed.

Section unblocked_order.
Import Heap Topo LoopInv.
Variable ts : list Task.
Hypothesis ids_NoDup : NoDup (task_id <$> ts).

(** When every task is ready from the start, the loop emits all of them,
    in the order of their tuples. *)
Lemma all_ready_sorted :
  (∀ t, t ∈ ts → blocking_deps ts t = []) →
  ∃ out, main_loop ts = Some out ∧
         _topological_sort_with_priority ts = Some out ∧
         out ≡ₚ ts ∧ StronglySorted outranks out.
Proof using ids_NoDup.
  intros Hall.
  destruct (topological_sort_total ts ids_NoDup)
    as (main & Hmain & Htopo & Hnd & Hsub & Hperm).
  pose proof (loop_inv_initial ts ids_NoDup) as Hinv.
  assert (∀ t, t ∈ ts → t ∈ tasks_of (available_tasks (initial_state ts)))
    as Hheap.
  { intros t Ht. destruct (initial_ready ts ids_NoDup t Ht (Hall t Ht))
      as [_ Hin].
    by apply (list_elem_of_fmap_2 entry_task) in Hin. }
  destruct (loop_extends ts ids_NoDup (length ts) (initial_state ts) main
              Hinv Hmain) as (suffix & Heq & Hsuf).
  cbn in Heq. subst suffix.
  assert (remaining_tasks ts main = []) as Hrem.
  { unfold remaining_tasks. rewrite filter_none; [done|].
    intros t Ht Hn. apply Hn, Hsuf, Hheap, Ht. }
  rewrite Hrem, app_nil_r in Htopo, Hperm.
  exists main. split; [done|]. split; [done|]. split; [done|].
  apply sorted_of_before; [done| |].
  - intros a b Ha Hb Hne.
    assert (task_id a ≠ task_id b) as Hid.
    { intros Heq. apply Hne.
      by apply (task_id_inj ts ids_NoDup); [apply Hsub..|]. }
    unfold outranks. lia.
  - intros a b Ha Hb Hab.
    apply (loop_pops_in_order ts ids_NoDup (length ts) (initial_state ts));
      [done|done|by apply Hheap, Hsub|by apply Hheap, Hsub|].
    by apply outranks_entry_lt.
Qed.

(** A completed task that names a task of the working set that is not
    completed keeps its in-degree for good. *)
Lemma completed_dependent_not_emitted (t x : Task) :
  t ∈ ts → x ∈ ts → completed t = true → completed x = false →
  task_id x ∈ dependencies t → ¬ emitted_by_loop ts t.
Proof using ids_NoDup.
  intros Ht Hx Htc Hxc Hdep (main & Hmain & Hin).
  destruct (main_loop_total ts ids_NoDup)
    as (n & s' & _ & _ & [[_ Hready _ _ _] Hcount _] & Hmain').
  assert (main = sorted_tasks s') as -> by congruence.
  destruct (Hready t) as [_ Hle]; [apply elem_of_app; by right|].
  rewrite Hcount, Htc in Hle by done.
  assert (task_id x ∈ blocking_deps ts t) as HxB.
  { apply list_elem_of_filter. split; [|done]. by apply blocking_in_iff. }
  destruct (blocking_deps ts t); [by apply elem_of_nil in HxB|].
  simpl in Hle. lia.
Qed.
End unblocked_order.

(** X16. When no dependency entry of the working set is blocking (for
    instance when no task has dependencies), [ordered] is the working set
    sorted by score descending, with ascending id among equal scores, and
    all of it is emitted by the loop. *)
Theorem ordered_without_blocking_is_sorted (now : datetime)
    (include_completed : bool) (st : TaskManager) :
  well_keyed st →
  (∀ t, t ∈ working_set now include_completed st →
        blocking_deps (working_set now include_completed st) t = []) →
  ∃ out, ordered now include_completed st = Some out ∧
         Topo.main_loop (working_set now include_completed st) = Some out ∧
         out ≡ₚ working_set now include_completed st ∧
         StronglySorted outranks out.
Proof.
  intros Hwf Hall.
  destruct (all_ready_sorted _ (working_set_ids now include_completed st Hwf)
              Hall) as (out & Hmain & Htopo & Hperm & Hsorted).
  by exists out.
Qed.

Lemma ordered_without_blocking_is_sorted_witness :
  ∃ out, ordered day_us false Samples.late_and_urgent = Some out ∧
         StronglySorted outranks out.
Proof.
  destruct (ordered_without_blocking_is_sorted day_us false
              Samples.late_and_urgent) as (out & Hout & _ & _ & Hs).
  - split; [apply (bool_decide_unpack _); by vm_compute
           |vm_compute; by repeat constructor].
  - intros t Ht. vm_compute in Ht.
    apply elem_of_cons in Ht as [->|Ht];
      [|apply list_elem_of_singleton in Ht as ->]; reflexivity.
  - by exists out.
Defined.

(** X17. With [include_completed], a completed task that names as a
    dependency a task of the working set that is not completed is never
    emitted by the loop (its in-degree is counted but never decremented):
    it comes out in the batch after the loop, behind every task the loop
    emits. *)
Theorem completed_dependent_goes_to_batch (now : datetime)
    (include_completed : bool) (st : TaskManager) (t x y : Task) :
  well_keyed st →
  t ∈ working_set now include_completed st →
  x ∈ working_set now include_completed st →
  completed t = true → completed x = false →
  task_id x ∈ dependencies t →
  ¬ emitted_by_loop (working_set now include_completed st) t ∧
  (emitted_by_loop (working_set now include_completed st) y →
   ∃ out, ordered now include_completed st = Some out ∧ before y t out).
Proof.
  intros Hwf Ht Hx Htc Hxc Hdep.
  pose proof (working_set_ids now include_completed st Hwf) as Hids.
  pose proof (completed_dependent_not_emitted _ Hids t x Ht Hx Htc Hxc Hdep)
    as Hnot.
  split; [done|]. intros (main & Hmain & Hy).
  destruct (topological_sort_total _ Hids) as (main' & Hmain' & Htopo & _).
  assert (main' = main) as -> by congruence.
  eexists. split; [exact Htopo|]. apply before_split; [done|].
  unfold Topo.remaining_tasks. rewrite sort_by_key_perm.
  apply list_elem_of_filter. split; [|done].
  intros Hin. apply Hnot. by exists main.
Qed.

Lemma completed_dependent_goes_to_batch_witness :
  ¬ emitted_by_loop
      (working_set 0 true
         (complete_task 0 2 Examples.chain).1)
      (mkTask 2 "second" "" None 9 [1] true 0 90).
Proof.
  apply (completed_dependent_goes_to_batch 0 true
           (complete_task 0 2 Examples.chain).1
           (mkTask 2 "second" "" None 9 [1] true 0 90)
           (mkTask 1 "first" "" None 5 [] false 0 50)
           (mkTask 1 "first" "" None 5 [] false 0 50)).
  - split; [apply (bool_decide_unpack _); by vm_compute
           |vm_compute; by repeat constructor].
  - apply (bool_decide_unpack _); by vm_compute.
  - apply (bool_decide_unpack _); by vm_compute.
  - reflexivity.
  - reflexivity.
  - by left.
Defined.

(** X18. On a collection in which every dependency entry is smaller than
    the id of the task that names it and no dependency list repeats an id,
    the pending tasks have no dependency cycle: [ordered(False)] is
    produced by the loop alone (the batch after the loop is empty), holds
    every pending task once, and puts every pending task after each
    pending task it depends on. *)
Theorem ordered_topological_without_cycles (now : datetime)
    (st : TaskManager) :
  well_keyed st → deps_below st → deps_distinct st →
  ∃ out, ordered now false st = Some out ∧
         Topo.main_loop (working_set now false st) = Some out ∧
         out ≡ₚ working_set now false st ∧
         ∀ t d, t ∈ working_set now false st →
                d ∈ working_set now false st →
                task_id d ∈ dependencies t → before d t out.
Proof.
  intros Hwf Hbelow Hdistinct.
  pose proof (working_set_ids now false st Hwf) as Hids.
  set (W := working_set now false st) in *.
  assert (∀ t, t ∈ W →
            completed t = false ∧ NoDup (dependencies t) ∧
            Forall (λ d, d < task_id t) (dependencies t)) as Hfacts.
  { intros t (k & t0 & Hin & -> & Hc)%working_set_elem.
    unfold deps_below, deps_distinct in *.
    rewrite Forall_forall in Hbelow, Hdistinct.
    split; [by destruct Hc|]. split.
    - apply (Hdistinct _ Hin).
    - apply (Hbelow _ Hin). }
  assert (∃ z, ∀ t, t ∈ W → z ≤ task_id t) as [z Hz].
  { clear. induction W as [|x W [z Hz]]; [by exists 0; intros ? ?%elem_of_nil|].
    exists (Z.min z (task_id x)).
    intros t [->|Ht]%elem_of_cons; [lia|]. specialize (Hz t Ht). lia. }
  assert (∀ n t, t ∈ W → task_id t = n → resolvable W t) as Hres.
  { intros n. induction n as [n IH] using (well_founded_induction (Z.lt_wf z)).
    intros t Ht Hn. destruct (Hfacts t Ht) as (Hc & Hnd & Hlt).
    constructor; [done|done|by apply NoDup_filter| |].
    - intros c Hcin Hcc. by destruct (Hfacts c Hcin) as (Hcf & _); congruence.
    - intros x Hx _ Hdep. apply (IH (task_id x)); [|done|done].
      rewrite Forall_forall in Hlt. specialize (Hlt _ Hdep).
      specialize (Hz x Hx). lia. }
  destruct (topological_sort_total W Hids)
    as (main & Hmain & Htopo & _ & _ & Hperm).
  assert (∀ t, t ∈ W → t ∈ main) as Hall.
  { intros t Ht.
    destruct (resolvable_emitted W Hids t (Hres _ t Ht eq_refl))
      as (main' & Hmain' & Hin).
    by assert (main' = main) as <- by congruence. }
  assert (Topo.remaining_tasks W main = []) as Hrem.
  { unfold Topo.remaining_tasks. rewrite filter_none; [done|].
    intros t Ht Hn. by apply Hn, Hall. }
  rewrite Hrem, app_nil_r in Htopo, Hperm.
  exists main. split; [done|]. split; [done|]. split; [done|].
  intros t d Ht Hd Hdep.
  pose proof (emitted_dependency_first W Hids t d main Hmain Ht Hd Hdep
                (proj1 (Hfacts d Hd))) as Hbefore.
  rewrite Hrem, app_nil_r in Hbefore. apply Hbefore; [|by apply Hall].
  intros c Hcin Hcc. by destruct (Hfacts c Hcin) as (Hcf & _); congruence.
Qed.

Lemma ordered_topological_without_cycles_witness :
  ∃ out, ordered 0 false Examples.chain = Some out ∧
         out ≡ₚ working_set 0 false Examples.chain.
Proof.
  destruct (ordered_topological_without_cycles 0 Examples.chain)
    as (out & Hout & _ & Hperm & _).
  - split; [apply (bool_decide_unpack _); by vm_compute
           |vm_compute; by repeat constructor].
  - apply (bool_decide_unpack _). by vm_compute.
  - apply (bool_decide_unpack _). by vm_compute.
  - by exists out.
Defined.

Lemma rescore_same_but_score (now : datetime) (t t' : Task) :
  same_but_score t t' →
  rescore now t' = rescore now t ∧ completed t' = completed t.
Proof. intros ->. by destruct t. Qed.

Lemma working_set_cache (now : datetime) (include_completed : bool)
    (st st' : TaskManager) :
  differ_in_cache_only st st' →
  working_set now include_completed st' = working_set now include_completed st.
Proof.
  unfold differ_in_cache_only, working_set, dict_values.
  induction 1 as [|[k t] [k' t'] d d' [_ Hsame] _ IH]; [by destruct include_completed|].
  destruct (rescore_same_but_score now t t' Hsame) as [Hr Hc].
  cbn [fst snd] in *. rewrite !fmap_cons. cbn [snd].
  destruct include_completed.
  - rewrite !fmap_cons. by f_equal.
  - rewrite !filter_cons, Hc.
    destruct (decide (completed t = false)); [|done].
    rewrite !fmap_cons. by f_equal.
Qed.

(** X19. The order returned does not read the cached scores: two
    collections that differ only in the [priority_score] of their tasks are
    ordered alike. So an earlier call of [get_sorted_tasks] or
    [_update_priorities], at any time and with any flag, has no influence
    on the list a later call returns. *)
Theorem ordered_ignores_cached_scores (now : datetime)
    (include_completed : bool) (st : TaskManager) :
  (∀ st', differ_in_cache_only st st' →
          ordered now include_completed st' = ordered now include_completed st) ∧
  (∀ earlier flag,
     ordered now include_completed (get_sorted_tasks earlier flag st).1
       = ordered now include_completed st) ∧
  (∀ earlier,
     ordered now include_completed (_update_priorities earlier st)
       = ordered now include_completed st).
Proof.
  assert (∀ st', differ_in_cache_only st st' →
            ordered now include_completed st'
              = ordered now include_completed st) as Hcache.
  { intros st' Hd. unfold ordered, get_sorted_tasks. cbn [snd].
    by rewrite (working_set_cache now include_completed st st' Hd). }
  split; [done|]. split.
  - intros earlier flag. apply Hcache.
    unfold differ_in_cache_only, get_sorted_tasks. cbn [fst tasks].
    apply Forall2_fmap_r, Forall_Forall2_diag, Forall_forall.
    intros [k t] _. split; [done|]. cbn.
    destruct (flag || negb (completed t)); by destruct t.
  - intros earlier. apply Hcache.
    unfold differ_in_cache_only, _update_priorities. cbn [tasks].
    apply Forall2_fmap_r, Forall_Forall2_diag, Forall_forall.
    intros [k t] _. split; [done|]. by destruct t.
Qed.

(** ** Queries, statistics and row colours *)

Lemma filter_completed_split (l : list Task) :
  (length (filter (λ t, completed t = false) l) +
   length (filter (λ t, completed t = true) l) = length l)%nat.
Proof.
  induction l as [|t l IH]; [done|]. rewrite !filter_cons.
  destruct (completed t); simpl; lia.
Qed.

Lemma filter_length_mono {A : Type} (P Q : A → Prop)
    `{!∀ x, Decision (P x)} `{!∀ x, Decision (Q x)} (l : list A) :
  (∀ x, P x → Q x) →
  (length (filter P l) ≤ length (filter Q l))%nat.
Proof.
  intros Himp. induction l as [|x l IH]; [done|]. rewrite !filter_cons.
  destruct (decide (P x)) as [HP|]; destruct (decide (Q x)) as [|HQ];
    simpl; [lia|by destruct HQ; apply Himp|lia|lia].
Qed.

Lemma is_overdue_spec (now : datetime) (t : Task) :
  is_overdue now t = true ↔
  completed t = false ∧ ∃ dl, deadline t = Some dl ∧ dl < now.
Proof.
  unfold is_overdue. rewrite andb_true_iff, negb_true_iff.
  destruct (deadline t) as [dl|].
  - rewrite bool_decide_eq_true. split.
    + intros [? ?]. split; [done|]. by exists dl.
    + intros [? (dl' & [= <-] & ?)]. done.
  - split; [by intros [? ?]|by intros [_ (? & ? & _)]].
Qed.

Lemma timedelta_days_le_one (a b : datetime) :
  timedelta_days a b ≤ 1 ↔ a < b + 2 * day_us.
Proof.
  unfold timedelta_days, day_us. split.
  - intros H. destruct (Z.lt_ge_cases a (b + 2 * 86400000000)) as [|Hge];
      [done|].
    assert (2 ≤ (a - b) `div` 86400000000)
      by (apply Z.div_le_lower_bound; lia). lia.
  - intros H.
    assert ((a - b) `div` 86400000000 < 2)
      by (apply Z.div_lt_upper_bound; lia). lia.
Qed.

(** X20. The four numbers of the status line: the one labelled Total
    counts the tasks that are not completed, so Total and Completed add up
    to the number of stored tasks; Overdue and High Priority count tasks
    that are not completed, so neither exceeds Total. *)
Theorem statistics_partition (now : datetime) (st : TaskManager) :
  (total_tasks (update_statistics now st) +
   completed_tasks (update_statistics now st) = length (tasks st))%nat ∧
  (overdue_tasks (update_statistics now st)
     ≤ total_tasks (update_statistics now st))%nat ∧
  (high_priority (update_statistics now st)
     ≤ total_tasks (update_statistics now st))%nat.
Proof.
  unfold update_statistics, get_overdue_tasks, get_high_priority_tasks.
  cbn [total_tasks completed_tasks overdue_tasks high_priority].
  split; [|split].
  - rewrite filter_completed_split. unfold dict_values.
    by rewrite length_fmap.
  - apply filter_length_mono. intros t Ht.
    apply Is_true_true in Ht. by apply is_overdue_spec in Ht as [? _].
  - apply filter_length_mono. intros t Ht. apply Is_true_true in Ht.
    unfold is_high_priority in Ht.
    apply andb_true_iff in Ht as [_ Hc]. by apply negb_true_iff in Hc.
Qed.

(** X21. The colour of a row. A row is tagged overdue exactly when the
    task satisfies the condition of [get_overdue_tasks], so the red rows of
    the list are the tasks counted as Overdue; it is tagged due soon
    exactly when the task is not completed and its deadline lies between
    now and two days from now; it is tagged high urgency exactly when the
    task satisfies the condition of [get_high_priority_tasks] and has no
    deadline within two days, so a task counted as High Priority is shown
    red or orange instead when its deadline is that near. *)
Theorem row_tag_cases (now : datetime) (t : Task) :
  (row_tag now t = Some tag_overdue ↔ is_overdue now t = true) ∧
  (row_tag now t = Some tag_due_soon ↔
     completed t = false ∧
     ∃ dl, deadline t = Some dl ∧ now ≤ dl < now + 2 * day_us) ∧
  (row_tag now t = Some tag_high_urgency ↔
     is_high_priority t = true ∧
     ∀ dl, deadline t = Some dl → now + 2 * day_us ≤ dl) ∧
  (∀ st, t ∈ get_overdue_tasks now st ↔
         t ∈ dict_values (tasks st) ∧ row_tag now t = Some tag_overdue).
Proof.
  assert (row_tag now t = Some tag_overdue ↔ is_overdue now t = true) as Hov.
  { unfold row_tag, is_overdue.
    destruct (completed t); [by rewrite andb_false_r|].
    rewrite andb_true_r.
    destruct (deadline t) as [dl|]; [|by destruct (8 <=? urgency t)].
    case_bool_decide; [done|].
    destruct (timedelta_days dl now <=? 1); [done|].
    by destruct (8 <=? urgency t). }
  split; [done|]. split; [|split].
  - unfold row_tag. destruct (completed t); [by split; [|intros [? _]]|].
    destruct (deadline t) as [dl|].
    + case_bool_decide as Hlt.
      * split; [done|]. intros [_ (dl' & [= <-] & ? & _)]. lia.
      * destruct (Z.leb_spec (timedelta_days dl now) 1) as [Hle|Hgt].
        -- apply timedelta_days_le_one in Hle. split; [|done].
           intros _. split; [done|]. exists dl. split; [done|lia].
        -- assert (¬ dl < now + 2 * day_us) as Hfar
             by (rewrite <- timedelta_days_le_one; lia).
           split; [by destruct (8 <=? urgency t)|].
           intros [_ (dl' & [= <-] & _ & ?)]. done.
    + split; [by destruct (8 <=? urgency t)|by intros [_ (? & ? & _)]].
  - unfold row_tag, is_high_priority.
    destruct (completed t); [rewrite andb_false_r; by split; [|intros [? _]]|].
    rewrite andb_true_r, bool_decide_eq_true.
    destruct (deadline t) as [dl|].
    + case_bool_decide as Hlt.
      * split; [done|]. intros [_ Hfar]. specialize (Hfar dl eq_refl).
        unfold day_us in Hfar. lia.
      * destruct (Z.leb_spec (timedelta_days dl now) 1) as [Hle|Hgt].
        -- apply timedelta_days_le_one in Hle. split; [done|].
           intros [_ Hfar]. specialize (Hfar dl eq_refl). lia.
        -- assert (¬ dl < now + 2 * day_us) as Hfar
             by (rewrite <- timedelta_days_le_one; lia).
           destruct (Z.leb_spec 8 (urgency t)).
           ++ split; [|done]. intros _. split; [done|].
              intros dl' [= <-]. lia.
           ++ split; [done|]. intros [? _]. lia.
    + destruct (Z.leb_spec 8 (urgency t)).
      * split; [|done]. intros _. split; [done|]. by intros dl' [=].
      * split; [done|]. intros [? _]. lia.
  - intros st. unfold get_overdue_tasks.
    rewrite list_elem_of_filter, Hov, Is_true_true. tauto.
Qed.

(** X22. A task that [get_tasks_due_today] returns and whose deadline has
    not passed is not completed, has the deadline term 100 in its score,
    and its row is tagged due soon. *)
Theorem due_today_not_passed (now : datetime) (st : TaskManager) (t : Task) :
  t ∈ get_tasks_due_today now st →
  t ∉ get_overdue_tasks now st →
  completed t = false ∧
  Score.deadline_score now t = 100 ∧
  row_tag now t = Some tag_due_soon.
Proof.
  unfold get_tasks_due_today, get_overdue_tasks.
  rewrite !list_elem_of_filter.
  intros [Htoday Hin] Hnot.
  assert (is_overdue now t = false) as Hov.
  { destruct (is_overdue now t) eqn:E; [|done]. destruct Hnot. by split. }
  apply Is_true_true in Htoday. unfold is_due_today, is_overdue in *.
  apply andb_true_iff in Htoday as [Hdate Hc].
  apply negb_true_iff in Hc. rewrite Hc, andb_true_r in Hov.
  destruct (deadline t) as [dl|] eqn:Hdl; [|done].
  apply bool_decide_eq_true in Hdate. apply bool_decide_eq_false in Hov.
  assert (now ≤ dl < now + day_us) as Hrange.
  { unfold date_of, day_us in *.
    pose proof (Z.div_mod dl 86400000000 ltac:(lia)) as Hd.
    pose proof (Z.div_mod now 86400000000 ltac:(lia)) as Hn.
    pose proof (Z.mod_pos_bound dl 86400000000 ltac:(lia)).
    pose proof (Z.mod_pos_bound now 86400000000 ltac:(lia)).
    rewrite Hdate in Hd. lia. }
  split; [done|]. split.
  - unfold Score.deadline_score. rewrite Hdl. cbv zeta.
    by rewrite (proj2 (timedelta_days_zero dl now) Hrange).
  - unfold row_tag. rewrite Hc, Hdl.
    rewrite bool_decide_eq_false_2 by lia.
    by rewrite (proj2 (timedelta_days_zero dl now) Hrange).
Qed.

Lemma due_today_not_passed_witness :
  Score.deadline_score 5
    (mkTask 1 "today" "" (Some 9) 5 [] false 0 150) = 100.
Proof.
  apply (due_today_not_passed 5
           (add_task 0 "today" "" (Some 9) 5 None TaskManager_init).1
           (mkTask 1 "today" "" (Some 9) 5 [] false 0 150)).
  - apply (bool_decide_unpack _). by vm_compute.
  - apply (bool_decide_unpack _). by vm_compute.
Defined.

(** ** The input form *)

Lemma deps_below_update (now : datetime) (st : TaskManager) :
  deps_below st → deps_below (_update_priorities now st).
Proof.
  unfold deps_below, _update_priorities. cbn [tasks]. intros Hst.
  apply Forall_fmap. eapply Forall_impl; [exact Hst|]. by intros [k t].
Qed.

Lemma list_remove_first_sublist (x : Z) (l : list Z) :
  list_remove_first x l `sublist_of` l.
Proof.
  induction l as [|y l IH]; [done|]. simpl.
  destruct (decide (x = y)); [by apply sublist_cons|by apply sublist_skip].
Qed.

Lemma deps_below_add_task (now : datetime) (ttl descr : string)
    (dl : option datetime) (urg : Z) (deps : list Z) (st : TaskManager) :
  Forall (λ d, d < next_id st) deps → deps_below st →
  deps_below (add_task now ttl descr dl urg (Some deps) st).1.
Proof.
  intros Hdeps Hst. unfold add_task. cbn [fst].
  apply deps_below_update. unfold deps_below. cbn [tasks].
  by apply dict_set_Forall.
Qed.

Lemma deps_below_complete_task (now : datetime) (tid : Z)
    (st : TaskManager) :
  deps_below st → deps_below (complete_task now tid st).1.
Proof.
  intros Hst. unfold complete_task.
  destruct (dict_get tid (tasks st)) as [task|] eqn:Hget; [|done].
  cbn [fst]. apply deps_below_update. unfold deps_below in *. cbn [tasks].
  apply dict_set_Forall; [|done].
  apply dict_get_elem_of in Hget. rewrite Forall_forall in Hst.
  apply (Hst _ Hget).
Qed.

Lemma deps_below_delete_task (now : datetime) (tid : Z) (st : TaskManager) :
  deps_below st → deps_below (delete_task now tid st).1.
Proof.
  intros Hst. unfold delete_task.
  destruct (dict_contains tid (tasks st)); [|done].
  cbn [fst]. apply deps_below_update. unfold deps_below in *. cbn [tasks].
  apply (sublist_Forall _ _ _ (dict_del_sublist tid _)).
  apply Forall_fmap. eapply Forall_impl; [exact Hst|].
  intros [k t] Ht. cbn in *. rewrite strip_dependency_eq. cbn.
  by apply (sublist_Forall _ _ _ (list_remove_first_sublist tid _)).
Qed.

Section form_properties.
Variable py_strip : string → string.
Variable py_split_comma : string → list string.
Variable py_int : string → option Z.
Variable strptime : string → string → option datetime.


Lemma parse_dependencies_stored (deps_str : string) (st : TaskManager)
    (deps : list Z) :
  parse_dependencies py_strip py_split_comma py_int deps_str st = Some deps →
  Forall (λ d, d ∈ (tasks st).*1) deps.
Proof.
  unfold parse_dependencies. case_bool_decide; [by intros [= <-]|].
  destruct (parse_ints _ _ _) as [ds|]; [|done]. intros [= <-].
  apply Forall_forall. intros d [Hd _]%list_elem_of_filter.
  apply Is_true_true in Hd. unfold dict_contains in Hd.
  by apply bool_decide_eq_true in Hd.
Qed.


(** X24. The add form never builds a dependency cycle. On a collection
    whose ids ascend below [next_id] and whose dependency entries are
    smaller than the id of the task that names them, [add_task] of the
    window either shows an error and leaves the collection as it was (so
    when the title is blank), or stores under the old [next_id] a pending
    task with the stripped, non-blank title whose dependencies are ids of
    tasks stored before, all smaller than its own id; in both cases the
    two conditions hold afterwards, as they do after [complete_task] and
    [delete_task]. *)
Theorem form_add_task_keeps_deps_below (now : datetime)
    (title_entry description_text urgency_var deadline_entry
     dependencies_entry : string) (st : TaskManager) :
  built_by_add st → deps_below st →
  (built_by_add
     (form_add_task py_strip py_split_comma py_int strptime now title_entry
        description_text urgency_var deadline_entry dependencies_entry st).1 ∧
   deps_below
     (form_add_task py_strip py_split_comma py_int strptime now title_entry
        description_text urgency_var deadline_entry dependencies_entry st).1) ∧
  ((form_add_task py_strip py_split_comma py_int strptime now title_entry
      description_text urgency_var deadline_entry dependencies_entry st).2
     = None →
   (form_add_task py_strip py_split_comma py_int strptime now title_entry
      description_text urgency_var deadline_entry dependencies_entry st).1
     = st) ∧
  (py_strip title_entry = ""%string →
   form_add_task py_strip py_split_comma py_int strptime now title_entry
     description_text urgency_var deadline_entry dependencies_entry st
     = (st, None)) ∧
  (∀ id,
     (form_add_task py_strip py_split_comma py_int strptime now title_entry
        description_text urgency_var deadline_entry dependencies_entry st).2
       = Some id →
     id = next_id st ∧
     ∃ t, dict_get id
            (tasks
               (form_add_task py_strip py_split_comma py_int strptime now
                  title_entry description_text urgency_var deadline_entry
                  dependencies_entry st).1) = Some t ∧
          title t = py_strip title_entry ∧ title t ≠ ""%string ∧
          completed t = false ∧
          Forall (λ d, d < id ∧ is_Some (dict_get d (tasks st)))
                 (dependencies t)) ∧
  (∀ tid, deps_below (complete_task now tid st).1) ∧
  (∀ tid, deps_below (delete_task now tid st).1).
Proof.
  intros Hst Hbelow.
  split; [|split; [|split; [|split; [|split]]]];
    try (intros tid; by (apply deps_below_complete_task
                         || apply deps_below_delete_task)).
  - unfold form_add_task. cbv zeta. case_bool_decide; [done|].
    destruct (py_int urgency_var) as [urg|]; [|done].
    destruct (if bool_decide (py_strip deadline_entry = ""%string)
              then Some None else _) as [dl|]; [|done].
    destruct (parse_dependencies _ _ _ _ _) as [deps|] eqn:Hdeps; [|done].
    cbn [fst]. split; [by apply built_by_add_add_task|].
    apply deps_below_add_task; [|done].
    apply parse_dependencies_stored in Hdeps.
    destruct Hst as (_ & _ & Hlt). rewrite Forall_forall in Hlt.
    eapply Forall_impl; [exact Hdeps|]. intros d Hd. by apply Hlt.
  - unfold form_add_task. cbv zeta. case_bool_decide; [done|].
    destruct (py_int urgency_var) as [urg|]; [|done].
    destruct (if bool_decide (py_strip deadline_entry = ""%string)
              then Some None else _) as [dl|]; [|done].
    by destruct (parse_dependencies _ _ _ _ _) as [deps|].
  - intros Hblank. unfold form_add_task. cbv zeta.
    by rewrite bool_decide_eq_true_2.
  - intros id. unfold form_add_task. cbv zeta.
    case_bool_decide as Htitle; [done|].
    destruct (py_int urgency_var) as [urg|]; [|done].
    destruct (if bool_decide (py_strip deadline_entry = ""%string)
              then Some None else _) as [dl|]; [|done].
    destruct (parse_dependencies _ _ _ _ _) as [deps|] eqn:Hdeps; [|done].
    cbn [fst snd]. intros [= <-]. unfold add_task.
    cbn [fst snd Task_init task_id _update_priorities tasks].
    split; [done|].
    rewrite dict_get_fmap, dict_get_set, decide_True by done.
    eexists. split; [done|]. cbn. do 3 (split; [done|]).
    pose proof (parse_dependencies_stored _ _ _ Hdeps) as Hstored.
    destruct Hst as (_ & _ & Hlt). rewrite Forall_forall in Hlt.
    eapply Forall_impl; [exact Hstored|]. intros d Hd. cbn in Hd.
    split; [by apply Hlt|].
    apply dict_contains_get. unfold dict_contains.
    by apply bool_decide_eq_true.
Qed.
End form_properties.

Lemma form_add_task_keeps_deps_below_witness :
  (form_add_task Text.strip Text.split_comma Text.int Text.strptime 0
     " third " "" "7" "" "1, 2,9" Examples.chain).2 = Some 3 ∧
  dependencies <$>
    dict_get 3
      (tasks (form_add_task Text.strip Text.split_comma Text.int
                Text.strptime 0 " third " "" "7" "" "1, 2,9"
                Examples.chain).1) = Some [1; 2] ∧
  deps_below
    (form_add_task Text.strip Text.split_comma Text.int Text.strptime 0
       " third " "" "7" "" "1, 2,9" Examples.chain).1.
Proof.
  split; [by vm_compute|]. split; [by vm_compute|].
  apply (form_add_task_keeps_deps_below Text.strip Text.split_comma Text.int
           Text.strptime 0 " third " "" "7" "" "1, 2,9" Examples.chain).
  - apply built_by_add_add_task, built_by_add_add_task, built_by_add_init.
  - apply (bool_decide_unpack _). by vm_compute.
Defined.
